(** * code2vec training: metric engine, training loop, vector export

    A shallow embedding of [models/code2vec/__main__.py].

    Conventions of the embedding.
    - A Python float is a [pyfloat]: an exact rational, or not-a-number.
      Rounding is not modelled: every finite float stands for the rational
      it was computed as.  Counters held in floats ([0.0], [+= 1]) are exact.
      A score that is one quotient of two counts is then the float nearest
      to its rational, and comparing two such scores is comparing the two
      fractions up to ties; a mean of floats ([np.average]) also depends on
      the order of the summands, which the model does not see, so nothing
      is stated here that rests on comparing two such means.
    - A Python call that may raise returns a [result]; exceptions are the
      constructors of [exn].
    - Dictionaries of the vocabulary are [gmap]s; a missing key raises
      [KeyError].
    - Files, the open file handles with their buffers, the values reported
      to a trial and the calls on the summary writer form the [World],
      threaded explicitly through the stateful functions.  What the file
      system may refuse, and when the runtime flushes a buffer, is part of
      the world too ([IOEnv]): the program does not decide it.
    - What is printed or logged on the console is not modelled. *)

From Stdlib Require Import QArith Qreduction Lqa.
From Stdlib Require Ascii.
From stdpp Require Import base option list sorting gmap strings pretty.

Local Open Scope Z_scope.

(** ** Exceptions and results *)

Inductive exn : Set :=
  | ZeroDivisionError
  | KeyError
  | IndexError
  | ValueError
  | RuntimeError
  | OSError
  | TrialPruned.

Inductive result (A : Type) : Type :=
  | Ok (a : A)
  | Raise (e : exn).
Arguments Ok {A} a.
Arguments Raise {A} e.

#[global] Instance result_ret : MRet result := λ A a, Ok a.
#[global] Instance result_bind : MBind result := λ A B k m,
  match m with
  | Ok a => k a
  | Raise e => Raise e
  end.

#[global] Instance exn_eq_dec : EqDecision exn.
Proof. solve_decision. Defined.

(** ** Python floats *)

Inductive pyfloat : Set :=
  | Num (q : Q)
  | NaN.

(** [a < b] on floats: false as soon as one side is not a number. *)
Definition Qlt_bool (x y : Q) : bool :=
  (Qnum x * QDen y <? Qnum y * QDen x)%Z.

Definition py_lt (a b : pyfloat) : bool :=
  match a, b with
  | Num x, Num y => Qlt_bool x y
  | _, _ => false
  end.

(** [a - b] on floats. *)
Definition py_sub (a b : pyfloat) : pyfloat :=
  match a, b with
  | Num x, Num y => Num (Qred (x - y))
  | _, _ => NaN
  end.

(** [a / b] on Python numbers: a zero divisor raises. *)
Definition py_div (a b : Q) : result Q :=
  if Qeq_bool b 0 then Raise ZeroDivisionError else Ok (Qred (a / b)).

(** [float(n)] and [len(l)] as a float. *)
Definition float_of_Z (n : Z) : Q := inject_Z n.
Definition len {A} (l : list A) : Z := Z.of_nat (length l).

(** ** Vocabulary of labels *)

Record LabelVocab : Type := {
  itos : gmap Z string;
  itosubtokens : gmap Z (list string);
}.

(** [d[k]] on a dictionary. *)
Definition getitem {V} (d : gmap Z V) (k : Z) : result V :=
  match d !! k with
  | Some v => Ok v
  | None => Raise KeyError
  end.

(** ** Metric engine *)

Definition metrics : Set := (pyfloat * pyfloat * pyfloat * pyfloat)%type.

(** The [if precision + recall > 0] tail shared by both subtoken policies. *)
Definition f1_of (prec rec : Q) : result Q :=
  if Qlt_bool 0 (prec + rec)
  then py_div (2 * prec * rec) (prec + rec)
  else Ok 0%Q.

(** [subtoken in actual_subtokens]. *)
Definition py_in (subtoken : string) (actual_subtokens : list string) : bool :=
  bool_decide (subtoken ∈ actual_subtokens).

Module SubtokenMatch.

(** Loop state: [subtokens_match], [subtokens_expected_count],
    [subtokens_actual_count]. *)
Record counters : Set := {
  subtokens_match : Q;
  subtokens_expected_count : Q;
  subtokens_actual_count : Q;
}.

Definition init : counters :=
  {| subtokens_match := 0; subtokens_expected_count := 0;
     subtokens_actual_count := 0 |}.

(** [for subtoken in exp_subtokens: if subtoken in actual_subtokens:
    subtokens_match += 1] *)
Fixpoint inner (exp_subtokens actual_subtokens : list string) (m : Q) : Q :=
  match exp_subtokens with
  | [] => m
  | subtoken :: rest =>
      inner rest actual_subtokens
        (if py_in subtoken actual_subtokens then (m + 1)%Q else m)
  end.

(** One iteration of the [for expected, actual in zip(...)] body. *)
Definition body (label_vocab : LabelVocab) (expected actual : Z)
    (c : counters) : result counters :=
  exp_subtokens ← getitem (itosubtokens label_vocab) expected;
  actual_subtokens ← getitem (itosubtokens label_vocab) actual;
  Ok {| subtokens_match :=
          inner exp_subtokens actual_subtokens (subtokens_match c);
        subtokens_expected_count :=
          (subtokens_expected_count c + float_of_Z (len exp_subtokens))%Q;
        subtokens_actual_count :=
          (subtokens_actual_count c + float_of_Z (len actual_subtokens))%Q |}.

Fixpoint loop (label_vocab : LabelVocab) (pairs : list (Z * Z))
    (c : counters) : result counters :=
  match pairs with
  | [] => Ok c
  | (expected, actual) :: rest =>
      c' ← body label_vocab expected actual c;
      loop label_vocab rest c'
  end.

Definition finish (c : counters) : result metrics :=
  accuracy ←
    py_div (subtokens_match c)
      (subtokens_expected_count c + subtokens_actual_count c
       - subtokens_match c);
  precision ← py_div (subtokens_match c) (subtokens_actual_count c);
  recall ← py_div (subtokens_match c) (subtokens_expected_count c);
  f1 ← f1_of precision recall;
  Ok (Num accuracy, Num precision, Num recall, Num f1).

End SubtokenMatch.

Definition subtoken_match (expected_labels actual_labels : list Z)
    (label_vocab : LabelVocab) : result metrics :=
  c ← SubtokenMatch.loop label_vocab (zip expected_labels actual_labels)
            SubtokenMatch.init;
  SubtokenMatch.finish c.

(** The scenario vocabulary: label 0 is [get x], label 1 is [set x]. *)
Definition demo_vocab : LabelVocab :=
  {| itos := {[ 0 := "getX"%string; 1 := "setX"%string ]};
     itosubtokens := {[ 0 := ["get"; "x"]%string; 1 := ["set"; "x"]%string ]} |}.

Module AveragedSubtokenMatch.

(** [match = 0; for subtoken in exp_subtokens: if subtoken in
    actual_subtokens: match += 1], on Python integers. *)
Fixpoint inner (exp_subtokens actual_subtokens : list string) (m : Z) : Z :=
  match exp_subtokens with
  | [] => m
  | subtoken :: rest =>
      inner rest actual_subtokens
        (if py_in subtoken actual_subtokens then m + 1 else m)
  end.

(** The four lists the loop appends to. *)
Record columns : Set := {
  subtokens_accuracy : list Q;
  subtokens_precision : list Q;
  subtokens_recall : list Q;
  subtokens_f1 : list Q;
}.

Definition init : columns :=
  {| subtokens_accuracy := []; subtokens_precision := [];
     subtokens_recall := []; subtokens_f1 := [] |}.

(** The scores of one example, in the order the source divides. *)
Definition example_scores (exp_subtokens actual_subtokens : list string)
    : result (Q * Q * Q * Q) :=
  let match_ := inner exp_subtokens actual_subtokens 0 in
  acc ← py_div (float_of_Z match_)
           (float_of_Z (len exp_subtokens + len actual_subtokens - match_));
  rec ← py_div (float_of_Z match_) (float_of_Z (len exp_subtokens));
  prec ← py_div (float_of_Z match_) (float_of_Z (len actual_subtokens));
  subtoken_f1 ← f1_of prec rec;
  Ok (acc, prec, rec, subtoken_f1).

Definition body (label_vocab : LabelVocab) (expected actual : Z)
    (c : columns) : result columns :=
  exp_subtokens ← getitem (itosubtokens label_vocab) expected;
  actual_subtokens ← getitem (itosubtokens label_vocab) actual;
  '(acc, prec, rec, subtoken_f1) ← example_scores exp_subtokens actual_subtokens;
  Ok {| subtokens_accuracy := subtokens_accuracy c ++ [acc];
        subtokens_precision := subtokens_precision c ++ [prec];
        subtokens_recall := subtokens_recall c ++ [rec];
        subtokens_f1 := subtokens_f1 c ++ [subtoken_f1] |}.

Fixpoint loop (label_vocab : LabelVocab) (pairs : list (Z * Z))
    (c : columns) : result columns :=
  match pairs with
  | [] => Ok c
  | (expected, actual) :: rest =>
      c' ← body label_vocab expected actual c;
      loop label_vocab rest c'
  end.

End AveragedSubtokenMatch.

(** [np.average] of a list of floats: the mean, and not-a-number (with a
    warning only) for the empty list.  The sum is exact here; that of the
    floats can differ in the last place with the order of the summands. *)
Definition Qsum (l : list Q) : Q := foldr Qplus 0%Q l.

Definition np_average (l : list Q) : pyfloat :=
  match l with
  | [] => NaN
  | _ :: _ => Num (Qred (Qsum l / float_of_Z (len l)))
  end.

Definition averaged_subtoken_match (expected_labels actual_labels : list Z)
    (label_vocab : LabelVocab) : result metrics :=
  c ← AveragedSubtokenMatch.loop label_vocab
        (zip expected_labels actual_labels) AveragedSubtokenMatch.init;
  Ok (np_average (AveragedSubtokenMatch.subtokens_accuracy c),
      np_average (AveragedSubtokenMatch.subtokens_precision c),
      np_average (AveragedSubtokenMatch.subtokens_recall c),
      np_average (AveragedSubtokenMatch.subtokens_f1 c)).

(** ** Exact match, through scikit-learn

    [sklearn.metrics] is a library the program calls; the functions below
    follow its documented behaviour: inputs of different lengths are refused
    with [ValueError]; with [average=None] a score is returned per class, in
    the sorted order of the labels that occur in either input; a score whose
    denominator is zero is [0.0]. *)
Module Sklearn.

Definition check_consistent_length (y_true y_pred : list Z) : result unit :=
  if bool_decide (length y_true = length y_pred) then Ok ()
  else Raise ValueError.

(** Number of samples whose (true, predicted) pair satisfies [P]. *)
Definition count (P : Z → Z → bool) (y_true y_pred : list Z) : Z :=
  len (filter (λ tp, P tp.1 tp.2 = true) (zip y_true y_pred)).

Definition unique_labels (y_true y_pred : list Z) : list Z :=
  merge_sort Z.le (remove_dups (y_true ++ y_pred)).

Definition ratio_or_zero (num den : Z) : pyfloat :=
  if bool_decide (den = 0) then Num 0
  else Num (Qred (float_of_Z num / float_of_Z den)).

Definition tp (c : Z) (y_true y_pred : list Z) : Z :=
  count (λ t p, bool_decide (t = c) && bool_decide (p = c)) y_true y_pred.
Definition true_sum (c : Z) (y_true y_pred : list Z) : Z :=
  count (λ t _, bool_decide (t = c)) y_true y_pred.
Definition pred_sum (c : Z) (y_true y_pred : list Z) : Z :=
  count (λ _ p, bool_decide (p = c)) y_true y_pred.

Definition per_class (score : Z → pyfloat) (y_true y_pred : list Z)
    : result (list pyfloat) :=
  _ ← check_consistent_length y_true y_pred;
  Ok (score <$> unique_labels y_true y_pred).

Definition precision_score (y_true y_pred : list Z) : result (list pyfloat) :=
  per_class (λ c, ratio_or_zero (tp c y_true y_pred) (pred_sum c y_true y_pred))
    y_true y_pred.

Definition recall_score (y_true y_pred : list Z) : result (list pyfloat) :=
  per_class (λ c, ratio_or_zero (tp c y_true y_pred) (true_sum c y_true y_pred))
    y_true y_pred.

Definition f1_score (y_true y_pred : list Z) : result (list pyfloat) :=
  per_class
    (λ c, ratio_or_zero (2 * tp c y_true y_pred)
            (true_sum c y_true y_pred + pred_sum c y_true y_pred))
    y_true y_pred.

Definition accuracy_score (y_true y_pred : list Z) : result pyfloat :=
  _ ← check_consistent_length y_true y_pred;
  Ok (np_average
        ((λ tp, if bool_decide (tp.1 = tp.2) then 1%Q else 0%Q)
           <$> zip y_true y_pred)).

End Sklearn.

(** [scores[0]] on an array. *)
Definition first {A} (scores : list A) : result A :=
  match scores with
  | x :: _ => Ok x
  | [] => Raise IndexError
  end.

Definition exact_match (expected_labels actual_labels : list Z)
    : result metrics :=
  precision ← Sklearn.precision_score expected_labels actual_labels ≫= first;
  recall ← Sklearn.recall_score expected_labels actual_labels ≫= first;
  f1 ← Sklearn.f1_score expected_labels actual_labels ≫= first;
  accuracy ← Sklearn.accuracy_score expected_labels actual_labels;
  Ok (accuracy, precision, recall, f1).

(** ** Evaluation of one split *)

Inductive EvalMethod : Set := exact | subtoken | ave_subtoken.

(** What a pass of the model over a split yields: the summed loss and the
    expected and predicted label of every example. *)
Record SplitPass : Set := {
  pass_loss : pyfloat;
  pass_expected : list Z;
  pass_actual : list Z;
}.

(** [test]: the pass itself may raise (the forward pass is the model's);
    the metrics follow the configured policy. *)
Definition test (eval_method : EvalMethod) (label_vocab : LabelVocab)
    (pass : result SplitPass) : result (pyfloat * metrics) :=
  p ← pass;
  m ← match eval_method with
      | exact => exact_match (pass_expected p) (pass_actual p)
      | subtoken => subtoken_match (pass_expected p) (pass_actual p) label_vocab
      | ave_subtoken =>
          averaged_subtoken_match (pass_expected p) (pass_actual p) label_vocab
      end;
  Ok (pass_loss p, m).

(** ** The world: files, handles, trial reports, summary writer *)

(** What the program does not decide about its files: which paths cannot be
    opened for writing (a missing directory, permissions); which content a
    path cannot be made to hold (a full device); when the runtime empties
    the buffer of a handle before the handle is closed; and on which paths
    [torch.save] fails, with the exception it raises there. *)
Record IOEnv : Type := {
  cannot_open : string → bool;
  cannot_hold : string → list string → bool;
  flushes_early : string → list string → bool;
  save_error : string → option exn;
}.

(** An open file object: its path, and the chunks written to it that have
    not reached the file yet. *)
Record Handle : Set := {
  h_path : string;
  h_buffer : list string;
}.

(** The calls made on tensorboard's [SummaryWriter].  The writer is a
    library object: the model records the calls, not what the library does
    with them. *)
Inductive TbEvent : Set :=
  | WriterCreated                      (* [SummaryWriter()] *)
  | Scalar (tag : string) (value : pyfloat) (step : nat)   (* [add_scalar] *)
  | WriterClosed.                      (* [close()] *)

Record World : Type := {
  files : gmap string (list string);   (* path ↦ the chunks that reached the file, in order *)
  handles : list Handle;               (* the handles not yet closed, last opened first *)
  reports : list (pyfloat * nat);      (* [trial.report(value, step)], oldest first *)
  summary : list TbEvent;              (* the calls on summary writers, oldest first *)
  io : IOEnv;
}.

(** One path per handle not yet closed. *)
Definition open_handles (w : World) : list string := h_path <$> handles w.

Definition set_files (f : gmap string (list string)) (w : World) : World :=
  {| files := f; handles := handles w; reports := reports w;
     summary := summary w; io := io w |}.
Definition set_handles (h : list Handle) (w : World) : World :=
  {| files := files w; handles := h; reports := reports w;
     summary := summary w; io := io w |}.
Definition set_reports (r : list (pyfloat * nat)) (w : World) : World :=
  {| files := files w; handles := handles w; reports := r;
     summary := summary w; io := io w |}.
Definition set_summary (s : list TbEvent) (w : World) : World :=
  {| files := files w; handles := handles w; reports := reports w;
     summary := s; io := io w |}.

(** What a path holds; a path without file holds nothing. *)
Definition content (w : World) (p : string) : list string :=
  default [] (files w !! p).

(** The handle that a write to [path] or a close of [path] acts on: the last
    one opened on it.  (The program never has two handles on one path,
    unless the result file is the vector file.) *)
Fixpoint find_handle (path : string) (hs : list Handle) : option Handle :=
  match hs with
  | [] => None
  | h :: rest =>
      if bool_decide (h_path h = path) then Some h else find_handle path rest
  end.

Fixpoint set_buffer (path : string) (buf : list string) (hs : list Handle)
    : list Handle :=
  match hs with
  | [] => []
  | h :: rest =>
      if bool_decide (h_path h = path)
      then {| h_path := path; h_buffer := buf |} :: rest
      else h :: set_buffer path buf rest
  end.

Fixpoint remove_handle (path : string) (hs : list Handle) : list Handle :=
  match hs with
  | [] => []
  | h :: rest =>
      if bool_decide (h_path h = path) then rest
      else h :: remove_handle path rest
  end.

(** What was written to the handle on [path] and has not reached the file. *)
Definition pending (w : World) (path : string) : list string :=
  from_option h_buffer [] (find_handle path (handles w)).

Inductive OpenMode : Set := mode_w | mode_a.

(** [open(path, mode)]: ["w"] truncates, ["a"] keeps what is there; a path
    that cannot be opened raises [OSError]. *)
Definition py_open (path : string) (mode : OpenMode) (w : World)
    : result unit * World :=
  if cannot_open (io w) path then (Raise OSError, w)
  else
    let kept :=
      match mode with
      | mode_w => []
      | mode_a => content w path
      end in
    (Ok (),
     set_handles ({| h_path := path; h_buffer := [] |} :: handles w)
       (set_files (<[path := kept]> (files w)) w)).

(** The buffer [buf] of a handle on [path] goes to the file, which grows by
    it; [OSError] when the path cannot hold that much. *)
Definition flush (path : string) (buf : list string) (w : World)
    : result unit * World :=
  if bool_decide (buf = []) then (Ok (), w)
  else if cannot_hold (io w) path (content w path ++ buf)
  then (Raise OSError, w)
  else (Ok (), set_files (<[path := content w path ++ buf]> (files w)) w).

(** [f.write(s)] on the handle of [path]: the chunk goes to the buffer, and
    to the file only when the runtime flushes; writing to a closed file
    raises [ValueError]. *)
Definition py_write (path : string) (s : string) (w : World)
    : result unit * World :=
  match find_handle path (handles w) with
  | None => (Raise ValueError, w)
  | Some h =>
      let buf := h_buffer h ++ [s] in
      if flushes_early (io w) path buf then
        match flush path buf w with
        | (Ok _, w') =>
            (Ok (), set_handles (set_buffer path [] (handles w')) w')
        | (Raise e, w') =>
            (Raise e, set_handles (set_buffer path buf (handles w')) w')
        end
      else (Ok (), set_handles (set_buffer path buf (handles w)) w)
  end.

(** [f.close()]: the buffer is flushed and the handle goes away, also when
    the flush raises; closing a closed file does nothing. *)
Definition py_close (path : string) (w : World) : result unit * World :=
  match find_handle path (handles w) with
  | None => (Ok (), w)
  | Some h =>
      flush path (h_buffer h)
        (set_handles (remove_handle path (handles w)) w)
  end.

(** [with open(path, mode) as f: body]: the handle is closed however the
    body ends; an exception of [close] replaces that of the body. *)
Definition with_open {A} (path : string) (mode : OpenMode)
    (body : World → result A * World) (w : World) : result A * World :=
  match py_open path mode w with
  | (Raise e, w0) => (Raise e, w0)
  | (Ok _, w0) =>
      let '(r, w1) := body w0 in
      match py_close path w1 with
      | (Raise e, w2) => (Raise e, w2)
      | (Ok _, w2) => (r, w2)
      end
  end.

(** ** Vector export *)

Definition tab : string := String (Ascii.ascii_of_nat 9) EmptyString.
Definition nl : string := String (Ascii.ascii_of_nat 10) EmptyString.

Fixpoint join (sep : string) (l : list string) : string :=
  match l with
  | [] => ""
  | [x] => x
  | x :: rest => x +:+ sep +:+ join sep rest
  end.

Definition str_bool (b : bool) : string := if b then "True" else "False".

(** One example of a batch as [write_code_vectors] sees it after the forward
    pass: its id, its label, the components of its code vector and the
    predicted label with its score (numbers already printed). *)
Record Row : Set := {
  row_id : Z;
  row_label : Z;
  row_vec : list string;
  row_pred : Z;
  row_prob : string;
}.

(** The inner [for i in range(len(starts))] loop. *)
Fixpoint write_rows (label_vocab : LabelVocab) (vector_file : string)
    (test_result_file : option string) (rows : list Row) (w : World)
    : result unit * World :=
  match rows with
  | [] => (Ok (), w)
  | r :: rest =>
      match getitem (itos label_vocab) (row_label r) with
      | Raise e => (Raise e, w)
      | Ok label_name =>
          match py_write vector_file
                  (label_name +:+ tab +:+ join " " (row_vec r) +:+ nl) w with
          | (Raise e, w1) => (Raise e, w1)
          | (Ok _, w1) =>
              match test_result_file with
              | None =>
                  write_rows label_vocab vector_file test_result_file rest w1
              | Some fr =>
                  match getitem (itos label_vocab) (row_pred r) with
                  | Raise e => (Raise e, w1)
                  | Ok pred_name =>
                      match py_write fr
                              (pretty (row_id r) +:+ tab
                               +:+ str_bool (bool_decide (label_name = pred_name))
                               +:+ tab +:+ label_name +:+ tab +:+ pred_name
                               +:+ tab +:+ row_prob r +:+ nl) w1 with
                      | (Raise e, w2) => (Raise e, w2)
                      | (Ok _, w2) =>
                          write_rows label_vocab vector_file test_result_file
                            rest w2
                      end
                  end
              end
          end
      end
  end.

(** The [for i_batch, sample_batched in enumerate(data_loader)] loop; a batch
    is [Raise e] when loading it or the forward pass on it raises. *)
Fixpoint write_batches (label_vocab : LabelVocab) (vector_file : string)
    (test_result_file : option string) (data_loader : list (result (list Row)))
    (w : World) : result unit * World :=
  match data_loader with
  | [] => (Ok (), w)
  | Raise e :: _ => (Raise e, w)
  | Ok rows :: rest =>
      match write_rows label_vocab vector_file test_result_file rows w with
      | (Ok _, w') =>
          write_batches label_vocab vector_file test_result_file rest w'
      | (Raise e, w') => (Raise e, w')
      end
  end.

Definition write_code_vectors (label_vocab : LabelVocab)
    (data_loader : list (result (list Row))) (vector_file : string)
    (mode : OpenMode) (test_result_file : option string) (w : World)
    : result unit * World :=
  (* fr = open(test_result_file, "w"), outside any [with] *)
  match
    match test_result_file with
    | Some fr => py_open fr mode_w w
    | None => (Ok (), w)
    end
  with
  | (Raise e, w0) => (Raise e, w0)
  | (Ok _, w0) =>
      match with_open vector_file mode
              (write_batches label_vocab vector_file test_result_file
                 data_loader) w0 with
      | (Raise e, w1) => (Raise e, w1)
      | (Ok _, w1) =>
          (* reached on the normal path only *)
          match test_result_file with
          | Some fr => py_close fr w1
          | None => (Ok (), w1)
          end
      end
  end.

(** ** Training loop *)

(** The trial of the hyperparameter search, as the loop uses it: the study
    decides on pruning from the values reported so far and the step. *)
Record Trial : Type := {
  should_prune : list (pyfloat * nat) → nat → bool;
}.

Record Args : Type := {
  max_epoch : nat;
  eval_method : EvalMethod;
  env : string;
  vectors_path : string;
  test_result_path : option string;
  model_path : string;
}.

Record Reader : Type := {
  label_vocab : LabelVocab;
  items_len : Z;                       (* [len(reader.items)] *)
}.

(** What the collaborators (dataset, model, optimizer) yield in one epoch:
    the summed training loss, the dev and test passes, and what the two
    export loaders would yield if the vectors were written. *)
Record EpochObs : Type := {
  train_pass : result pyfloat;
  dev_pass : result SplitPass;
  test_pass : result SplitPass;
  train_export : list (result (list Row));
  test_export : list (result (list Row));
}.

(** The locals of [_train] that the loop assigns. *)
Record TrainState : Set := {
  best_f1 : option pyfloat;
  last_loss : option pyfloat;
  last_accuracy : option pyfloat;
  bad_count : Z;
}.

Definition initial_state : TrainState :=
  {| best_f1 := None; last_loss := None; last_accuracy := None; bad_count := 0 |}.

Definition has_slash_end (s : string) : bool :=
  match reverse (String.list_ascii_of_string s) with
  | c :: _ => bool_decide (c = Ascii.ascii_of_nat 47)
  | [] => false
  end.

(** [os.path.join(a, b)] for a relative [b]. *)
Definition path_join (a b : string) : string :=
  if bool_decide (a = "") then b
  else if has_slash_end a then a +:+ b
  else a +:+ "/" +:+ b.

Definition state_dict_blob : string := "<state_dict>".

(** [torch.save(model.state_dict(), path)]: the file is replaced, unless
    the library cannot write there. *)
Definition torch_save (path : string) (w : World) : result unit * World :=
  match save_error (io w) path with
  | Some e => (Raise e, w)
  | None => (Ok (), set_files (<[path := [state_dict_blob]]> (files w)) w)
  end.

(** The body of [if trial is None and not DISALLOW_WRITE]. *)
Definition persist (args : Args) (reader : Reader) (encode_size : Z)
    (obs : EpochObs) (w : World) : result unit * World :=
  let vector_file := vectors_path args in
  match with_open vector_file mode_w
          (py_write vector_file
             (pretty (items_len reader) +:+ tab +:+ pretty encode_size +:+ nl))
          w with
  | (Raise e, w1) => (Raise e, w1)
  | (Ok _, w1) =>
      match write_code_vectors (label_vocab reader) (train_export obs)
              vector_file mode_a None w1 with
      | (Raise e, w2) => (Raise e, w2)
      | (Ok _, w2) =>
          match write_code_vectors (label_vocab reader) (test_export obs)
                  vector_file mode_a (test_result_path args) w2 with
          | (Raise e, w3) => (Raise e, w3)
          | (Ok _, w3) =>
              torch_save (path_join (model_path args) "code2vec.model") w3
          end
      end
  end.

(** [args.env == "tensorboard"] *)
Definition tensorboard (args : Args) : bool :=
  bool_decide (env args = "tensorboard").

(** A call on the summary writer, under [if args.env == "tensorboard"]. *)
Definition writer_call (args : Args) (call : TbEvent) (w : World) : World :=
  if tensorboard args then set_summary (summary w ++ [call]) w else w.

(** The six [add_scalar] calls after the metrics of an epoch are printed. *)
Definition log_metrics (args : Args) (epoch : nat)
    (train_loss test_loss dev_accuracy dev_precision dev_recall dev_f1 : pyfloat)
    (w : World) : World :=
  if tensorboard args then
    set_summary
      (summary w
       ++ [Scalar "metric/train_loss" train_loss epoch;
           Scalar "metric/test_loss" test_loss epoch;
           Scalar "metric/accuracy" dev_accuracy epoch;
           Scalar "metric/precision" dev_precision epoch;
           Scalar "metric/recall" dev_recall epoch;
           Scalar "metric/f1" dev_f1 epoch]) w
  else w.

(** [trial is None] *)
Definition is_None {A} (x : option A) : bool :=
  match x with
  | None => true
  | Some _ => false
  end.

(** [if trial is not None: ...]: report, then ask; [true] when pruned. *)
Definition report_step (trial : option Trial) (f1 : pyfloat) (epoch : nat)
    (w : World) : bool * World :=
  match trial with
  | None => (false, w)
  | Some t =>
      let intermediate_value := py_sub (Num 1) f1 in
      let w' := set_reports (reports w ++ [(intermediate_value, epoch)]) w in
      (should_prune t (reports w') epoch, w')
  end.

(** [best_f1 is None or best_f1 < f1] *)
Definition improved (f1 : pyfloat) (st : TrainState) : bool :=
  match best_f1 st with
  | None => true
  | Some b => py_lt b f1
  end.

(** The [if best_f1 is None or best_f1 < f1] statement. *)
Definition checkpoint_rule (disallow_write : bool) (args : Args)
    (reader : Reader) (encode_size : Z) (trial : option Trial) (f1 : pyfloat)
    (epoch : nat) (obs : EpochObs) (st : TrainState) (w : World)
    : result unit * TrainState * World :=
  if improved f1 st then
    let w0 := writer_call args (Scalar "metric/best_f1" f1 epoch) w in
    let st' :=
      {| best_f1 := Some f1; last_loss := last_loss st;
         last_accuracy := last_accuracy st; bad_count := bad_count st |} in
    if is_None trial && negb disallow_write
    then let '(r, w') := persist args reader encode_size obs w0 in (r, st', w')
    else (Ok (), st', w0)
  else (Ok (), st, w).

(** [last_loss is None or train_loss < last_loss or last_accuracy is None
    or last_accuracy < dev_accuracy], with Python's short-circuit order. *)
Definition progress (train_loss dev_accuracy : pyfloat) (st : TrainState) : bool :=
  is_None (last_loss st)
  || from_option (py_lt train_loss) false (last_loss st)
  || is_None (last_accuracy st)
  || from_option (λ la, py_lt la dev_accuracy) false (last_accuracy st).

(** The early-stop bookkeeping of one epoch. *)
Definition early_stop_rule (train_loss dev_accuracy : pyfloat)
    (st : TrainState) : TrainState :=
  if progress train_loss dev_accuracy st then
    {| best_f1 := best_f1 st; last_loss := Some train_loss;
       last_accuracy := Some dev_accuracy; bad_count := 0 |}
  else
    {| best_f1 := best_f1 st; last_loss := last_loss st;
       last_accuracy := last_accuracy st; bad_count := bad_count st + 1 |}.

(** How one pass through the body of the [for] ends. *)
Inductive Signal : Set :=
  | Continue
  | Break
  | Abort (e : exn).

(** The body of [for epoch in range(args.max_epoch)].  What is printed and
    logged on the console is left out. *)
Definition epoch_body (disallow_write : bool) (args : Args) (reader : Reader)
    (encode_size : Z) (trial : option Trial) (f1 : pyfloat) (epoch : nat)
    (obs : EpochObs) (st : TrainState) (w : World)
    : Signal * TrainState * World :=
  match train_pass obs with
  | Raise e => (Abort e, st, w)
  | Ok train_loss =>
  match test (eval_method args) (label_vocab reader) (dev_pass obs) with
  | Raise e => (Abort e, st, w)
  | Ok (dev_loss, (dev_accuracy, dev_precision, dev_recall, dev_f1)) =>
  match test (eval_method args) (label_vocab reader) (test_pass obs) with
  | Raise e => (Abort e, st, w)
  | Ok (test_loss, (test_accuracy, test_precision, test_recall, test_f1)) =>
  let w0 :=
    log_metrics args epoch train_loss test_loss dev_accuracy dev_precision
      dev_recall dev_f1 w in
  let '(pruned, w1) := report_step trial f1 epoch w0 in
  if pruned then (Abort TrialPruned, st, w1)
  else
    match checkpoint_rule disallow_write args reader encode_size trial f1
            epoch obs st w1 with
    | (Raise e, st1, w2) => (Abort e, st1, w2)
    | (Ok _, st1, w2) =>
        let st2 := early_stop_rule train_loss dev_accuracy st1 in
        if 10 <? bad_count st2 then (Break, st2, w2) else (Continue, st2, w2)
    end
  end end end.

(** How the loop was left. *)
Inductive Exit : Set :=
  | Exhausted                          (* [range(max_epoch)] ran out *)
  | EarlyStop                          (* [break] *)
  | Raised (e : exn).

Record Run : Type := {
  exit : Exit;
  final_state : TrainState;
  final_world : World;
  epochs_run : nat;                    (* how many epochs were started *)
}.

Fixpoint epoch_loop (disallow_write : bool) (args : Args) (reader : Reader)
    (encode_size : Z) (trial : option Trial) (f1 : pyfloat)
    (env : nat → EpochObs) (remaining epoch : nat)
    (st : TrainState) (w : World) : Run :=
  match remaining with
  | O => {| exit := Exhausted; final_state := st; final_world := w;
            epochs_run := epoch |}
  | S remaining' =>
      match epoch_body disallow_write args reader encode_size trial f1
              epoch (env epoch) st w with
      | (Continue, st', w') =>
          epoch_loop disallow_write args reader encode_size trial f1 env
            remaining' (S epoch) st' w'
      | (Break, st', w') =>
          {| exit := EarlyStop; final_state := st'; final_world := w';
             epochs_run := S epoch |}
      | (Abort e, st', w') =>
          {| exit := Raised e; final_state := st'; final_world := w';
             epochs_run := S epoch |}
      end
  end.

(** The [finally] of [_train]: the summary writer is closed however the
    loop was left. *)
Definition finally_close (args : Args) (run : Run) : Run :=
  {| exit := exit run; final_state := final_state run;
     final_world := writer_call args WriterClosed (final_world run);
     epochs_run := epochs_run run |}.

(** [_train], with the module constant as a parameter: the run of the loop,
    and what the call yields ([return 1.0 - f1], or the exception). *)
Definition train_with (disallow_write : bool) (args : Args) (reader : Reader)
    (encode_size : Z) (trial : option Trial) (env : nat → EpochObs)
    (w : World) : Run * result pyfloat :=
  let f1 := Num 0 in
  let w0 := writer_call args WriterCreated w in
  let run :=
    finally_close args
      (epoch_loop disallow_write args reader encode_size trial f1 env
         (max_epoch args) 0 initial_state w0) in
  (run,
   match exit run with
   | Raised e => Raise e
   | _ => Ok (py_sub (Num 1) f1)
   end).

Definition DISALLOW_WRITE : bool := true.

Definition _train : Args → Reader → Z → option Trial → (nat → EpochObs) →
    World → Run * result pyfloat :=
  train_with DISALLOW_WRITE.

(** [train]: one run without a trial. *)
Definition train (args : Args) (reader : Reader) (encode_size : Z)
    (env : nat → EpochObs) (w : World) : Run * result pyfloat :=
  _train args reader encode_size None env w.

(** ** Inputs for examples *)

Definition demo_args (n : nat) : Args :=
  {| max_epoch := n; eval_method := subtoken; env := "floyd";
     vectors_path := "vectors.txt";
     test_result_path := Some "result.tsv"%string; model_path := "out" |}.


Definition demo_reader : Reader :=
  {| label_vocab := demo_vocab; items_len := 3 |}.

Definition demo_row (i label pred : Z) : Row :=
  {| row_id := i; row_label := label; row_vec := ["0.5"; "0.25"];
     row_pred := pred; row_prob := "0.9" |}.

(** An epoch whose training loss is not a number. *)
Definition nan_epoch (actual : list Z) : EpochObs :=
  let p := {| pass_loss := Num 1; pass_expected := [0; 0; 1];
              pass_actual := actual |} in
  {| train_pass := Ok NaN; dev_pass := Ok p; test_pass := Ok p;
     train_export := [Ok [demo_row 1 0 0; demo_row 2 1 1]];
     test_export := [Ok [demo_row 3 0 1]] |}.

(** An epoch with the given training loss whose dev and test passes predict
    [actual] for the expected labels [0; 0; 1]. *)
Definition demo_epoch (train_loss : Q) (actual : list Z) : EpochObs :=
  let p := {| pass_loss := Num 1; pass_expected := [0; 0; 1];
              pass_actual := actual |} in
  {| train_pass := Ok (Num train_loss); dev_pass := Ok p; test_pass := Ok p;
     train_export := [Ok [demo_row 1 0 0; demo_row 2 1 1]];
     test_export := [Ok [demo_row 3 0 1]] |}.

(** A file system on which nothing fails and nothing is flushed before a
    handle is closed. *)
Definition no_faults : IOEnv :=
  {| cannot_open := λ _, false; cannot_hold := λ _ _, false;
     flushes_early := λ _ _, false; save_error := λ _, None |}.

Definition empty_world : World :=
  {| files := ∅; handles := []; reports := []; summary := []; io := no_faults |}.

(** An environment that replays a list of epochs, then repeats [d]. *)
Definition replay (l : list EpochObs) (d : EpochObs) : nat → EpochObs :=
  λ epoch, default d (l !! epoch).

(** A vocabulary in which label 0 repeats a subtoken (as [xX] does once
    lower-cased) and label 1 is that subtoken alone. *)
Definition dup_vocab : LabelVocab :=
  {| itos := {[ 0 := "xX"%string; 1 := "x"%string ]};
     itosubtokens := {[ 0 := ["x"; "x"]%string; 1 := ["x"]%string ]} |}.

(** A vocabulary in which label 2 has no subtoken at all. *)
Definition degenerate_vocab : LabelVocab :=
  {| itos := {[ 0 := "getX"%string; 2 := ""%string ]};
     itosubtokens := {[ 0 := ["get"; "x"]%string; 2 := [] ]} |}.

(** ** The metrics as the specification words them *)

Module Spec.

(** The subtoken list of a label. *)
Definition subtokens_of (v : LabelVocab) (l : Z) : list string :=
  default [] (itosubtokens v !! l).

(** How many expected subtokens are members of the predicted list
    (membership only, nothing deduplicated). *)
Definition common (expected_subtokens predicted_subtokens : list string) : Z :=
  len (filter (λ s, s ∈ predicted_subtokens) expected_subtokens).

Definition Zsum (l : list Z) : Z := foldr Z.add 0 l.

Definition matches (v : LabelVocab) (expected predicted : list Z) : Z :=
  Zsum ((λ ea, common (subtokens_of v ea.1) (subtokens_of v ea.2))
          <$> zip expected predicted).

Definition expected_total (v : LabelVocab) (expected predicted : list Z) : Z :=
  Zsum ((λ ea, len (subtokens_of v ea.1)) <$> zip expected predicted).

Definition predicted_total (v : LabelVocab) (expected predicted : list Z) : Z :=
  Zsum ((λ ea, len (subtokens_of v ea.2)) <$> zip expected predicted).

(** Every label of the batch has a subtoken list. *)
Definition known (v : LabelVocab) (pairs : list (Z * Z)) : Prop :=
  Forall (λ ea, is_Some (itosubtokens v !! ea.1)
                ∧ is_Some (itosubtokens v !! ea.2)) pairs.

(** No expected label of the batch repeats a subtoken. *)
Definition expected_nodup (v : LabelVocab) (pairs : list (Z * Z)) : Prop :=
  Forall (λ ea, NoDup (subtokens_of v ea.1)) pairs.

(** Some example of the batch has an empty subtoken list on one side. *)
Definition has_empty_example (v : LabelVocab) (pairs : list (Z * Z)) : Prop :=
  Exists (λ ea, subtokens_of v ea.1 = [] ∨ subtokens_of v ea.2 = []) pairs.

(** [count(expected == predicted)] *)
Definition agree (expected predicted : list Z) : Z :=
  len (filter (λ ea, ea.1 = ea.2) (zip expected predicted)).

End Spec.

(** ** Auxiliary notions for the statements *)

(** The state after the [if best_f1 is None or best_f1 < f1] statement. *)
Definition after_checkpoint (f1 : pyfloat) (st : TrainState) : TrainState :=
  if improved f1 st then
    {| best_f1 := Some f1; last_loss := last_loss st;
       last_accuracy := last_accuracy st; bad_count := bad_count st |}
  else st.

(** The world after the [add_scalar] calls of an epoch whose passes ended
    normally. *)
Definition epoch_logged (args : Args) (reader : Reader) (epoch : nat)
    (obs : EpochObs) (w : World) : World :=
  match train_pass obs,
        test (eval_method args) (label_vocab reader) (dev_pass obs),
        test (eval_method args) (label_vocab reader) (test_pass obs) with
  | Ok train_loss, Ok (_, (dev_accuracy, dev_precision, dev_recall, dev_f1)),
    Ok (test_loss, _) =>
      log_metrics args epoch train_loss test_loss dev_accuracy dev_precision
        dev_recall dev_f1 w
  | _, _, _ => w
  end.

(** The world after the [if best_f1 is None or best_f1 < f1] statement when
    nothing is persisted. *)
Definition best_logged (args : Args) (f1 : pyfloat) (epoch : nat)
    (st : TrainState) (w : World) : World :=
  if improved f1 st then writer_call args (Scalar "metric/best_f1" f1 epoch) w
  else w.

(** The ways one epoch can end when writing is disallowed. *)
Inductive EpochEnd (args : Args) (reader : Reader) (trial : option Trial)
    (f1 : pyfloat) (epoch : nat) (obs : EpochObs) (st : TrainState) (w : World)
    : Signal * TrainState * World → Prop :=
  | end_failed (e : exn) :
      (* a pass of the model or the metric computation raised *)
      train_pass obs = Raise e
      ∨ test (eval_method args) (label_vocab reader) (dev_pass obs) = Raise e
      ∨ test (eval_method args) (label_vocab reader) (test_pass obs) = Raise e →
      EpochEnd args reader trial f1 epoch obs st w (Abort e, st, w)
  | end_pruned (w1 : World) :
      report_step trial f1 epoch (epoch_logged args reader epoch obs w)
      = (true, w1) →
      EpochEnd args reader trial f1 epoch obs st w (Abort TrialPruned, st, w1)
  | end_completed (train_loss dev_loss dev_accuracy dev_precision dev_recall
                   dev_f1 : pyfloat) (w1 : World) :
      train_pass obs = Ok train_loss →
      test (eval_method args) (label_vocab reader) (dev_pass obs)
      = Ok (dev_loss, (dev_accuracy, dev_precision, dev_recall, dev_f1)) →
      report_step trial f1 epoch (epoch_logged args reader epoch obs w)
      = (false, w1) →
      let st2 := early_stop_rule train_loss dev_accuracy (after_checkpoint f1 st) in
      EpochEnd args reader trial f1 epoch obs st w
        (if 10 <? bad_count st2 then Break else Continue, st2,
         best_logged args f1 epoch st w1).

(** Every pass of an epoch, metrics included, ends normally. *)
Definition passes_ok (args : Args) (reader : Reader) (obs : EpochObs) : Prop :=
  (∃ train_loss, train_pass obs = Ok train_loss)
  ∧ (∃ r, test (eval_method args) (label_vocab reader) (dev_pass obs) = Ok r)
  ∧ (∃ r, test (eval_method args) (label_vocab reader) (test_pass obs) = Ok r).

Definition stale_best (st : TrainState) : Prop :=
  best_f1 st = None ∨ best_f1 st = Some (Num 0).

(** The reports of [n] consecutive epoch steps from [epoch] on. *)
Definition step_reports (f1 : pyfloat) (epoch n : nat) : list (pyfloat * nat) :=
  (λ k, (py_sub (Num 1) f1, k)) <$> seq epoch n.

(** A pruner that says yes at every step. *)
Definition always_prune : Trial := {| should_prune := λ _ _, true |}.

(** A pruner that never says yes. *)
Definition never_prune : Trial := {| should_prune := λ _ _, false |}.

(** Some tracker is unset, or the loss fell, or the accuracy rose. *)
Definition made_progress (train_loss dev_accuracy : pyfloat) (st : TrainState)
    : Prop :=
  last_loss st = None
  ∨ (∃ ll, last_loss st = Some ll ∧ py_lt train_loss ll = true)
  ∨ last_accuracy st = None
  ∨ (∃ la, last_accuracy st = Some la ∧ py_lt la dev_accuracy = true).

(** What the scenario assumes of the epochs [0 .. last]: their passes end
    normally with training loss [loss k] and dev accuracy [acc k]. *)
Definition observed (args : Args) (reader : Reader) (env : nat → EpochObs)
    (loss acc : nat → pyfloat) (last : nat) : Prop :=
  ∀ k, (k <= last)%nat →
    train_pass (env k) = Ok (loss k)
    ∧ (∃ dl p r f, test (eval_method args) (label_vocab reader)
                     (dev_pass (env k)) = Ok (dl, (acc k, p, r, f)))
    ∧ (∃ r, test (eval_method args) (label_vocab reader) (test_pass (env k))
            = Ok r).

(** Epoch [k] of a synthetic run under exact match: training loss [k], and
    [k] of the twelve dev examples predicted wrongly. *)
Definition streak_args : Args :=
  {| max_epoch := 20; eval_method := exact; env := "floyd";
     vectors_path := "vectors.txt"; test_result_path := None;
     model_path := "out" |}.

Definition streak_loss (k : nat) : pyfloat := Num (inject_Z (Z.of_nat k)).

Definition streak_acc (k : nat) : pyfloat :=
  Num (Qred (inject_Z (12 - Z.of_nat k) / 12)).

Definition streak_epoch (k : nat) : EpochObs :=
  let p := {| pass_loss := Num 1; pass_expected := replicate 12 0;
              pass_actual := replicate k 1 ++ replicate (12 - k) 0 |} in
  {| train_pass := Ok (streak_loss k); dev_pass := Ok p; test_pass := Ok p;
     train_export := []; test_export := [] |}.

(** ** Further notions for the statements on the rest of the code *)

(** Some label of the batch has no entry in [itosubtokens]. *)
Definition has_unknown_label (v : LabelVocab) (pairs : list (Z * Z)) : Prop :=
  Exists (λ ea, itosubtokens v !! ea.1 = None ∨ itosubtokens v !! ea.2 = None)
    pairs.

(** A score between 0 and 1. *)
Definition unit_score (x : pyfloat) : Prop :=
  ∃ q, x = Num q ∧ (0 <= q <= 1)%Q.

(** The number one, however the fraction is written. *)
Definition is_one (x : pyfloat) : Prop :=
  ∃ q, x = Num q ∧ (q == 1)%Q.

(** What the loop keeps true of the early-stop counter at the start of
    epoch [epoch]. *)
Definition counter_inv (epoch : nat) (st : TrainState) : Prop :=
  0 <= bad_count st <= 10
  ∧ (last_loss st = None ∨ bad_count st < Z.of_nat epoch).

(** The name of a label that is in [itos]. *)
Definition label_name (v : LabelVocab) (l : Z) : string :=
  default "" (itos v !! l).

(** The line of the vector file for one example. *)
Definition vector_line (v : LabelVocab) (r : Row) : string :=
  label_name v (row_label r) +:+ tab +:+ join " " (row_vec r) +:+ nl.

(** The line of the result file for one example. *)
Definition result_line (v : LabelVocab) (r : Row) : string :=
  pretty (row_id r) +:+ tab
  +:+ str_bool (bool_decide (label_name v (row_label r)
                             = label_name v (row_pred r))) +:+ tab
  +:+ label_name v (row_label r) +:+ tab +:+ label_name v (row_pred r) +:+ tab
  +:+ row_prob r +:+ nl.

(** The labels that the export looks up are in [itos]: the label of every
    row, and its prediction when a result file is written. *)
Definition rows_known (v : LabelVocab) (fr : option string) (rows : list Row)
    : Prop :=
  Forall (λ r, is_Some (itos v !! row_label r)
               ∧ (is_Some fr → is_Some (itos v !! row_pred r))) rows.

(** A loader whose remaining batches start with a failure, or are none. *)
Definition stops (tail : list (result (list Row))) : Prop :=
  match tail with
  | Ok _ :: _ => False
  | _ => True
  end.

Definition loader_outcome (tail : list (result (list Row))) : result unit :=
  match tail with
  | Raise e :: _ => Raise e
  | _ => Ok ()
  end.

(** What [open] leaves in the file at [p]. *)
Definition kept (mode : OpenMode) (w : World) (p : string) : list string :=
  match mode with
  | mode_w => []
  | mode_a => content w p
  end.

(** What the file at [p] holds once the handle on it is flushed. *)
Definition written (w : World) (p : string) : list string :=
  content w p ++ pending w p.

(** The path [p] can be made to hold whatever is written to it. *)
Definition can_hold (w : World) (p : string) : Prop :=
  ∀ c, cannot_hold (io w) p c = false.

(** From [w] to [w'] the file system behaves the same, and neither a trial
    nor a summary writer was called. *)
Definition same_env (w w' : World) : Prop :=
  io w' = io w ∧ reports w' = reports w ∧ summary w' = summary w.

Definition is_scalar (call : TbEvent) : Prop :=
  match call with
  | Scalar _ _ _ => True
  | _ => False
  end.

(** From [w] to [w'] the summary writer has received [add_scalar] calls
    only, and none unless it is switched on. *)
Definition adds_scalars (args : Args) (w w' : World) : Prop :=
  ∃ calls, summary w' = summary w ++ calls
           ∧ Forall is_scalar calls
           ∧ (tensorboard args = false → calls = []).

(** The same arguments with [max_epoch] set to one. *)
Definition one_epoch (args : Args) : Args :=
  {| max_epoch := 1; eval_method := eval_method args; env := env args;
     vectors_path := vectors_path args;
     test_result_path := test_result_path args;
     model_path := model_path args |}.

(** The export can write: the handle of the vector file, and of the result
    file if there is one, is open, and both paths can be made to hold what
    is written. *)
Definition export_ready (vf : string) (fr : option string) (w : World) : Prop :=
  is_Some (find_handle vf (handles w)) ∧ can_hold w vf
  ∧ ∀ p, fr = Some p → is_Some (find_handle p (handles w)) ∧ can_hold w p.

(** ** Hyperparameter search

    [optuna] is a library the program calls.  The study is modelled by what
    its documentation says of [optimize]: the objective is run once per
    trial; a trial that raises [TrialPruned] is recorded as pruned and the
    study goes on; another exception either is recorded as a failure (if the
    study catches it) or ends [optimize]; the best value is the least value
    of the completed trials, and asking for it when none completed raises
    [ValueError].  Which exceptions the study catches differs between the
    versions of the library, and is a parameter here. *)

(** What one trial brings: its pruning oracle, the encode size drawn for it
    ([int(trial.suggest_loguniform('encode_size', 100, 300))]), and what the
    model built from the drawn values yields epoch by epoch. *)
Record TrialRun : Type := {
  run_trial : Trial;
  run_encode_size : Z;
  run_env : nat → EpochObs;
}.

Inductive TrialState : Set :=
  | Complete (value : pyfloat)
  | Pruned
  | Failed (e : exn).

(** [objective(trial)]: [return _train(model, optimizer, criterion, option,
    reader, builder, trial)]. *)
Definition objective (args : Args) (reader : Reader) (tr : TrialRun)
    (w : World) : Run * result pyfloat :=
  _train args reader (run_encode_size tr) (Some (run_trial tr)) (run_env tr) w.

(** [study.optimize(objective, n_trials=...)], one [TrialRun] per trial. *)
Fixpoint optimize (catches : exn → bool) (args : Args) (reader : Reader)
    (trials : list TrialRun) (w : World) : result (list TrialState) * World :=
  match trials with
  | [] => (Ok [], w)
  | tr :: rest =>
      let r := objective args reader tr w in
      let w' := final_world r.1 in
      let continue (s : TrialState) :=
        match optimize catches args reader rest w' with
        | (Ok states, w'') => (Ok (s :: states), w'')
        | (Raise e, w'') => (Raise e, w'')
        end in
      match r.2 with
      | Ok value => continue (Complete value)
      | Raise TrialPruned => continue Pruned
      | Raise e => if catches e then continue (Failed e) else (Raise e, w')
      end
  end.

(** [study.best_value]: the least value among the completed trials. *)
Fixpoint best_value (states : list TrialState) : option pyfloat :=
  match states with
  | [] => None
  | Complete value :: rest =>
      match best_value rest with
      | Some b => Some (if py_lt b value then b else value)
      | None => Some value
      end
  | _ :: rest => best_value rest
  end.

(** [find_optimal_hyperparams]: the value it logs as best, or the exception
    it ends with. *)
Definition find_optimal_hyperparams (catches : exn → bool) (args : Args)
    (reader : Reader) (trials : list TrialRun) (w : World)
    : result pyfloat * World :=
  match optimize catches args reader trials w with
  | (Raise e, w') => (Raise e, w')
  | (Ok states, w') =>
      match best_value states with
      | Some value => (Ok value, w')
      | None => (Raise ValueError, w')
      end
  end.

(** The passes of all the epochs of a trial end normally. *)
Definition trial_passes_ok (args : Args) (reader : Reader) (tr : TrialRun)
    : Prop :=
  ∀ k, (k < max_epoch args)%nat → passes_ok args reader (run_env tr k).

(** A trial whose pruner never says yes. *)
Definition never_pruned (tr : TrialRun) : Prop :=
  ∀ rs step, should_prune (run_trial tr) rs step = false.

(** ** Printing a sample *)

(** One example as [print_sample] sees it after the forward pass: the ids of
    its path contexts, its label, the predicted label, and its attention
    weights (already printed). *)
Record SampleRow : Set := {
  s_starts : list Z;
  s_paths : list Z;
  s_ends : list Z;
  s_label : Z;
  s_pred : Z;
  s_attn : list string;
}.

(** [[d[x] for x in l]] *)
Fixpoint lookup_all (d : gmap Z string) (l : list Z) : result (list string) :=
  match l with
  | [] => Ok []
  | x :: rest =>
      name ← getitem d x;
      names ← lookup_all d rest;
      Ok (name :: names)
  end.

Definition PAD : string := "<PAD/>".

(** ["{0} {1} {2} [{3}]".format(start, path, end, attention)] *)
Definition context_line (start path end_ attention : string) : string :=
  start +:+ " " +:+ path +:+ " " +:+ end_ +:+ " [" +:+ attention +:+ "]".

(** [for start, path, end, attention in zip(...): if start != "<PAD/>":
    logger.info(...)]: the lines logged. *)
Fixpoint context_lines (starts paths ends attns : list string) : list string :=
  match starts, paths, ends, attns with
  | start :: starts', path :: paths', end_ :: ends', attention :: attns' =>
      (if bool_decide (start ≠ PAD)
       then [context_line start path end_ attention] else [])
      ++ context_lines starts' paths' ends' attns'
  | _, _, _, _ => []
  end.

Definition expected_line (name : string) : string := "expected label: " +:+ name.
Definition actual_line (name : string) : string := "actual label:   " +:+ name.

(** The body of [if preds_label[i] == label[i]]: all names are looked up
    first, then the lines are logged. *)
Definition print_row (terminal_itos path_itos label_itos : gmap Z string)
    (r : SampleRow) : result (list string) :=
  start_names ← lookup_all terminal_itos (s_starts r);
  path_names ← lookup_all path_itos (s_paths r);
  end_names ← lookup_all terminal_itos (s_ends r);
  label_name ← getitem label_itos (s_label r);
  pred_label_name ← getitem label_itos (s_pred r);
  Ok (context_lines start_names path_names end_names (s_attn r)
      ++ [expected_line label_name; actual_line pred_label_name]).

(** [for i in range(len(starts))]: [Some] when the function is left from
    inside the loop. *)
Fixpoint print_rows (terminal_itos path_itos label_itos : gmap Z string)
    (rows : list SampleRow) : option (result (list string)) :=
  match rows with
  | [] => None
  | r :: rest =>
      if bool_decide (s_pred r = s_label r)
      then Some (print_row terminal_itos path_itos label_itos r)
      else print_rows terminal_itos path_itos label_itos rest
  end.

(** [print_sample]: the lines it logs, or the exception it ends with. *)
Fixpoint print_sample (terminal_itos path_itos label_itos : gmap Z string)
    (data_loader : list (result (list SampleRow))) : result (list string) :=
  match data_loader with
  | [] => Ok []
  | Raise e :: _ => Raise e
  | Ok rows :: rest =>
      match print_rows terminal_itos path_itos label_itos rows with
      | Some r => r
      | None => print_sample terminal_itos path_itos label_itos rest
      end
  end.

(** The path contexts of an example that are not padding, as lines. *)
Definition shown_contexts (starts paths ends attns : list string) : list string :=
  (λ c, context_line c.1 c.2.1 c.2.2.1 c.2.2.2)
    <$> filter (λ c, c.1 ≠ PAD) (zip starts (zip paths (zip ends attns))).

(** ** Proof steps *)

(** The facts that a lemma on a run states under its [let]s, as hypotheses. *)
Ltac run_facts H :=
  pose proof H as Hrun;
  cbv zeta in Hrun;
  destruct Hrun as (Hexit & Hstate & Hepochs & Hfiles & Hhandles & Hreports
                    & Hio & Hret).

(** * Properties *)

(** ** Sanity checks of the metric engine *)

Example subtoken_match_demo :
  subtoken_match [0; 0; 1] [0; 1; 1] demo_vocab
  = Ok (Num (5 # 7), Num (5 # 6), Num (5 # 6), Num (5 # 6)).
Proof. vm_compute. reflexivity. Qed.

Example exact_match_demo :
  exact_match [0; 0; 1] [0; 1; 1]
  = Ok (Num (2 # 3), Num 1, Num (1 # 2), Num (2 # 3)).
Proof. vm_compute. reflexivity. Qed.

Example averaged_demo :
  averaged_subtoken_match [0; 0; 1] [0; 1; 1] demo_vocab
  = Ok (Num (7 # 9), Num (5 # 6), Num (5 # 6), Num (5 # 6)).
Proof. vm_compute. reflexivity. Qed.

(** ** Arithmetic of the float model *)

Lemma Qlt_bool_iff (x y : Q) : Qlt_bool x y = true ↔ (x < y)%Q.
Proof. unfold Qlt_bool, Qlt. apply Z.ltb_lt. Qed.

Lemma Qlt_bool_false (x y : Q) : Qlt_bool x y = false ↔ (y <= x)%Q.
Proof. unfold Qlt_bool, Qle. apply Z.ltb_ge. Qed.

Lemma py_lt_irrefl (a : pyfloat) : py_lt a a = false.
Proof.
  destruct a as [x|]; [|done]. apply Qlt_bool_false, Qle_refl.
Qed.

Lemma py_lt_trans (a b c : pyfloat) :
  py_lt a b = true → py_lt b c = true → py_lt a c = true.
Proof.
  destruct a as [x|], b as [y|], c as [z|]; simpl; try done.
  rewrite !Qlt_bool_iff. apply Qlt_trans.
Qed.

Lemma py_lt_asym (a b : pyfloat) : py_lt a b = true → py_lt b a = false.
Proof.
  destruct a as [x|], b as [y|]; simpl; try done.
  rewrite Qlt_bool_iff, Qlt_bool_false. apply Qlt_le_weak.
Qed.

Lemma py_div_ok (a b : Q) :
  ¬ (b == 0)%Q → ∃ q, py_div a b = Ok q ∧ (q == a / b)%Q.
Proof.
  intros Hb. unfold py_div.
  destruct (Qeq_bool b 0) eqn:E.
  - apply Qeq_bool_iff in E. contradiction.
  - eexists. split; [done|]. apply Qred_correct.
Qed.

Lemma py_div_inv (a b q : Q) :
  py_div a b = Ok q → ¬ (b == 0)%Q ∧ (q == a / b)%Q.
Proof.
  unfold py_div. destruct (Qeq_bool b 0) eqn:E; [done|].
  intros [= <-]. split; [|apply Qred_correct].
  intros Hb. apply Qeq_bool_iff in Hb. congruence.
Qed.

(** The F1 tail always yields a value when the two scores are not negative. *)
Lemma f1_of_ok (prec rec : Q) :
  ∃ f1, f1_of prec rec = Ok f1
        ∧ ((0 < prec + rec)%Q → (f1 == 2 * prec * rec / (prec + rec))%Q)
        ∧ (¬ (0 < prec + rec)%Q → (f1 == 0)%Q).
Proof.
  unfold f1_of. destruct (Qlt_bool 0 (prec + rec)) eqn:E.
  - apply Qlt_bool_iff in E.
    destruct (py_div_ok (2 * prec * rec) (prec + rec)) as (q & -> & Hq).
    { intros H0. rewrite H0 in E. by apply Qlt_irrefl in E. }
    exists q. split; [done|]. split; [done|]. intros H; contradiction.
  - apply Qlt_bool_false in E. exists 0%Q. split; [done|]. split.
    + intros H. exfalso. apply (Qlt_not_le _ _ H E).
    + reflexivity.
Qed.

(** ** Corpus-level subtoken matching *)

Lemma len_cons {A} (x : A) (l : list A) : len (x :: l) = 1 + len l.
Proof. unfold len. simpl length. lia. Qed.

Lemma len_nonneg {A} (l : list A) : 0 <= len l.
Proof. unfold len. lia. Qed.

Lemma common_cons (s : string) (e a : list string) :
  Spec.common (s :: e) a
  = (if bool_decide (s ∈ a) then 1 else 0) + Spec.common e a.
Proof.
  unfold Spec.common. rewrite filter_cons.
  destruct (decide (s ∈ a)) as [Hin|Hin].
  - rewrite bool_decide_eq_true_2 by done. by rewrite len_cons.
  - rewrite bool_decide_eq_false_2 by done. lia.
Qed.

Lemma common_bounds (e a : list string) :
  0 <= Spec.common e a <= len e.
Proof.
  induction e as [|s e IH]; [by cbv|].
  rewrite common_cons, len_cons. destruct (bool_decide (s ∈ a)); lia.
Qed.

(** Without repeated expected subtokens the matches also fit in the
    predicted list. *)
Lemma common_le_predicted (e a : list string) :
  NoDup e → Spec.common e a <= len a.
Proof.
  intros Hnd. unfold Spec.common, len. apply inj_le.
  apply submseteq_length, NoDup_submseteq.
  - by apply NoDup_filter.
  - intros x Hx. by apply list_elem_of_filter in Hx as [? _].
Qed.

Lemma common_nil_r (e : list string) : Spec.common e [] = 0.
Proof.
  induction e as [|s e IH]; [done|].
  rewrite common_cons, IH. rewrite bool_decide_eq_false_2; [done|].
  apply not_elem_of_nil.
Qed.

Lemma inner_spec (e a : list string) (m : Q) :
  (SubtokenMatch.inner e a m == m + inject_Z (Spec.common e a))%Q.
Proof.
  revert m. induction e as [|s e IH]; intros m.
  - simpl. change (inject_Z (Spec.common [] a)) with 0%Q. lra.
  - simpl. rewrite IH, common_cons. unfold py_in.
    destruct (bool_decide (s ∈ a)); rewrite inject_Z_plus;
      [change (inject_Z 1) with 1%Q | change (inject_Z 0) with 0%Q]; lra.
Qed.

Lemma inner_int_spec (e a : list string) (m : Z) :
  AveragedSubtokenMatch.inner e a m = m + Spec.common e a.
Proof.
  revert m. induction e as [|s e IH]; intros m.
  - simpl. change (Spec.common [] a) with 0. lia.
  - simpl. rewrite IH, common_cons. unfold py_in.
    destruct (bool_decide (s ∈ a)); lia.
Qed.

Lemma Zsum_cons (x : Z) (l : list Z) : Spec.Zsum (x :: l) = x + Spec.Zsum l.
Proof. reflexivity. Qed.

Lemma subtokens_of_some (v : LabelVocab) (l : Z) (s : list string) :
  itosubtokens v !! l = Some s → Spec.subtokens_of v l = s.
Proof. unfold Spec.subtokens_of. by intros ->. Qed.

(** The loop, for a batch whose labels all have subtoken lists: it ends
    normally and its three counters are the three sums. *)
Lemma loop_spec (v : LabelVocab) (pairs : list (Z * Z)) (c : SubtokenMatch.counters) :
  Spec.known v pairs →
  ∃ c', SubtokenMatch.loop v pairs c = Ok c'
    ∧ (SubtokenMatch.subtokens_match c' ==
       SubtokenMatch.subtokens_match c
       + inject_Z (Spec.Zsum ((λ ea, Spec.common (Spec.subtokens_of v ea.1)
                                       (Spec.subtokens_of v ea.2)) <$> pairs)))%Q
    ∧ (SubtokenMatch.subtokens_expected_count c' ==
       SubtokenMatch.subtokens_expected_count c
       + inject_Z (Spec.Zsum ((λ ea, len (Spec.subtokens_of v ea.1)) <$> pairs)))%Q
    ∧ (SubtokenMatch.subtokens_actual_count c' ==
       SubtokenMatch.subtokens_actual_count c
       + inject_Z (Spec.Zsum ((λ ea, len (Spec.subtokens_of v ea.2)) <$> pairs)))%Q.
Proof.
  revert c. induction pairs as [|[e a] pairs IH]; intros c Hk.
  - exists c. simpl. change (inject_Z 0) with 0%Q. repeat split; try done; lra.
  - apply Forall_cons in Hk as [[[es Hes] [as_ Has]] Hk]. simpl in Hes, Has.
    cbn [SubtokenMatch.loop]. unfold SubtokenMatch.body, getitem.
    rewrite Hes, Has. cbn [mbind result_bind].
    edestruct IH as (c' & -> & Hm & He & Ha); [done|].
    exists c'. split; [done|]. cbn [SubtokenMatch.subtokens_match
      SubtokenMatch.subtokens_expected_count
      SubtokenMatch.subtokens_actual_count] in Hm, He, Ha.
    rewrite !fmap_cons, !Zsum_cons. cbn [fst snd].
    rewrite !(subtokens_of_some _ _ _ Hes), !(subtokens_of_some _ _ _ Has).
    rewrite !inject_Z_plus.
    rewrite Hm, He, Ha, inner_spec. unfold float_of_Z.
    repeat split; lra.
Qed.

Lemma totals_bounds (v : LabelVocab) (pairs : list (Z * Z)) :
  0 <= Spec.Zsum ((λ ea, Spec.common (Spec.subtokens_of v ea.1)
                           (Spec.subtokens_of v ea.2)) <$> pairs)
    <= Spec.Zsum ((λ ea, len (Spec.subtokens_of v ea.1)) <$> pairs)
  ∧ 0 <= Spec.Zsum ((λ ea, len (Spec.subtokens_of v ea.2)) <$> pairs).
Proof.
  induction pairs as [|[e a] pairs IH]; [by cbv|].
  rewrite !fmap_cons, !Zsum_cons. cbn [fst snd].
  pose proof (common_bounds (Spec.subtokens_of v e) (Spec.subtokens_of v a)).
  pose proof (len_nonneg (Spec.subtokens_of v a)). lia.
Qed.

Lemma totals_nodup (v : LabelVocab) (pairs : list (Z * Z)) :
  Spec.expected_nodup v pairs →
  Spec.Zsum ((λ ea, Spec.common (Spec.subtokens_of v ea.1)
                      (Spec.subtokens_of v ea.2)) <$> pairs)
  <= Spec.Zsum ((λ ea, len (Spec.subtokens_of v ea.2)) <$> pairs).
Proof.
  induction 1 as [|[e a] pairs Hnd _ IH]; [by cbv|].
  rewrite !fmap_cons, !Zsum_cons. cbn [fst snd] in *.
  pose proof (common_le_predicted _ (Spec.subtokens_of v a) Hnd). lia.
Qed.

Lemma inject_Z_nonzero (n : Z) : n ≠ 0 → ¬ (inject_Z n == 0)%Q.
Proof.
  intros Hn H. apply Hn. unfold Qeq in H. simpl in H. lia.
Qed.

(** The four divisions, for counters that hold the integers [M], [E], [P]. *)
Lemma finish_spec (c : SubtokenMatch.counters) (M E P : Z) :
  (SubtokenMatch.subtokens_match c == inject_Z M)%Q →
  (SubtokenMatch.subtokens_expected_count c == inject_Z E)%Q →
  (SubtokenMatch.subtokens_actual_count c == inject_Z P)%Q →
  M <= E → E ≠ 0 → 0 < P →
  ∃ accuracy precision recall f1,
    SubtokenMatch.finish c
    = Ok (Num accuracy, Num precision, Num recall, Num f1)
    ∧ (accuracy == inject_Z M / (inject_Z E + inject_Z P - inject_Z M))%Q
    ∧ (precision == inject_Z M / inject_Z P)%Q
    ∧ (recall == inject_Z M / inject_Z E)%Q
    ∧ ((0 < precision + recall)%Q →
       (f1 == 2 * precision * recall / (precision + recall))%Q)
    ∧ (¬ (0 < precision + recall)%Q → (f1 == 0)%Q).
Proof.
  intros Hm He Hp HME HE HP. unfold SubtokenMatch.finish.
  destruct (py_div_ok (SubtokenMatch.subtokens_match c)
              (SubtokenMatch.subtokens_expected_count c
               + SubtokenMatch.subtokens_actual_count c
               - SubtokenMatch.subtokens_match c)) as (acc & -> & Hacc).
  { rewrite Hm, He, Hp.
    assert (H : (inject_Z E + inject_Z P - inject_Z M == inject_Z (E + P - M))%Q).
    { unfold Z.sub. rewrite !inject_Z_plus, inject_Z_opp. lra. }
    rewrite H. apply inject_Z_nonzero. lia. }
  destruct (py_div_ok (SubtokenMatch.subtokens_match c)
              (SubtokenMatch.subtokens_actual_count c)) as (prec & -> & Hprec).
  { rewrite Hp. apply inject_Z_nonzero. lia. }
  destruct (py_div_ok (SubtokenMatch.subtokens_match c)
              (SubtokenMatch.subtokens_expected_count c)) as (rec & -> & Hrec).
  { rewrite He. by apply inject_Z_nonzero. }
  cbn [mbind result_bind].
  destruct (f1_of_ok prec rec) as (f1 & -> & Hf1 & Hf0).
  exists acc, prec, rec, f1. split; [done|].
  rewrite Hm, He, Hp in Hacc. rewrite Hm, Hp in Hprec. rewrite Hm, He in Hrec.
  done.
Qed.

(** C3. Corpus-level subtoken matching: for a batch of equal-length label
    sequences whose labels all have subtoken lists and whose expected and
    predicted totals are not zero, [subtoken_match] returns the four
    scores of the specification, computed from the number of expected
    subtokens that are members of the predicted list; on the scenario
    [A A B] against [A B B] it returns 5/7, 5/6, 5/6 and 5/6. *)
Theorem subtoken_match_formulas :
  (∀ (v : LabelVocab) (expected predicted : list Z),
     length expected = length predicted →
     Spec.known v (zip expected predicted) →
     Spec.expected_total v expected predicted ≠ 0 →
     Spec.predicted_total v expected predicted ≠ 0 →
     ∃ accuracy precision recall f1,
       subtoken_match expected predicted v
       = Ok (Num accuracy, Num precision, Num recall, Num f1)
       ∧ (accuracy ==
          inject_Z (Spec.matches v expected predicted)
          / (inject_Z (Spec.expected_total v expected predicted)
             + inject_Z (Spec.predicted_total v expected predicted)
             - inject_Z (Spec.matches v expected predicted)))%Q
       ∧ (precision ==
          inject_Z (Spec.matches v expected predicted)
          / inject_Z (Spec.predicted_total v expected predicted))%Q
       ∧ (recall ==
          inject_Z (Spec.matches v expected predicted)
          / inject_Z (Spec.expected_total v expected predicted))%Q
       ∧ ((0 < precision + recall)%Q →
          (f1 == 2 * precision * recall / (precision + recall))%Q)
       ∧ (¬ (0 < precision + recall)%Q → (f1 == 0)%Q))
  ∧ subtoken_match [0; 0; 1] [0; 1; 1] demo_vocab
    = Ok (Num (5 # 7), Num (5 # 6), Num (5 # 6), Num (5 # 6)).
Proof.
  split; [|by vm_compute].
  intros v expected predicted _ Hk HE HP. unfold subtoken_match.
  destruct (loop_spec v (zip expected predicted) SubtokenMatch.init Hk)
    as (c & -> & Hm & He & Hp).
  cbn [mbind result_bind]. cbn [SubtokenMatch.init SubtokenMatch.subtokens_match
    SubtokenMatch.subtokens_expected_count SubtokenMatch.subtokens_actual_count]
    in Hm, He, Hp.
  rewrite Qplus_0_l in Hm, He, Hp.
  destruct (totals_bounds v (zip expected predicted)) as [[_ HME] HP0].
  apply (finish_spec c _ _ _ Hm He Hp); [done|done|].
  unfold Spec.predicted_total in HP. lia.
Qed.

Lemma subtoken_match_formulas_witness :
  ∃ accuracy precision recall f1,
    subtoken_match [0; 1] [1; 1] demo_vocab
    = Ok (Num accuracy, Num precision, Num recall, Num f1)
    ∧ (precision == inject_Z (Spec.matches demo_vocab [0; 1]%Z [1; 1]%Z)
                    / inject_Z (Spec.predicted_total demo_vocab [0; 1]%Z [1; 1]%Z))%Q.
Proof.
  destruct (proj1 subtoken_match_formulas demo_vocab [0; 1] [1; 1])
    as (acc & prec & rec & f1 & Heq & _ & Hprec & _).
  - reflexivity.
  - repeat constructor; by eexists.
  - by vm_compute.
  - by vm_compute.
  - by exists acc, prec, rec, f1.
Defined.

Lemma finish_inv (c : SubtokenMatch.counters) (accuracy precision recall f1 : Q) :
  SubtokenMatch.finish c = Ok (Num accuracy, Num precision, Num recall, Num f1) →
  ¬ (SubtokenMatch.subtokens_actual_count c == 0)%Q
  ∧ ¬ (SubtokenMatch.subtokens_expected_count c == 0)%Q
  ∧ (precision == SubtokenMatch.subtokens_match c
                  / SubtokenMatch.subtokens_actual_count c)%Q
  ∧ (recall == SubtokenMatch.subtokens_match c
               / SubtokenMatch.subtokens_expected_count c)%Q
  ∧ f1_of precision recall = Ok f1.
Proof.
  unfold SubtokenMatch.finish.
  destruct (py_div _ (_ + _ - _)) as [acc|] eqn:Ea; [|done].
  destruct (py_div _ (SubtokenMatch.subtokens_actual_count c)) as [p|] eqn:Ep;
    [|done].
  destruct (py_div _ (SubtokenMatch.subtokens_expected_count c)) as [r|] eqn:Er;
    [|done].
  cbn [mbind result_bind].
  destruct (f1_of p r) as [f|] eqn:Ef; [|done].
  intros [= -> -> -> ->].
  apply py_div_inv in Ep as [? ?], Er as [? ?]. done.
Qed.

(** F1 of two scores in [0,1] is in [0,1]. *)
Lemma f1_of_unit (prec rec f1 : Q) :
  (0 <= prec <= 1)%Q → (0 <= rec <= 1)%Q → f1_of prec rec = Ok f1 →
  (0 <= f1 <= 1)%Q.
Proof.
  intros Hp Hr Hf. destruct (f1_of_ok prec rec) as (f & Hf' & Hpos & Hzero).
  rewrite Hf in Hf'. injection Hf' as <-.
  destruct (Qlt_le_dec 0 (prec + rec)) as [Hlt|Hle].
  - rewrite (Hpos Hlt). split.
    + apply Qle_shift_div_l; [done|]. nra.
    + apply Qle_shift_div_r; [done|]. nra.
  - rewrite Hzero; [lra|]. intros H. apply (Qlt_not_le _ _ H Hle).
Qed.

Lemma div_unit (m d q : Q) :
  (0 <= m <= d)%Q → ¬ (d == 0)%Q → (q == m / d)%Q → (0 <= q <= 1)%Q.
Proof.
  intros Hm Hd ->. assert (0 < d)%Q.
  { destruct (Qlt_le_dec 0 d) as [|Hle]; [done|].
    exfalso. apply Hd. lra. }
  split.
  - apply Qle_shift_div_l; [done|]. lra.
  - apply Qle_shift_div_r; [done|]. lra.
Qed.

(** C6, as the code has it. For every batch whose labels have subtoken
    lists the loop ends with [0 <= matches <= expected_total]; when no
    expected label repeats a subtoken, [matches <= predicted_total] as
    well, and every F1 that [subtoken_match] returns with
    [precision + recall > 0] lies in [0,1]. *)
Theorem subtoken_match_bounds (v : LabelVocab) (expected predicted : list Z) :
  Spec.known v (zip expected predicted) →
  ∃ c, SubtokenMatch.loop v (zip expected predicted) SubtokenMatch.init = Ok c
    ∧ (0 <= SubtokenMatch.subtokens_match c
       <= SubtokenMatch.subtokens_expected_count c)%Q
    ∧ (Spec.expected_nodup v (zip expected predicted) →
       (SubtokenMatch.subtokens_match c
        <= SubtokenMatch.subtokens_actual_count c)%Q
       ∧ ∀ accuracy precision recall f1,
           subtoken_match expected predicted v
           = Ok (Num accuracy, Num precision, Num recall, Num f1) →
           (0 < precision + recall)%Q → (0 <= f1 <= 1)%Q).
Proof.
  intros Hk.
  destruct (loop_spec v (zip expected predicted) SubtokenMatch.init Hk)
    as (c & Hloop & Hm & He & Hp).
  cbn [SubtokenMatch.init SubtokenMatch.subtokens_match
    SubtokenMatch.subtokens_expected_count SubtokenMatch.subtokens_actual_count]
    in Hm, He, Hp.
  rewrite Qplus_0_l in Hm, He, Hp.
  destruct (totals_bounds v (zip expected predicted)) as [[HM0 HME] HP0].
  rewrite Zle_Qle in HM0, HME, HP0. change (inject_Z 0) with 0%Q in HM0, HP0.
  exists c. split; [done|]. split.
  { by rewrite Hm, He. }
  intros Hnd. pose proof (totals_nodup v _ Hnd) as HMP. rewrite Zle_Qle in HMP.
  split.
  { by rewrite Hm, Hp. }
  intros acc prec rec f1 Hsm _. unfold subtoken_match in Hsm.
  rewrite Hloop in Hsm. cbn [mbind result_bind] in Hsm.
  apply finish_inv in Hsm as (Hp0 & He0 & Hprec & Hrec & Hf1).
  apply (f1_of_unit prec rec); [..|done].
  - eapply div_unit; [|exact Hp0|exact Hprec]. by rewrite Hm, Hp.
  - eapply div_unit; [|exact He0|exact Hrec]. by rewrite Hm, He.
Qed.

Lemma subtoken_match_bounds_witness :
  ∃ c, SubtokenMatch.loop demo_vocab (zip [0; 0; 1] [0; 1; 1]) SubtokenMatch.init
       = Ok c
    ∧ (0 <= SubtokenMatch.subtokens_match c
       <= SubtokenMatch.subtokens_expected_count c)%Q.
Proof.
  destruct (subtoken_match_bounds demo_vocab [0; 0; 1] [0; 1; 1])
    as (c & Hloop & Hme & _).
  - repeat constructor; by eexists.
  - by exists c.
Defined.

(** C6 as stated fails: with an expected label whose list repeats a
    subtoken, the matches exceed the predicted total and F1 exceeds 1. *)
Lemma subtoken_match_bounds_counterexample :
  ∃ c f1,
    SubtokenMatch.loop dup_vocab (zip [0] [1]) SubtokenMatch.init = Ok c
    ∧ subtoken_match [0] [1] dup_vocab = Ok (Num 2, Num 2, Num 1, Num f1)
    ∧ (0 < 2 + 1)%Q
    ∧ ¬ (SubtokenMatch.subtokens_match c
         <= SubtokenMatch.subtokens_actual_count c)%Q
    ∧ ¬ (0 <= f1 <= 1)%Q.
Proof.
  eexists _, (4 # 3). split; [by vm_compute|]. split; [by vm_compute|].
  split; [done|]. split.
  - vm_compute. intros H. by apply H.
  - intros [_ H]. vm_compute in H. by apply H.
Qed.

(** ** Exact match *)

Lemma unique_labels_cons (y_true y_pred : list Z) :
  y_true ≠ [] → ∃ c cs, Sklearn.unique_labels y_true y_pred = c :: cs.
Proof.
  intros Hne. unfold Sklearn.unique_labels.
  destruct (merge_sort Z.le (remove_dups (y_true ++ y_pred))) as [|c cs] eqn:E;
    [|by eauto].
  exfalso. pose proof (merge_sort_Permutation Z.le (remove_dups (y_true ++ y_pred))) as HP.
  rewrite E in HP. apply Permutation_nil_l in HP.
  destruct y_true as [|x y_true]; [done|].
  assert (Hx : x ∈ remove_dups ((x :: y_true) ++ y_pred)).
  { apply elem_of_remove_dups. set_solver. }
  rewrite <- HP in Hx. by apply not_elem_of_nil in Hx.
Qed.

Lemma per_class_first (score : Z → pyfloat) (y_true y_pred : list Z) :
  length y_true = length y_pred → y_true ≠ [] →
  ∃ x, Sklearn.per_class score y_true y_pred ≫= first = Ok x.
Proof.
  intros Hlen Hne. unfold Sklearn.per_class, Sklearn.check_consistent_length.
  rewrite bool_decide_eq_true_2 by done. cbn [mbind result_bind].
  destruct (unique_labels_cons y_true y_pred Hne) as (c & cs & ->).
  by eexists.
Qed.

Lemma np_average_cons (l : list Q) :
  l ≠ [] → np_average l = Num (Qred (Qsum l / float_of_Z (len l))).
Proof. by destruct l. Qed.

(** The mean of the 0/1 indicators is the number of agreements. *)
Lemma indicator_sum (pairs : list (Z * Z)) :
  (Qsum ((λ tp, if bool_decide (tp.1 = tp.2) then 1%Q else 0%Q) <$> pairs)
   == inject_Z (len (filter (λ ea, ea.1 = ea.2) pairs)))%Q.
Proof.
  induction pairs as [|[t p] pairs IH]; [reflexivity|].
  rewrite fmap_cons, filter_cons. cbn [Qsum foldr] in *. cbn [fst snd].
  destruct (decide (t = p)) as [Heq|Hne].
  - rewrite bool_decide_eq_true_2 by done.
    rewrite len_cons, inject_Z_plus, IH. change (inject_Z 1) with 1%Q. lra.
  - rewrite bool_decide_eq_false_2 by done. rewrite IH. lra.
Qed.

Lemma agree_bounds (expected predicted : list Z) :
  length expected = length predicted →
  0 <= Spec.agree expected predicted <= len expected.
Proof.
  intros Hlen. unfold Spec.agree, len. split; [lia|]. apply inj_le.
  etrans; [apply length_filter|]. rewrite length_zip. lia.
Qed.

(** C8. Exact match: for equal-length, non-empty label sequences
    [exact_match] returns, and its accuracy is the number of positions where
    expected and predicted agree divided by the length, a number in [0,1];
    [A A B] against [A B B] gives 2/3. *)
Theorem exact_match_accuracy :
  (∀ expected predicted : list Z,
     length expected = length predicted → expected ≠ [] →
     ∃ accuracy precision recall f1,
       exact_match expected predicted = Ok (Num accuracy, precision, recall, f1)
       ∧ (accuracy == inject_Z (Spec.agree expected predicted)
                      / inject_Z (len expected))%Q
       ∧ (0 <= accuracy <= 1)%Q)
  ∧ exact_match [0; 0; 1] [0; 1; 1]
    = Ok (Num (2 # 3), Num 1, Num (1 # 2), Num (2 # 3)).
Proof.
  split; [|by vm_compute].
  intros expected predicted Hlen Hne. unfold exact_match.
  unfold Sklearn.precision_score, Sklearn.recall_score, Sklearn.f1_score.
  destruct (per_class_first
    (λ c, Sklearn.ratio_or_zero (Sklearn.tp c expected predicted)
            (Sklearn.pred_sum c expected predicted)) _ _ Hlen Hne) as [p ->].
  destruct (per_class_first
    (λ c, Sklearn.ratio_or_zero (Sklearn.tp c expected predicted)
            (Sklearn.true_sum c expected predicted)) _ _ Hlen Hne) as [r ->].
  destruct (per_class_first
    (λ c, Sklearn.ratio_or_zero (2 * Sklearn.tp c expected predicted)
            (Sklearn.true_sum c expected predicted
             + Sklearn.pred_sum c expected predicted)) _ _ Hlen Hne) as [f ->].
  cbn [mbind result_bind].
  unfold Sklearn.accuracy_score, Sklearn.check_consistent_length.
  rewrite bool_decide_eq_true_2 by done. cbn [mbind result_bind].
  destruct expected as [|e expected]; [done|].
  destruct predicted as [|a predicted]; [done|].
  set (pairs := zip (e :: expected) (a :: predicted)).
  rewrite np_average_cons by done.
  eexists _, p, r, f. split; [done|].
  assert (Hacc : (Qred (Qsum ((λ tp, if bool_decide (tp.1 = tp.2) then 1%Q else 0%Q)
                                <$> pairs)
                        / float_of_Z (len ((λ tp, if bool_decide (tp.1 = tp.2)
                                                  then 1%Q else 0%Q) <$> pairs)))
                  == inject_Z (Spec.agree (e :: expected) (a :: predicted))
                     / inject_Z (len (e :: expected)))%Q).
  { rewrite Qred_correct, indicator_sum. unfold float_of_Z, len at 2.
    rewrite length_fmap. unfold pairs. rewrite length_zip.
    rewrite <- Hlen, Nat.min_id. reflexivity. }
  split; [exact Hacc|].
  eapply div_unit; [| |exact Hacc].
  - pose proof (agree_bounds _ _ Hlen) as [H0 H1].
    rewrite Zle_Qle in H0, H1. by change (inject_Z 0) with 0%Q in H0.
  - apply inject_Z_nonzero. rewrite len_cons. pose proof (len_nonneg expected). lia.
Qed.

Lemma exact_match_accuracy_witness :
  ∃ accuracy precision recall f1,
    exact_match [3; 5] [5; 5] = Ok (Num accuracy, precision, recall, f1)
    ∧ (0 <= accuracy <= 1)%Q.
Proof.
  destruct (proj1 exact_match_accuracy [3; 5] [5; 5])
    as (acc & p & r & f & Heq & _ & Hb); [reflexivity|done|].
  by exists acc, p, r, f.
Defined.

(** ** Averaged subtoken matching *)

Lemma float_len_nonzero {A} (l : list A) (n : Z) :
  l ≠ [] → 0 <= n → ¬ (float_of_Z (len l + n) == 0)%Q.
Proof.
  intros Hl Hn. apply inject_Z_nonzero. destruct l; [done|].
  rewrite len_cons. pose proof (len_nonneg l). lia.
Qed.

Lemma example_scores_ok (e a : list string) :
  e ≠ [] → a ≠ [] → ∃ s, AveragedSubtokenMatch.example_scores e a = Ok s.
Proof.
  intros He Ha. unfold AveragedSubtokenMatch.example_scores.
  rewrite inner_int_spec, Z.add_0_l.
  pose proof (common_bounds e a) as [Hc0 Hc1].
  destruct (py_div_ok (float_of_Z (Spec.common e a))
              (float_of_Z (len e + len a - Spec.common e a))) as (acc & -> & _).
  { replace (len e + len a - Spec.common e a)
      with (len a + (len e - Spec.common e a)) by lia.
    apply float_len_nonzero; [done|lia]. }
  destruct (py_div_ok (float_of_Z (Spec.common e a)) (float_of_Z (len e)))
    as (rec & -> & _).
  { rewrite <- (Z.add_0_r (len e)). by apply float_len_nonzero. }
  destruct (py_div_ok (float_of_Z (Spec.common e a)) (float_of_Z (len a)))
    as (prec & -> & _).
  { rewrite <- (Z.add_0_r (len a)). by apply float_len_nonzero. }
  cbn [mbind result_bind].
  destruct (f1_of_ok prec rec) as (f1 & -> & _). by eexists.
Qed.

Lemma example_scores_empty (e a : list string) :
  e = [] ∨ a = [] →
  AveragedSubtokenMatch.example_scores e a = Raise ZeroDivisionError.
Proof.
  unfold AveragedSubtokenMatch.example_scores.
  rewrite inner_int_spec, Z.add_0_l. intros [-> | ->].
  - change (Spec.common [] a) with 0. destruct a as [|s a]; [reflexivity|].
    destruct (py_div_ok (float_of_Z 0) (float_of_Z (len (@nil string) + len (s :: a) - 0)))
      as (acc & -> & _); [|reflexivity].
    replace (len (@nil string) + len (s :: a) - 0) with (len (s :: a) + 0) by (cbv [len]; simpl; lia).
    by apply float_len_nonzero.
  - rewrite common_nil_r. destruct e as [|s e]; [reflexivity|].
    destruct (py_div_ok (float_of_Z 0) (float_of_Z (len (s :: e) + len (@nil string) - 0)))
      as (acc & -> & _).
    { replace (len (s :: e) + len (@nil string) - 0) with (len (s :: e) + 0)
        by (cbv [len]; simpl; lia).
      by apply float_len_nonzero. }
    destruct (py_div_ok (float_of_Z 0) (float_of_Z (len (s :: e))))
      as (rec & -> & _); [|reflexivity].
    rewrite <- (Z.add_0_r (len (s :: e))). by apply float_len_nonzero.
Qed.

Lemma averaged_loop_raises (v : LabelVocab) (pairs : list (Z * Z))
    (c : AveragedSubtokenMatch.columns) :
  Spec.known v pairs → Spec.has_empty_example v pairs →
  AveragedSubtokenMatch.loop v pairs c = Raise ZeroDivisionError.
Proof.
  intros Hk Hex. revert c Hk.
  induction pairs as [|[e a] pairs IH]; intros c Hk.
  { by apply Exists_nil in Hex. }
  apply Forall_cons in Hk as [[[es Hes] [as_ Has]] Hk]. simpl in Hes, Has.
  cbn [AveragedSubtokenMatch.loop]. unfold AveragedSubtokenMatch.body, getitem.
  rewrite Hes, Has. cbn [mbind result_bind].
  destruct (decide (es = [] ∨ as_ = [])) as [Hempty|Hfull].
  - by rewrite (example_scores_empty _ _ Hempty).
  - destruct (example_scores_ok es as_) as ([[[acc prec] rec] f1] & ->);
      [tauto..|].
    cbn [mbind result_bind]. apply IH; [|done].
    apply Exists_cons in Hex as [Hhead|Htail]; [|done].
    cbn [fst snd] in Hhead.
    by rewrite (subtokens_of_some _ _ _ Hes), (subtokens_of_some _ _ _ Has) in Hhead.
Qed.

(** C7, as the code has it. An example whose expected or predicted subtoken
    list is empty is neither scored as zero nor left out: the division
    raises [ZeroDivisionError], so [averaged_subtoken_match] returns no
    value for that batch, and an epoch whose dev pass is that batch aborts
    before the training state is touched. *)
Theorem averaged_empty_example_raises (v : LabelVocab)
    (expected actual : list Z) :
  Spec.known v (zip expected actual) →
  Spec.has_empty_example v (zip expected actual) →
  averaged_subtoken_match expected actual v = Raise ZeroDivisionError
  ∧ ∀ disallow_write args reader encode_size trial f1 epoch obs st w
      train_loss loss,
      eval_method args = ave_subtoken →
      label_vocab reader = v →
      train_pass obs = Ok train_loss →
      dev_pass obs = Ok {| pass_loss := loss; pass_expected := expected;
                           pass_actual := actual |} →
      epoch_body disallow_write args reader encode_size trial f1 epoch obs st w
      = (Abort ZeroDivisionError, st, w).
Proof.
  intros Hk Hex.
  assert (Have : averaged_subtoken_match expected actual v
                 = Raise ZeroDivisionError).
  { unfold averaged_subtoken_match. by rewrite averaged_loop_raises. }
  split; [done|].
  intros dw args reader es trial f1 epoch obs st w tl loss Hem Hv Htp Hdp.
  unfold epoch_body, test. rewrite Htp, Hdp, Hem, Hv. cbn [mbind result_bind].
  cbn [pass_expected pass_actual]. by rewrite Have.
Qed.

Lemma averaged_empty_example_raises_witness :
  averaged_subtoken_match [0; 2] [0; 0] degenerate_vocab
  = Raise ZeroDivisionError.
Proof.
  apply (averaged_empty_example_raises degenerate_vocab [0; 2] [0; 0]).
  - repeat constructor; by eexists.
  - apply Exists_cons_tl, Exists_cons_hd. by left.
Defined.

(** C7 as stated fails: the example with an empty expected list gets no
    score and is not skipped either; no result is returned. *)
Lemma averaged_empty_example_counterexample :
  Spec.subtokens_of degenerate_vocab 2 = []
  ∧ averaged_subtoken_match [2; 0] [0; 0] degenerate_vocab
    = Raise ZeroDivisionError
  ∧ ¬ ∃ m, averaged_subtoken_match [2; 0] [0; 0] degenerate_vocab = Ok m.
Proof.
  split; [by vm_compute|]. split; [by vm_compute|].
  intros [m Hm]. by vm_compute in Hm.
Qed.

(** ** The summary writer touches nothing else *)

Lemma writer_call_frame (args : Args) (call : TbEvent) (w : World) :
  files (writer_call args call w) = files w
  ∧ handles (writer_call args call w) = handles w
  ∧ reports (writer_call args call w) = reports w
  ∧ io (writer_call args call w) = io w.
Proof. unfold writer_call. by destruct (tensorboard args). Qed.

Lemma log_metrics_frame (args : Args) (epoch : nat)
    (tl sl da dp dr df : pyfloat) (w : World) :
  files (log_metrics args epoch tl sl da dp dr df w) = files w
  ∧ handles (log_metrics args epoch tl sl da dp dr df w) = handles w
  ∧ reports (log_metrics args epoch tl sl da dp dr df w) = reports w
  ∧ io (log_metrics args epoch tl sl da dp dr df w) = io w.
Proof. unfold log_metrics. by destruct (tensorboard args). Qed.

Lemma epoch_logged_frame (args : Args) (reader : Reader) (epoch : nat)
    (obs : EpochObs) (w : World) :
  files (epoch_logged args reader epoch obs w) = files w
  ∧ handles (epoch_logged args reader epoch obs w) = handles w
  ∧ reports (epoch_logged args reader epoch obs w) = reports w
  ∧ io (epoch_logged args reader epoch obs w) = io w.
Proof.
  unfold epoch_logged. destruct (train_pass obs); [|done].
  destruct (test _ _ (dev_pass obs)) as [[? [[[? ?] ?] ?]]|]; [|done].
  destruct (test _ _ (test_pass obs)) as [[? ?]|]; [|done].
  apply log_metrics_frame.
Qed.

Lemma best_logged_frame (args : Args) (f1 : pyfloat) (epoch : nat)
    (st : TrainState) (w : World) :
  files (best_logged args f1 epoch st w) = files w
  ∧ handles (best_logged args f1 epoch st w) = handles w
  ∧ reports (best_logged args f1 epoch st w) = reports w
  ∧ io (best_logged args f1 epoch st w) = io w.
Proof.
  unfold best_logged. destruct (improved f1 st); [|done].
  apply writer_call_frame.
Qed.

(** ** The epoch body with writing disallowed *)

Lemma checkpoint_rule_locked (args : Args) (reader : Reader) (encode_size : Z)
    (trial : option Trial) (f1 : pyfloat) (epoch : nat) (obs : EpochObs)
    (st : TrainState) (w : World) :
  checkpoint_rule true args reader encode_size trial f1 epoch obs st w
  = (Ok (), after_checkpoint f1 st, best_logged args f1 epoch st w).
Proof.
  unfold checkpoint_rule, after_checkpoint, best_logged.
  rewrite andb_false_r. by destruct (improved f1 st).
Qed.

Lemma epoch_body_locked (args : Args) (reader : Reader) (encode_size : Z)
    (trial : option Trial) (f1 : pyfloat) (epoch : nat) (obs : EpochObs)
    (st : TrainState) (w : World) :
  EpochEnd args reader trial f1 epoch obs st w
    (epoch_body true args reader encode_size trial f1 epoch obs st w).
Proof.
  unfold epoch_body.
  destruct (train_pass obs) as [train_loss|e] eqn:Et;
    [|apply end_failed; by left].
  destruct (test _ _ (dev_pass obs))
    as [[dev_loss [[[dev_accuracy dev_precision] dev_recall] dev_f1]]|e] eqn:Ed;
    [|apply end_failed; right; by left].
  destruct (test _ _ (test_pass obs)) as [[test_loss [[[? ?] ?] ?]]|e] eqn:Ee;
    [|apply end_failed; right; by right].
  assert (Hlog : epoch_logged args reader epoch obs w
                 = log_metrics args epoch train_loss test_loss dev_accuracy
                     dev_precision dev_recall dev_f1 w).
  { unfold epoch_logged. by rewrite Et, Ed, Ee. }
  rewrite <- Hlog.
  destruct (report_step trial f1 epoch _) as [[] w1] eqn:Er.
  - by apply end_pruned.
  - rewrite checkpoint_rule_locked.
    destruct (10 <? _) eqn:Eb.
    + pose proof (end_completed args reader trial f1 epoch obs st w
                    _ _ _ _ _ _ w1 Et Ed Er) as H.
      cbv zeta in H. by rewrite Eb in H.
    + pose proof (end_completed args reader trial f1 epoch obs st w
                    _ _ _ _ _ _ w1 Et Ed Er) as H.
      cbv zeta in H. by rewrite Eb in H.
Qed.

(** [report_step] only appends to the reports. *)
Lemma report_step_world (trial : option Trial) (f1 : pyfloat) (epoch : nat)
    (w : World) (b : bool) (w1 : World) :
  report_step trial f1 epoch w = (b, w1) →
  files w1 = files w ∧ handles w1 = handles w
  ∧ ((trial = None ∧ b = false ∧ w1 = w)
     ∨ (∃ t, trial = Some t
          ∧ reports w1 = reports w ++ [(py_sub (Num 1) f1, epoch)]
          ∧ b = should_prune t (reports w1) epoch)).
Proof.
  unfold report_step. destruct trial as [t|]; intros [= <- <-].
  - repeat split. right. by exists t.
  - repeat split. by left.
Qed.

Lemma report_step_frame (trial : option Trial) (f1 : pyfloat) (epoch : nat)
    (w : World) :
  io (report_step trial f1 epoch w).2 = io w
  ∧ summary (report_step trial f1 epoch w).2 = summary w.
Proof. unfold report_step. by destruct trial. Qed.

(** ** Nothing is written while [DISALLOW_WRITE] holds *)

Lemma epoch_body_frame (args : Args) (reader : Reader) (encode_size : Z)
    (trial : option Trial) (f1 : pyfloat) (epoch : nat) (obs : EpochObs)
    (st : TrainState) (w : World) :
  let w' := (epoch_body true args reader encode_size trial f1 epoch obs st w).2 in
  files w' = files w ∧ handles w' = handles w ∧ io w' = io w.
Proof.
  pose proof (epoch_body_locked args reader encode_size trial f1 epoch obs st w)
    as H.
  destruct (epoch_body _ _ _ _ _ _ _ _ _ _) as [[sig st'] w'].
  destruct (epoch_logged_frame args reader epoch obs w) as (Hf & Hh & _ & Hi).
  cbn [snd]. inversion H as [e _|w1 Hr|tl dl da dp dr df w1 _ _ Hr]; subst.
  - done.
  - pose proof (report_step_frame trial f1 epoch
                  (epoch_logged args reader epoch obs w)) as [Hi' _].
    rewrite Hr in Hi'. cbn [snd] in Hi'.
    apply report_step_world in Hr as (? & ? & _). split; [|split]; congruence.
  - pose proof (report_step_frame trial f1 epoch
                  (epoch_logged args reader epoch obs w)) as [Hi' _].
    rewrite Hr in Hi'. cbn [snd] in Hi'.
    apply report_step_world in Hr as (? & ? & _).
    destruct (best_logged_frame args f1 epoch st w1) as (? & ? & _ & ?).
    split; [|split]; congruence.
Qed.

Lemma epoch_loop_frame (args : Args) (reader : Reader) (encode_size : Z)
    (trial : option Trial) (f1 : pyfloat) (env : nat → EpochObs)
    (remaining epoch : nat) (st : TrainState) (w : World) :
  let run := epoch_loop true args reader encode_size trial f1 env
               remaining epoch st w in
  files (final_world run) = files w
  ∧ handles (final_world run) = handles w
  ∧ io (final_world run) = io w.
Proof.
  revert epoch st w. induction remaining as [|remaining IH]; intros epoch st w.
  { done. }
  cbn [epoch_loop].
  pose proof (epoch_body_frame args reader encode_size trial f1 epoch
                (env epoch) st w) as Hb.
  destruct (epoch_body _ _ _ _ _ _ _ _ _ _) as [[[| |e] st'] w'];
    cbn [snd] in Hb; cbv zeta in Hb; cbn [final_world]; [|done..].
  destruct (IH (S epoch) st' w') as (Hf & Hh & Hi). destruct Hb as (Hf' & Hh' & Hi').
  split; [|split]; congruence.
Qed.

(** What [_train] is, and what the creation and the closing of the summary
    writer leave alone. *)
Lemma train_with_run (dw : bool) (args : Args) (reader : Reader)
    (encode_size : Z) (trial : option Trial) (env : nat → EpochObs)
    (w : World) :
  let loop := epoch_loop dw args reader encode_size trial (Num 0) env
                (max_epoch args) 0 initial_state
                (writer_call args WriterCreated w) in
  let r := train_with dw args reader encode_size trial env w in
  exit r.1 = exit loop
  ∧ final_state r.1 = final_state loop
  ∧ epochs_run r.1 = epochs_run loop
  ∧ files (final_world r.1) = files (final_world loop)
  ∧ handles (final_world r.1) = handles (final_world loop)
  ∧ reports (final_world r.1) = reports (final_world loop)
  ∧ io (final_world r.1) = io (final_world loop)
  ∧ r.2 = match exit loop with
          | Raised e => Raise e
          | _ => Ok (Num 1)
          end.
Proof.
  intros loop r. unfold r, train_with. cbn [fst snd finally_close exit
    final_state epochs_run final_world]. fold loop.
  destruct (writer_call_frame args WriterClosed (final_world loop))
    as (? & ? & ? & ?).
  done.
Qed.

(** With writing allowed the first epoch of a run without trial does write:
    the frame property below is one of the constant, not of the loop. *)
Lemma train_unlocked_writes :
  let run := (train_with false (demo_args 1) demo_reader 100 None
                (replay [] (demo_epoch 1 [0; 1; 1])) empty_world).1 in
  dom (files (final_world run))
  = ({[ "vectors.txt"; "result.tsv"; "out/code2vec.model" ]} : gset string)
  ∧ files (final_world run) !! "result.tsv"%string
    = Some [pretty 3 +:+ tab +:+ "False" +:+ tab +:+ "getX" +:+ tab +:+ "setX"
            +:+ tab +:+ "0.9" +:+ nl]%string.
Proof. split; by vm_compute. Qed.

(** C10. [DISALLOW_WRITE] is [True], and under it no call of [_train]
    changes any file or leaves a handle open, whatever the arguments, the
    trial and the epochs observed, improvement epochs of a run without trial
    included. *)
Theorem train_never_writes :
  DISALLOW_WRITE = true
  ∧ ∀ (args : Args) (reader : Reader) (encode_size : Z)
      (trial : option Trial) (env : nat → EpochObs) (w : World),
      let run := (_train args reader encode_size trial env w).1 in
      files (final_world run) = files w
      ∧ open_handles (final_world run) = open_handles w.
Proof.
  split; [done|]. intros args reader encode_size trial env w run.
  run_facts (train_with_run true args reader encode_size trial env w).
  destruct (epoch_loop_frame args reader encode_size trial (Num 0) env
              (max_epoch args) 0%nat initial_state
              (writer_call args WriterCreated w)) as (Hf' & Hh' & _).
  destruct (writer_call_frame args WriterCreated w) as (Hf0 & Hh0 & _).
  unfold run, _train, DISALLOW_WRITE, open_handles.
  split; congruence.
Qed.

(** ** The stale [f1] *)

Lemma after_checkpoint_stale (st : TrainState) :
  stale_best st → best_f1 (after_checkpoint (Num 0) st) = Some (Num 0).
Proof.
  unfold after_checkpoint, improved. intros [H|H]; rewrite H; [done|].
  by rewrite py_lt_irrefl.
Qed.

Lemma early_stop_rule_best (train_loss dev_accuracy : pyfloat) (st : TrainState) :
  best_f1 (early_stop_rule train_loss dev_accuracy st) = best_f1 st.
Proof. unfold early_stop_rule. by destruct (progress _ _ _). Qed.

Lemma epoch_body_stale (args : Args) (reader : Reader) (encode_size : Z)
    (trial : option Trial) (epoch : nat) (obs : EpochObs)
    (st : TrainState) (w : World) :
  stale_best st →
  ∀ sig st' w',
    epoch_body true args reader encode_size trial (Num 0) epoch obs st w
    = (sig, st', w') →
    (∃ new, reports w' = reports w ++ new ∧ Forall (λ r, r.1 = Num 1) new)
    ∧ stale_best st'
    ∧ ((∀ e, sig ≠ Abort e) → best_f1 st' = Some (Num 0)).
Proof.
  intros Hst sig st' w' Heq.
  pose proof (epoch_body_locked args reader encode_size trial (Num 0) epoch
                obs st w) as H.
  rewrite Heq in H.
  assert (Hrep : ∀ b w1,
            report_step trial (Num 0) epoch (epoch_logged args reader epoch obs w)
            = (b, w1) →
            ∃ new, reports w1 = reports w ++ new
                   ∧ Forall (λ r, r.1 = Num 1) new).
  { intros b w1 Hr.
    destruct (epoch_logged_frame args reader epoch obs w) as (_ & _ & Hl & _).
    apply report_step_world in Hr as (_ & _ & [(_ & _ & ->)|Ht]).
    - exists []. by rewrite app_nil_r.
    - destruct Ht as (t & _ & -> & _). rewrite Hl. eexists. split; [done|].
      by repeat constructor. }
  inversion H as [e _|w1 Hr|tl dl da dp dr df w1 _ _ Hr]; subst.
  - split; [|split; [done|]].
    + exists []. by rewrite app_nil_r.
    + intros Hne. by destruct (Hne e).
  - split; [by eapply Hrep|]. split; [done|].
    intros Hne. by destruct (Hne TrialPruned).
  - assert (Hb : best_f1 (early_stop_rule tl da (after_checkpoint (Num 0) st))
                 = Some (Num 0)).
    { by rewrite early_stop_rule_best, after_checkpoint_stale. }
    destruct (best_logged_frame args (Num 0) epoch st w1) as (_ & _ & -> & _).
    split; [by eapply Hrep|]. split; [by right|done].
Qed.

Lemma epoch_loop_stale (args : Args) (reader : Reader) (encode_size : Z)
    (trial : option Trial) (env : nat → EpochObs) (remaining : nat) :
  ∀ (epoch : nat) (st : TrainState) (w : World),
    stale_best st →
    let run := epoch_loop true args reader encode_size trial (Num 0) env
                 remaining epoch st w in
    (∃ new, reports (final_world run) = reports w ++ new
            ∧ Forall (λ r, r.1 = Num 1) new)
    ∧ stale_best (final_state run)
    ∧ ((∀ e, exit run ≠ Raised e) →
       (0 < remaining)%nat ∨ best_f1 st = Some (Num 0) →
       best_f1 (final_state run) = Some (Num 0)).
Proof.
  induction remaining as [|remaining IH]; intros epoch st w Hst.
  { cbn. split; [|split; [done|]].
    - exists []. by rewrite app_nil_r.
    - intros _ [Hlt|Hb]; [lia|done]. }
  cbn [epoch_loop].
  destruct (epoch_body _ _ _ _ _ _ _ _ _ _) as [[sig st'] w'] eqn:Heq.
  destruct (epoch_body_stale _ _ _ _ _ _ _ _ Hst _ _ _ Heq)
    as ((new & Hnew & Hall) & Hst' & Hbest).
  destruct sig as [| |e]; cbn [exit final_state final_world].
  - destruct (IH (S epoch) st' w' Hst') as ((new' & Hnew' & Hall') & Hfin & Hb).
    split; [|split; [done|]].
    + exists (new ++ new'). rewrite Hnew', Hnew, app_assoc. split; [done|].
      by apply Forall_app.
    + intros Hne _. apply Hb; [done|]. right. by apply Hbest.
  - split; [by exists new|]. split; [done|]. intros _ _. by apply Hbest.
  - split; [by exists new|]. split; [done|]. intros Hne. by destruct (Hne e).
Qed.

(** Without a trial, epochs whose passes end normally never abort the loop. *)
Lemma epoch_loop_completes (args : Args) (reader : Reader) (encode_size : Z)
    (f1 : pyfloat) (env : nat → EpochObs) (remaining : nat) :
  ∀ (epoch : nat) (st : TrainState) (w : World),
    (∀ k, (epoch <= k < epoch + remaining)%nat → passes_ok args reader (env k)) →
    ∀ e, exit (epoch_loop true args reader encode_size None f1 env
                 remaining epoch st w) ≠ Raised e.
Proof.
  induction remaining as [|remaining IH]; intros epoch st w Hok e; [done|].
  cbn [epoch_loop].
  pose proof (epoch_body_locked args reader encode_size None f1 epoch
                (env epoch) st w) as H.
  destruct (Hok epoch ltac:(lia)) as ((tl & Ht) & (rd & Hd) & (rt & Hte)).
  destruct (epoch_body _ _ _ _ _ _ _ _ _ _) as [[sig st'] w'].
  inversion H as [e' Hf|w1 Hr|tl' dl da dp dr df w1 _ _ Hr st2]; subst.
  - destruct Hf as [Hf|[Hf|Hf]]; congruence.
  - by cbv in Hr.
  - destruct (10 <? _); [done|]. apply IH. intros k Hk. apply Hok. lia.
Qed.

(** C2. [f1] is bound to [0.0] once and never assigned again; so, for every
    run of at least one epoch, whatever the dev and test scores of the
    epochs: every value reported to a trial is [1.0]; when the loop is left
    without an exception [best_f1] is [0.0] and [_train] returns [1.0]; a
    run without trial whose passes all end normally is left that way; and
    when the loop is left by an exception [best_f1] is still unset or
    [0.0]. *)
Theorem train_f1_stale (args : Args) (reader : Reader) (encode_size : Z)
    (trial : option Trial) (env : nat → EpochObs) (w : World) :
  (1 <= max_epoch args)%nat →
  let run := (_train args reader encode_size trial env w).1 in
  let ret := (_train args reader encode_size trial env w).2 in
  (∃ new, reports (final_world run) = reports w ++ new
          ∧ Forall (λ r, r.1 = Num 1) new)
  ∧ ((∀ e, exit run ≠ Raised e) →
     best_f1 (final_state run) = Some (Num 0) ∧ ret = Ok (Num 1))
  ∧ (trial = None →
     (∀ k, (k < max_epoch args)%nat → passes_ok args reader (env k)) →
     ∀ e, exit run ≠ Raised e)
  ∧ (∀ e, exit run = Raised e →
     ret = Raise e
     ∧ (best_f1 (final_state run) = None
        ∨ best_f1 (final_state run) = Some (Num 0))).
Proof.
  intros Hmax run ret.
  run_facts (train_with_run true args reader encode_size trial env w).
  unfold ret, run, _train, DISALLOW_WRITE.
  rewrite Hexit, Hstate, Hreports, Hret.
  destruct (epoch_loop_stale args reader encode_size trial env (max_epoch args)
              0%nat initial_state (writer_call args WriterCreated w)
              ltac:(by left)) as (Hrep & Hst & Hbest).
  destruct (writer_call_frame args WriterCreated w) as (_ & _ & Hr0 & _).
  rewrite Hr0 in Hrep.
  split; [done|]. split; [|split].
  - intros Hne. split; [apply Hbest; [done|left; lia]|].
    destruct (exit _) as [| |e]; [done..|by destruct (Hne e)].
  - intros -> Hok. apply epoch_loop_completes. intros k Hk. apply Hok. lia.
  - intros e He. rewrite He. done.
Qed.

Lemma train_f1_stale_witness :
  let r := _train (demo_args 2) demo_reader 100 None
             (replay [demo_epoch 3 [0; 1; 1]] (demo_epoch 2 [0; 0; 1]))
             empty_world in
  best_f1 (final_state r.1) = Some (Num 0) ∧ r.2 = Ok (Num 1).
Proof.
  pose proof (train_f1_stale (demo_args 2) demo_reader 100 None
                (replay [demo_epoch 3 [0; 1; 1]] (demo_epoch 2 [0; 0; 1]))
                empty_world ltac:(simpl; lia)) as (_ & H & Hok & _).
  apply H, Hok; [done|].
  intros [|[|k]] Hk; [| |simpl in Hk; lia];
    (split; [by eexists|split; by eexists]).
Defined.

(** C1 on the code. Two epochs whose dev F1 is 5/6 and then 1: the loop
    leaves [best_f1] at [0.0], not at the best dev F1 seen. *)
Example train_best_f1_ignores_dev_f1 :
  let env := replay [demo_epoch 3 [0; 1; 1]] (demo_epoch 2 [0; 0; 1]) in
  let r := _train (demo_args 2) demo_reader 100 None env empty_world in
  test subtoken demo_vocab (dev_pass (env 0%nat))
  = Ok (Num 1, (Num (5 # 7), Num (5 # 6), Num (5 # 6), Num (5 # 6)))
  ∧ test subtoken demo_vocab (dev_pass (env 1%nat))
    = Ok (Num 1, (Num 1, Num 1, Num 1, Num 1))
  ∧ exit r.1 = Exhausted
  ∧ epochs_run r.1 = 2%nat
  ∧ best_f1 (final_state r.1) = Some (Num 0)
  ∧ r.2 = Ok (Num 1).
Proof. by vm_compute. Qed.

(** ** Reporting to a trial and pruning *)

Lemma step_reports_S (f1 : pyfloat) (epoch n : nat) :
  step_reports f1 epoch (S n)
  = (py_sub (Num 1) f1, epoch) :: step_reports f1 (S epoch) n.
Proof. reflexivity. Qed.

Lemma epoch_loop_trial (args : Args) (reader : Reader) (encode_size : Z)
    (t : Trial) (f1 : pyfloat) (env : nat → EpochObs) (remaining : nat) :
  ∀ (epoch : nat) (st : TrainState) (w : World),
    (∀ k, (epoch <= k < epoch + remaining)%nat → passes_ok args reader (env k)) →
    let run := epoch_loop true args reader encode_size (Some t) f1 env
                 remaining epoch st w in
    ∃ n, epochs_run run = (epoch + n)%nat ∧ (n <= remaining)%nat
      ∧ reports (final_world run) = reports w ++ step_reports f1 epoch n
      ∧ (∀ j, (j < n)%nat →
           should_prune t (reports w ++ step_reports f1 epoch (S j))
             (epoch + j) = true →
           S j = n ∧ exit run = Raised TrialPruned)
      ∧ (exit run = Raised TrialPruned →
         ∃ j, n = S j
              ∧ should_prune t (reports (final_world run)) (epoch + j) = true).
Proof.
  induction remaining as [|remaining IH]; intros epoch st w Hok.
  { exists 0%nat. cbn [epoch_loop exit final_world epochs_run].
    change (step_reports f1 epoch 0) with (@nil (pyfloat * nat)).
    rewrite Nat.add_0_r, app_nil_r.
    split; [done|]. split; [lia|]. split; [done|]. split; [|done].
    intros j Hj. lia. }
  cbn [epoch_loop].
  pose proof (epoch_body_locked args reader encode_size (Some t) f1 epoch
                (env epoch) st w) as H.
  destruct (Hok epoch ltac:(lia)) as ((tl & Ht) & (rd & Hd) & (rt & Hte)).
  destruct (epoch_logged_frame args reader epoch (env epoch) w)
    as (_ & _ & Hlog & _).
  destruct (epoch_body _ _ _ _ _ _ _ _ _ _) as [[sig st'] w'].
  inversion H as [e' Hf|w1 Hr|tl' dl da dp dr df w1 _ _ Hr st2]; subst.
  - destruct Hf as [Hf|[Hf|Hf]]; congruence.
  - (* pruned at this step *)
    apply report_step_world in Hr as (_ & _ & [(? & _)|(t' & [= <-] & Hrep & Hp)]);
      [done|].
    rewrite Hlog in Hrep.
    lazy beta iota zeta.
    exists 1%nat. cbn [exit final_world epochs_run].
    rewrite Hrep. split; [lia|]. split; [lia|]. split; [done|]. split.
    + intros j Hj _. split; [lia|done].
    + intros _. exists 0%nat. rewrite Nat.add_0_r, <- Hrep. by split.
  - apply report_step_world in Hr as (_ & _ & [(? & _)|(t' & [= <-] & Hrep & Hp)]);
      [done|].
    rewrite Hlog in Hrep.
    rewrite Hrep in Hp. symmetry in Hp.
    destruct (best_logged_frame args f1 epoch st w1) as (_ & _ & Hbest & _).
    rewrite <- Hbest in Hrep.
    destruct (10 <? _).
    + (* break *)
      lazy beta iota zeta.
      exists 1%nat. cbn [exit final_world epochs_run].
      rewrite Hrep. split; [lia|]. split; [lia|]. split; [done|]. split; [|done].
      intros j Hj Hq. assert (j = 0)%nat as -> by lia.
      rewrite Nat.add_0_r in Hq. change (step_reports f1 epoch 1)
        with [(py_sub (Num 1) f1, epoch)] in Hq. congruence.
    + (* next epoch *)
      lazy beta iota zeta.
      destruct (IH (S epoch) st2 (best_logged args f1 epoch st w1))
        as (n & Hn & Hle & Hreps & Hall & Hpr).
      { intros k Hk. apply Hok. lia. }
      exists (S n). rewrite Hn. split; [lia|]. split; [lia|].
      rewrite Hreps, Hrep, step_reports_S, <- app_assoc. split; [done|]. split.
      * intros [|j] Hj Hq.
        { rewrite Nat.add_0_r in Hq. change (step_reports f1 epoch 1)
            with [(py_sub (Num 1) f1, epoch)] in Hq. congruence. }
        rewrite step_reports_S in Hq.
        destruct (Hall j ltac:(lia)) as [Hjn Hex].
        { rewrite Hrep, <- app_assoc.
          by replace (S epoch + j)%nat with (epoch + S j)%nat by lia. }
        split; [lia|done].
      * intros Hex. destruct (Hpr Hex) as (j & -> & Hq). exists (S j).
        split; [done|]. rewrite Hreps, Hrep, <- app_assoc in Hq.
        by replace (S epoch + j)%nat with (epoch + S j)%nat in Hq by lia.
Qed.

(** At least one epoch is started whenever the range is not empty. *)
Lemma epochs_run_bounds (dw : bool) (args : Args) (reader : Reader)
    (encode_size : Z) (trial : option Trial) (f1 : pyfloat)
    (env : nat → EpochObs) (remaining : nat) :
  ∀ (epoch : nat) (st : TrainState) (w : World),
    let run := epoch_loop dw args reader encode_size trial f1 env
                 remaining epoch st w in
    (epoch <= epochs_run run <= epoch + remaining)%nat
    ∧ ((0 < remaining)%nat → (epoch < epochs_run run)%nat).
Proof.
  induction remaining as [|remaining IH]; intros epoch st w.
  { cbn. lia. }
  cbn [epoch_loop].
  destruct (epoch_body _ _ _ _ _ _ _ _ _ _) as [[[| |e] st'] w'];
    cbn [epochs_run]; [|lia..].
  specialize (IH (S epoch) st' w'). cbv zeta in IH. lia.
Qed.

Lemma train_with_ret (dw : bool) (args : Args) (reader : Reader)
    (encode_size : Z) (trial : option Trial) (env : nat → EpochObs) (w : World)
    (e : exn) :
  (train_with dw args reader encode_size trial env w).2 = Raise e
  ↔ exit (train_with dw args reader encode_size trial env w).1 = Raised e.
Proof.
  unfold train_with. cbn [fst snd]. destruct (exit _); split; congruence.
Qed.

(** Reporting and pruning, as far as the control flow goes.  Under a trial,
    when the passes of the epochs end normally: every epoch step makes one
    report for its epoch, computed from the variable [f1] of the loop; a
    positive answer of [should_prune] ends the loop at that very step with
    [TrialPruned], an exception of its own that no other failure and no
    normal return is equal to; [TrialPruned] comes from such an answer only;
    and under a pruner that always says yes the loop stops after one report,
    with the training state untouched. *)
Lemma trial_report_and_prune (args : Args) (reader : Reader)
    (encode_size : Z) (t : Trial) (env : nat → EpochObs) (w : World) :
  (∀ k, (k < max_epoch args)%nat → passes_ok args reader (env k)) →
  let run := (_train args reader encode_size (Some t) env w).1 in
  let ret := (_train args reader encode_size (Some t) env w).2 in
  let n := epochs_run run in
  reports (final_world run) = reports w ++ step_reports (Num 0) 0 n
  ∧ (∀ j, (j < n)%nat →
       should_prune t (reports w ++ step_reports (Num 0) 0 (S j)) j = true →
       S j = n ∧ ret = Raise TrialPruned)
  ∧ (ret = Raise TrialPruned →
     ∃ j, n = S j ∧ should_prune t (reports (final_world run)) j = true)
  ∧ (∀ v : pyfloat, Ok v ≠ Raise TrialPruned)
  ∧ (∀ e, e ≠ TrialPruned → @Raise pyfloat e ≠ Raise TrialPruned)
  ∧ ((1 <= max_epoch args)%nat →
     (∀ rs step, should_prune t rs step = true) →
     n = 1%nat
     ∧ reports (final_world run) = reports w ++ [(Num 1, 0%nat)]
     ∧ ret = Raise TrialPruned
     ∧ final_state run = initial_state).
Proof.
  intros Hok run ret n.
  run_facts (train_with_run true args reader encode_size (Some t) env w).
  destruct (writer_call_frame args WriterCreated w) as (_ & _ & Hr0 & _).
  set (w0 := writer_call args WriterCreated w) in *.
  set (loop := epoch_loop true args reader encode_size (Some t) (Num 0) env
                 (max_epoch args) 0 initial_state w0) in *.
  subst run ret n. unfold _train, DISALLOW_WRITE.
  rewrite Hepochs, Hreports, Hstate, Hret.
  assert (Hr : ∀ e, match exit loop with
                    | Raised e' => Raise e'
                    | _ => Ok (Num 1)
                    end = Raise e ↔ exit loop = Raised e).
  { intros e. destruct (exit loop); split; congruence. }
  destruct (epoch_loop_trial args reader encode_size t (Num 0) env
              (max_epoch args) 0%nat initial_state w0)
    as (m & Hm & Hle & Hrep & Hall & Hpr).
  { intros k Hk. apply Hok. lia. }
  fold loop in Hm, Hrep, Hall, Hpr. cbn [Nat.add] in Hm, Hall, Hpr.
  rewrite Hr0 in Hrep, Hall. rewrite Hm.
  split; [done|]. split.
  { intros j Hj Hq. destruct (Hall j Hj Hq) as [? ?]. by rewrite Hr. }
  split.
  { intros Hx. apply Hr in Hx. destruct (Hpr Hx) as (j & ? & ?). by exists j. }
  split; [done|]. split; [congruence|].
  intros Hmax Halways.
  assert (Hn : m = 1%nat).
  { destruct m as [|m'].
    - exfalso.
      pose proof (epochs_run_bounds true args reader encode_size (Some t)
                    (Num 0) env (max_epoch args) 0%nat initial_state w0)
        as [_ Hb].
      fold loop in Hb. specialize (Hb ltac:(lia)). lia.
    - destruct (Hall 0%nat ltac:(lia) (Halways _ _)) as [? _]. lia. }
  rewrite Hn in Hrep, Hall |- *. split; [done|]. split; [done|].
  destruct (Hall 0%nat ltac:(lia) (Halways _ _)) as [_ Hex].
  split; [by apply Hr|].
  unfold loop in Hex |- *.
  destruct (max_epoch args) as [|k]; [lia|]. cbn [epoch_loop] in *.
  pose proof (epoch_body_locked args reader encode_size (Some t) (Num 0) 0%nat
                (env 0%nat) initial_state w0) as H.
  destruct (epoch_body _ _ _ _ _ _ _ _ _ _) as [[sig st'] w'].
  inversion H as [e' Hf|w1 Hx|tl' dl da dp dr df w1 _ _ Hx st2]; subst.
  - done.
  - done.
  - exfalso. apply report_step_world in Hx as (_ & _ & [(? & _)|(t' & [= <-] & _ & Hp)]);
      [done|]. by rewrite Halways in Hp.
Qed.

Lemma trial_report_and_prune_witness :
  let r := _train (demo_args 5) demo_reader 100 (Some always_prune)
             (replay [] (demo_epoch 1 [0; 1; 1])) empty_world in
  epochs_run r.1 = 1%nat
  ∧ reports (final_world r.1) = [(Num 1, 0%nat)]
  ∧ r.2 = Raise TrialPruned
  ∧ final_state r.1 = initial_state.
Proof.
  pose proof (trial_report_and_prune (demo_args 5) demo_reader 100 always_prune
                (replay [] (demo_epoch 1 [0; 1; 1])) empty_world) as H.
  destruct H as (_ & _ & _ & _ & _ & H).
  - intros k _. split; [by eexists|split; by eexists].
  - apply H; [simpl; lia|done].
Defined.

(** C5 on the code. Two epochs under a trial that never prunes, whose dev
    F1 is 5/6 and then 1: the values reported to the trial are [1.0] and
    [1.0], not [1 - 5/6] and [1 - 1].  What the trial is given to minimize
    is a constant, whatever the epochs score. *)
Example trial_reports_ignore_dev_f1 :
  let env := replay [demo_epoch 3 [0; 1; 1]] (demo_epoch 2 [0; 0; 1]) in
  let r := _train (demo_args 2) demo_reader 100 (Some never_prune) env
             empty_world in
  test subtoken demo_vocab (dev_pass (env 0%nat))
  = Ok (Num 1, (Num (5 # 7), Num (5 # 6), Num (5 # 6), Num (5 # 6)))
  ∧ test subtoken demo_vocab (dev_pass (env 1%nat))
    = Ok (Num 1, (Num 1, Num 1, Num 1, Num 1))
  ∧ [(py_sub (Num 1) (Num (5 # 6)), 0%nat); (py_sub (Num 1) (Num 1), 1%nat)]
    = [(Num (1 # 6), 0%nat); (Num 0, 1%nat)]
  ∧ reports (final_world r.1) = [(Num 1, 0%nat); (Num 1, 1%nat)]
  ∧ reports (final_world r.1)
    ≠ [(py_sub (Num 1) (Num (5 # 6)), 0%nat); (py_sub (Num 1) (Num 1), 1%nat)]
  ∧ epochs_run r.1 = 2%nat
  ∧ r.2 = Ok (Num 1).
Proof.
  split; [by vm_compute|]. split; [by vm_compute|]. split; [by vm_compute|].
  split; [by vm_compute|]. split; [|by vm_compute].
  intros H. vm_compute in H. discriminate H.
Qed.

(** ** Early stop *)

Lemma progress_iff (train_loss dev_accuracy : pyfloat) (st : TrainState) :
  progress train_loss dev_accuracy st = true
  ↔ made_progress train_loss dev_accuracy st.
Proof.
  unfold progress, made_progress.
  destruct (last_loss st) as [ll|], (last_accuracy st) as [la|]; simpl.
  - rewrite orb_false_r, orb_true_iff. split.
    + intros [H|H]; [right; left|do 3 right]; eauto.
    + intros [H|[(ll' & [= <-] & H)|[H|(la' & [= <-] & H)]]]; try done; tauto.
  - rewrite orb_true_r. split; [|done]. intros _. by do 2 right; left.
  - split; [|done]. intros _. by left.
  - split; [|done]. intros _. by left.
Qed.

Lemma after_checkpoint_trackers (f1 : pyfloat) (st : TrainState) :
  last_loss (after_checkpoint f1 st) = last_loss st
  ∧ last_accuracy (after_checkpoint f1 st) = last_accuracy st
  ∧ bad_count (after_checkpoint f1 st) = bad_count st.
Proof. unfold after_checkpoint. by destruct (improved f1 st). Qed.

Lemma early_stop_rule_reset (train_loss dev_accuracy : pyfloat) (st : TrainState) :
  made_progress train_loss dev_accuracy st →
  early_stop_rule train_loss dev_accuracy st
  = {| best_f1 := best_f1 st; last_loss := Some train_loss;
       last_accuracy := Some dev_accuracy; bad_count := 0 |}.
Proof.
  intros H. apply progress_iff in H. unfold early_stop_rule. by rewrite H.
Qed.

Lemma early_stop_rule_bad (train_loss dev_accuracy : pyfloat) (st : TrainState) :
  ¬ made_progress train_loss dev_accuracy st →
  early_stop_rule train_loss dev_accuracy st
  = {| best_f1 := best_f1 st; last_loss := last_loss st;
       last_accuracy := last_accuracy st; bad_count := bad_count st + 1 |}.
Proof.
  intros H. unfold early_stop_rule.
  destruct (progress _ _ _) eqn:E; [|done]. by apply progress_iff in E.
Qed.

(** The completed epoch [k] of an observed run without trial. *)
Lemma epoch_body_observed (args : Args) (reader : Reader) (encode_size : Z)
    (f1 : pyfloat) (env : nat → EpochObs) (loss acc : nat → pyfloat)
    (last k : nat) (st : TrainState) (w : World) :
  observed args reader env loss acc last → (k <= last)%nat →
  let st2 := early_stop_rule (loss k) (acc k) (after_checkpoint f1 st) in
  epoch_body true args reader encode_size None f1 k (env k) st w
  = (if 10 <? bad_count st2 then Break else Continue, st2,
     best_logged args f1 k st (epoch_logged args reader k (env k) w)).
Proof.
  intros Hobs Hk. destruct (Hobs k Hk) as (Ht & (dl & p & r & f & Hd) & (rt & Hte)).
  pose proof (epoch_body_locked args reader encode_size None f1 k (env k) st w)
    as H.
  destruct (epoch_body _ _ _ _ _ _ _ _ _ _) as [[sig st'] w'].
  inversion H as [e' Hf|w1 Hr|tl' dl' da dp dr df w1 Ht' Hd' Hr st2]; subst.
  - destruct Hf as [Hf|[Hf|Hf]]; congruence.
  - cbn [report_step] in Hr. by injection Hr.
  - cbn [report_step] in Hr. injection Hr as <-.
    rewrite Ht in Ht'. injection Ht' as <-.
    rewrite Hd in Hd'. injection Hd' as <- <- <- <- <-. done.
Qed.

Section BadStreak.

Variables (args : Args) (reader : Reader) (encode_size : Z) (f1 : pyfloat).
Variables (env : nat → EpochObs) (loss acc : nat → pyfloat).

Hypothesis Hobs : observed args reader env loss acc 11.
Hypothesis Hworse : ∀ k, (k < 11)%nat →
  py_lt (loss k) (loss (S k)) = true ∧ py_lt (acc (S k)) (acc k) = true.

(** Every epoch from 1 to 11 is worse than epoch 0 on both counts. *)
Lemma worse_than_first (j : nat) :
  (1 <= j <= 11)%nat →
  py_lt (loss 0%nat) (loss j) = true ∧ py_lt (acc j) (acc 0%nat) = true.
Proof.
  induction j as [|j IH]; [lia|]. intros Hj.
  destruct (Hworse j ltac:(lia)) as [Hl Ha].
  destruct j as [|j]; [done|].
  destruct IH as [IHl IHa]; [lia|]. split.
  - by apply (py_lt_trans _ (loss (S j))).
  - by apply (py_lt_trans _ (acc (S j))).
Qed.

Lemma bad_streak (d : nat) :
  ∀ (j remaining : nat) (st : TrainState) (w : World),
    (j + d = 11)%nat → (1 <= j)%nat → (d < remaining)%nat →
    last_loss st = Some (loss 0%nat) →
    last_accuracy st = Some (acc 0%nat) →
    bad_count st = Z.of_nat j - 1 →
    let run := epoch_loop true args reader encode_size None f1 env
                 remaining j st w in
    exit run = EarlyStop ∧ epochs_run run = 12%nat
    ∧ bad_count (final_state run) = 11.
Proof.
  induction d as [|d IH]; intros j remaining st w Hjd Hj Hrem Hll Hla Hbc;
    (destruct remaining as [|remaining]; [lia|]);
    cbn [epoch_loop];
    rewrite (epoch_body_observed args reader encode_size f1 env loss acc 11)
      by (done || lia);
    cbv zeta;
    destruct (after_checkpoint_trackers f1 st) as (Hl1 & Ha1 & Hb1);
    destruct (worse_than_first j ltac:(lia)) as [Hwl Hwa];
    (rewrite early_stop_rule_bad;
     [|unfold made_progress; rewrite Hl1, Ha1, Hll, Hla;
       intros [H|[(ll & [= <-] & H)|[H|(la & [= <-] & H)]]]; try done;
       [apply py_lt_asym in Hwl|apply py_lt_asym in Hwa]; congruence]);
    cbn [bad_count]; rewrite Hb1, Hbc.
  - assert (j = 11)%nat as -> by lia. by cbn.
  - destruct (Z.ltb_spec 10 (Z.of_nat j - 1 + 1)) as [Hlt|Hge]; [lia|].
    apply IH; cbn [last_loss last_accuracy bad_count];
      [lia|lia|lia|congruence|congruence|lia].
Qed.

End BadStreak.

(** C4. The early-stop rule: in an epoch where a tracker is unset, or the
    training loss is below [last_loss], or the dev accuracy is above
    [last_accuracy], the counter is reset and both trackers are updated;
    in any other epoch the counter grows by one; a completed epoch breaks
    the loop exactly when the counter exceeds 10.  When the epochs 1 to 11
    each have a higher training loss and a lower dev accuracy than the epoch
    before, the loop is left by [break] in epoch 11 with the counter at 11:
    twelve epochs (0 to 11) were started and no further one. *)
Theorem early_stop_after_eleven_bad_epochs :
  (∀ train_loss dev_accuracy st,
     (made_progress train_loss dev_accuracy st →
      early_stop_rule train_loss dev_accuracy st
      = {| best_f1 := best_f1 st; last_loss := Some train_loss;
           last_accuracy := Some dev_accuracy; bad_count := 0 |})
     ∧ (¬ made_progress train_loss dev_accuracy st →
        early_stop_rule train_loss dev_accuracy st
        = {| best_f1 := best_f1 st; last_loss := last_loss st;
             last_accuracy := last_accuracy st;
             bad_count := bad_count st + 1 |}))
  ∧ (∀ args reader encode_size trial f1 epoch obs st w sig st' w',
       epoch_body DISALLOW_WRITE args reader encode_size trial f1 epoch obs st w
       = (sig, st', w') →
       (∀ e, sig ≠ Abort e) → (sig = Break ↔ 10 < bad_count st'))
  ∧ (∀ args reader encode_size env loss acc w,
       (12 <= max_epoch args)%nat →
       observed args reader env loss acc 11 →
       (∀ k, (k < 11)%nat →
          py_lt (loss k) (loss (S k)) = true
          ∧ py_lt (acc (S k)) (acc k) = true) →
       let r := _train args reader encode_size None env w in
       exit r.1 = EarlyStop
       ∧ epochs_run r.1 = 12%nat
       ∧ bad_count (final_state r.1) = 11
       ∧ r.2 = Ok (Num 1)).
Proof.
  split; [|split].
  - intros tl da st. split; [apply early_stop_rule_reset|apply early_stop_rule_bad].
  - intros args reader es trial f1 epoch obs st w sig st' w' Heq Hne.
    pose proof (epoch_body_locked args reader es trial f1 epoch obs st w) as H.
    unfold DISALLOW_WRITE in Heq. rewrite Heq in H.
    inversion H as [e' Hf|w1 Hr|tl' dl' da dp dr df w1 Ht' Hd' Hr st2 Hsig].
    + by destruct (Hne e').
    + by destruct (Hne TrialPruned).
    + destruct (10 <? bad_count st2) eqn:E.
      * apply Z.ltb_lt in E. by split.
      * apply Z.ltb_ge in E. split; [done|lia].
  - intros args reader es env loss acc w Hmax Hobs Hworse r.
    run_facts (train_with_run true args reader es None env w).
    set (w0 := writer_call args WriterCreated w) in *.
    assert (Hloop : let loop := epoch_loop true args reader es None (Num 0) env
                                  (max_epoch args) 0 initial_state w0 in
                    exit loop = EarlyStop ∧ epochs_run loop = 12%nat
                    ∧ bad_count (final_state loop) = 11).
    { destruct (max_epoch args) as [|remaining]; [lia|]. cbn [epoch_loop].
      rewrite (epoch_body_observed args reader es (Num 0) env loss acc 11)
        by (done || lia).
      cbv zeta. rewrite early_stop_rule_reset by by left.
      cbn [bad_count]. change (10 <? 0) with false. cbv iota.
      apply (bad_streak args reader es (Num 0) env loss acc Hobs Hworse 10);
        (done || lia). }
    cbv zeta in Hloop. destruct Hloop as (Hex & Hn & Hb).
    unfold r, _train, DISALLOW_WRITE.
    rewrite Hexit, Hepochs, Hstate, Hret, Hex. done.
Qed.

Lemma early_stop_after_eleven_bad_epochs_witness :
  let r := _train streak_args demo_reader 100 None streak_epoch empty_world in
  exit r.1 = EarlyStop
  ∧ epochs_run r.1 = 12%nat
  ∧ bad_count (final_state r.1) = 11
  ∧ r.2 = Ok (Num 1).
Proof.
  apply (proj2 (proj2 early_stop_after_eleven_bad_epochs)
           streak_args demo_reader 100 streak_epoch streak_loss streak_acc
           empty_world).
  - simpl. lia.
  - intros k Hk.
    do 12 (destruct k as [|k];
           [split; [reflexivity|split; vm_compute; by eauto]|]).
    lia.
  - intros k Hk.
    do 11 (destruct k as [|k]; [by vm_compute|]). lia.
Defined.

(** ** Handles of the vector export *)

Lemma flush_frame (p : string) (buf : list string) (w : World) :
  handles (flush p buf w).2 = handles w
  ∧ io (flush p buf w).2 = io w
  ∧ reports (flush p buf w).2 = reports w
  ∧ summary (flush p buf w).2 = summary w.
Proof.
  unfold flush. destruct (bool_decide (buf = [])); [done|].
  by destruct (cannot_hold _ _ _).
Qed.

Lemma set_buffer_paths (p : string) (buf : list string) (hs : list Handle) :
  h_path <$> set_buffer p buf hs = h_path <$> hs.
Proof.
  induction hs as [|h hs IH]; [done|]. cbn [set_buffer].
  destruct (decide (h_path h = p)) as [Hp|Hp].
  - rewrite bool_decide_eq_true_2 by done. cbn. by rewrite Hp.
  - rewrite bool_decide_eq_false_2 by done. cbn. by rewrite IH.
Qed.

Lemma py_write_handles (p s : string) (w : World) :
  open_handles (py_write p s w).2 = open_handles w.
Proof.
  unfold py_write, open_handles.
  destruct (find_handle p (handles w)) as [h|]; [|done].
  destruct (flushes_early _ _ _).
  - destruct (flush_frame p (h_buffer h ++ [s]) w) as (Hh & _).
    destruct (flush p (h_buffer h ++ [s]) w) as [[[]|e] w']; cbn [snd] in *;
      cbn [handles set_handles]; by rewrite set_buffer_paths, Hh.
  - cbn [snd handles set_handles]. apply set_buffer_paths.
Qed.

Lemma py_open_handles (p : string) (mode : OpenMode) (w : World) :
  open_handles (py_open p mode w).2
  = match (py_open p mode w).1 with
    | Ok _ => p :: open_handles w
    | Raise _ => open_handles w
    end.
Proof. unfold py_open. by destruct (cannot_open _ _). Qed.

(** Closing the handle opened last on a path that is open. *)
Lemma py_close_handles (p : string) (w : World) (rest : list string) :
  open_handles w = p :: rest → open_handles (py_close p w).2 = rest.
Proof.
  unfold open_handles, py_close. destruct (handles w) as [|h hs]; [done|].
  intros [= Hp Hrest]. cbn [find_handle remove_handle].
  rewrite bool_decide_eq_true_2 by done.
  destruct (flush_frame p (h_buffer h) (set_handles hs w)) as (-> & _). done.
Qed.

Lemma write_rows_handles (v : LabelVocab) (vf : string) (fr : option string)
    (rows : list Row) (w : World) :
  open_handles (write_rows v vf fr rows w).2 = open_handles w.
Proof.
  revert w. induction rows as [|r rows IH]; intros w; [done|].
  cbn [write_rows]. destruct (getitem _ (row_label r)) as [label_name|]; [|done].
  pose proof (py_write_handles vf
                (label_name +:+ tab +:+ join " " (row_vec r) +:+ nl) w) as H1.
  destruct (py_write vf _ w) as [[[]|e] w1]; cbn [snd] in H1; [|done].
  destruct fr as [fr|]; [|by rewrite IH].
  destruct (getitem _ (row_pred r)) as [pred_name|]; [|done].
  match goal with
  | |- context [py_write fr ?line w1] =>
      pose proof (py_write_handles fr line w1) as H2;
      destruct (py_write fr line w1) as [[[]|e] w2]
  end; cbn [snd] in H2; [rewrite IH|cbn [snd]]; congruence.
Qed.

Lemma write_batches_handles (v : LabelVocab) (vf : string) (fr : option string)
    (loader : list (result (list Row))) (w : World) :
  open_handles (write_batches v vf fr loader w).2 = open_handles w.
Proof.
  revert w. induction loader as [|[rows|e] loader IH]; intros w; [done| |done].
  cbn [write_batches].
  pose proof (write_rows_handles v vf fr rows w) as Hr.
  destruct (write_rows v vf fr rows w) as [[[]|e] w']; cbn [snd] in Hr.
  - by rewrite IH.
  - done.
Qed.

(** A [with open] block whose body leaves the handles alone leaves them
    alone, however the block ends. *)
Lemma with_open_handles {A} (p : string) (mode : OpenMode)
    (body : World → result A * World) (w : World) :
  (∀ w0, open_handles (body w0).2 = open_handles w0) →
  open_handles (with_open p mode body w).2 = open_handles w.
Proof.
  intros Hbody. unfold with_open.
  pose proof (py_open_handles p mode w) as Ho.
  destruct (py_open p mode w) as [[[]|e] w0]; cbn [fst snd] in Ho; [|done].
  specialize (Hbody w0). destruct (body w0) as [r w1]. cbn [snd] in Hbody.
  rewrite Ho in Hbody. apply py_close_handles in Hbody.
  by destruct (py_close p w1) as [[[]|e] w2].
Qed.

(** The handles after an export: the vector file is closed however the
    export ends; the result file is closed when the export returns, and is
    the one handle that an export which raises can leave open. *)
Lemma write_code_vectors_handles (v : LabelVocab)
    (loader : list (result (list Row))) (vf : string) (mode : OpenMode)
    (fr : option string) (w : World) :
  let r := write_code_vectors v loader vf mode fr w in
  open_handles r.2 = open_handles w
  ∨ (∃ p e, fr = Some p ∧ r.1 = Raise e
            ∧ open_handles r.2 = p :: open_handles w).
Proof.
  unfold write_code_vectors. destruct fr as [p|].
  - pose proof (py_open_handles p mode_w w) as Ho.
    destruct (py_open p mode_w w) as [[[]|e] w0]; cbn [fst snd] in Ho;
      [|by left].
    pose proof (with_open_handles vf mode (write_batches v vf (Some p) loader)
                  w0 (write_batches_handles v vf (Some p) loader)) as Hw.
    destruct (with_open vf mode _ w0) as [[[]|e] w1]; cbn [fst snd] in *.
    + left. apply py_close_handles. congruence.
    + right. exists p, e. by rewrite Hw, Ho.
  - left.
    pose proof (with_open_handles vf mode (write_batches v vf None loader)
                  w (write_batches_handles v vf None loader)) as Hw.
    by destruct (with_open vf mode _ w) as [[[]|e] w1].
Qed.

(** C9 on the code. An export with a result file whose second batch fails
    in the forward pass: the exception leaves [write_code_vectors] with the
    vector file closed and the result file still open. *)
Example write_code_vectors_leaks_result_file :
  let r := write_code_vectors demo_vocab
             [Ok [demo_row 3 0 1]; Raise RuntimeError]
             "vectors.txt" mode_a (Some "result.tsv"%string) empty_world in
  r.1 = Raise RuntimeError
  ∧ open_handles r.2 = ["result.tsv"%string]
  ∧ ("vectors.txt"%string ∉ open_handles r.2)
  ∧ (let ok := write_code_vectors demo_vocab [Ok [demo_row 3 0 1]]
                 "vectors.txt" mode_a (Some "result.tsv"%string) empty_world in
     ok.1 = Ok () ∧ open_handles ok.2 = []).
Proof.
  split; [by vm_compute|]. split; [by vm_compute|]. split; [|by vm_compute].
  intros H. vm_compute in H. by apply list_elem_of_singleton in H.
Qed.

(** * Further properties of the code *)

(** ** Errors and edge cases of the subtoken metrics *)

Lemma py_div_zero (a b : Q) : (b == 0)%Q → py_div a b = Raise ZeroDivisionError.
Proof.
  intros Hb. unfold py_div. apply Qeq_bool_iff in Hb. by rewrite Hb.
Qed.

Lemma subtoken_loop_unknown (v : LabelVocab) (pairs : list (Z * Z))
    (c : SubtokenMatch.counters) :
  has_unknown_label v pairs → SubtokenMatch.loop v pairs c = Raise KeyError.
Proof.
  intros Hex. revert c. induction Hex as [[e a] pairs Hhd|[e a] pairs _ IH];
    intros c; cbn [SubtokenMatch.loop]; unfold SubtokenMatch.body, getitem.
  - cbn [fst snd] in Hhd. destruct Hhd as [->| ->]; [done|].
    by destruct (itosubtokens v !! e).
  - destruct (itosubtokens v !! e); [|done].
    destruct (itosubtokens v !! a); [|done]. cbn [mbind result_bind]. apply IH.
Qed.

Lemma averaged_loop_unknown (v : LabelVocab) (pairs : list (Z * Z))
    (c : AveragedSubtokenMatch.columns) :
  has_unknown_label v pairs →
  AveragedSubtokenMatch.loop v pairs c = Raise KeyError
  ∨ AveragedSubtokenMatch.loop v pairs c = Raise ZeroDivisionError.
Proof.
  intros Hex. revert c. induction Hex as [[e a] pairs Hhd|[e a] pairs _ IH];
    intros c; cbn [AveragedSubtokenMatch.loop];
    unfold AveragedSubtokenMatch.body, getitem.
  - cbn [fst snd] in Hhd. destruct Hhd as [->| ->]; [by left|].
    destruct (itosubtokens v !! e); by left.
  - destruct (itosubtokens v !! e) as [es|]; [|by left].
    destruct (itosubtokens v !! a) as [as_|]; [|by left].
    cbn [mbind result_bind].
    destruct (decide (es = [] ∨ as_ = [])) as [Hempty|Hfull].
    + rewrite (example_scores_empty _ _ Hempty). by right.
    + destruct (example_scores_ok es as_) as ([[[acc prec] rec] f1] & ->);
        [tauto..|].
      cbn [mbind result_bind]. apply IH.
Qed.

(** X1. A label without subtoken list: [subtoken_match] raises [KeyError]
    (the loop never divides), and [averaged_subtoken_match] raises, with
    [KeyError] or, when an earlier example has an empty list, with
    [ZeroDivisionError]; neither returns scores. *)
Theorem subtoken_metrics_unknown_label (v : LabelVocab)
    (expected actual : list Z) :
  has_unknown_label v (zip expected actual) →
  subtoken_match expected actual v = Raise KeyError
  ∧ (averaged_subtoken_match expected actual v = Raise KeyError
     ∨ averaged_subtoken_match expected actual v = Raise ZeroDivisionError).
Proof.
  intros Hex. unfold subtoken_match, averaged_subtoken_match. split.
  - by rewrite subtoken_loop_unknown.
  - destruct (averaged_loop_unknown v _ AveragedSubtokenMatch.init Hex)
      as [-> | ->]; [by left|by right].
Qed.

Lemma subtoken_metrics_unknown_label_witness :
  subtoken_match [0; 7] [1; 1] demo_vocab = Raise KeyError.
Proof.
  apply (subtoken_metrics_unknown_label demo_vocab [0; 7] [1; 1]).
  apply Exists_cons_tl, Exists_cons_hd. by left.
Defined.

Lemma predicted_zero_matches_zero (v : LabelVocab) (pairs : list (Z * Z)) :
  Spec.Zsum ((λ ea, len (Spec.subtokens_of v ea.2)) <$> pairs) = 0 →
  Spec.Zsum ((λ ea, Spec.common (Spec.subtokens_of v ea.1)
                      (Spec.subtokens_of v ea.2)) <$> pairs) = 0.
Proof.
  induction pairs as [|[e a] pairs IH]; [done|].
  rewrite !fmap_cons, !Zsum_cons. cbn [fst snd]. intros H.
  destruct (totals_bounds v pairs) as [_ Hp].
  pose proof (len_nonneg (Spec.subtokens_of v a)) as Ha.
  assert (Ha0 : len (Spec.subtokens_of v a) = 0) by lia.
  assert (Hnil : Spec.subtokens_of v a = []).
  { destruct (Spec.subtokens_of v a); [done|]. rewrite len_cons in Ha0.
    pose proof (len_nonneg l). lia. }
  rewrite Hnil, common_nil_r, IH; [done|lia].
Qed.

(** X2. A batch whose labels are known but whose expected subtokens, or
    predicted subtokens, number zero in total, the empty batch included:
    [subtoken_match] raises [ZeroDivisionError]. *)
Theorem subtoken_match_zero_total (v : LabelVocab) (expected predicted : list Z) :
  Spec.known v (zip expected predicted) →
  Spec.expected_total v expected predicted = 0
  ∨ Spec.predicted_total v expected predicted = 0 →
  subtoken_match expected predicted v = Raise ZeroDivisionError.
Proof.
  intros Hk Hzero. unfold subtoken_match.
  destruct (loop_spec v (zip expected predicted) SubtokenMatch.init Hk)
    as (c & -> & Hm & He & Hp).
  cbn [mbind result_bind]. cbn [SubtokenMatch.init SubtokenMatch.subtokens_match
    SubtokenMatch.subtokens_expected_count SubtokenMatch.subtokens_actual_count]
    in Hm, He, Hp.
  rewrite Qplus_0_l in Hm, He, Hp.
  destruct (totals_bounds v (zip expected predicted)) as [[HM0 HME] HP0].
  unfold Spec.expected_total, Spec.predicted_total in Hzero.
  set (M := Spec.Zsum _) in Hm, HM0, HME.
  set (E := Spec.Zsum _) in He, HME, Hzero.
  set (P := Spec.Zsum _) in Hp, HP0, Hzero.
  assert (HM : M = 0).
  { destruct Hzero as [HE|HP]; [lia|]. by apply predicted_zero_matches_zero. }
  rewrite HM in Hm. change (inject_Z 0) with 0%Q in Hm.
  unfold SubtokenMatch.finish.
  destruct (decide (E = 0)) as [HE|HE], (decide (P = 0)) as [HP|HP];
    try (exfalso; lia).
  - rewrite (py_div_zero _ (SubtokenMatch.subtokens_expected_count c
                            + SubtokenMatch.subtokens_actual_count c
                            - SubtokenMatch.subtokens_match c));
      [reflexivity|]. rewrite Hm, He, Hp, HE, HP. reflexivity.
  - rewrite HE in He. change (inject_Z 0) with 0%Q in He.
    destruct (py_div_ok (SubtokenMatch.subtokens_match c)
                (SubtokenMatch.subtokens_expected_count c
                 + SubtokenMatch.subtokens_actual_count c
                 - SubtokenMatch.subtokens_match c)) as (acc & -> & _).
    { rewrite Hm, He, Hp. intros H. apply (inject_Z_nonzero P HP). rewrite <- H. lra. }
    destruct (py_div_ok (SubtokenMatch.subtokens_match c)
                (SubtokenMatch.subtokens_actual_count c)) as (prec & -> & _).
    { rewrite Hp. by apply inject_Z_nonzero. }
    cbn [mbind result_bind]. by rewrite (py_div_zero _ _ He).
  - rewrite HP in Hp. change (inject_Z 0) with 0%Q in Hp.
    destruct (py_div_ok (SubtokenMatch.subtokens_match c)
                (SubtokenMatch.subtokens_expected_count c
                 + SubtokenMatch.subtokens_actual_count c
                 - SubtokenMatch.subtokens_match c)) as (acc & -> & _).
    { rewrite Hm, He, Hp. intros H. apply (inject_Z_nonzero E HE). rewrite <- H. lra. }
    cbn [mbind result_bind]. by rewrite (py_div_zero _ _ Hp).
Qed.

Lemma subtoken_match_zero_total_witness :
  subtoken_match [] [0; 1] demo_vocab = Raise ZeroDivisionError.
Proof.
  apply (subtoken_match_zero_total demo_vocab [] [0; 1]).
  - constructor.
  - by left.
Defined.

(** X3. Sequences of different lengths: [exact_match] refuses them with
    [ValueError], while the two subtoken policies score the common prefix
    and ignore the surplus of the longer sequence without a word. *)
Theorem metrics_on_length_mismatch (v : LabelVocab) (expected actual : list Z) :
  (length expected ≠ length actual →
   exact_match expected actual = Raise ValueError)
  ∧ subtoken_match expected actual v
    = subtoken_match (take (length actual) expected)
        (take (length expected) actual) v
  ∧ averaged_subtoken_match expected actual v
    = averaged_subtoken_match (take (length actual) expected)
        (take (length expected) actual) v.
Proof.
  split; [|split].
  - intros Hne. unfold exact_match, Sklearn.precision_score, Sklearn.per_class,
      Sklearn.check_consistent_length.
    by rewrite bool_decide_eq_false_2.
  - unfold subtoken_match. by rewrite <- zip_with_take_both.
  - unfold averaged_subtoken_match. by rewrite <- zip_with_take_both.
Qed.

Lemma metrics_on_length_mismatch_witness :
  exact_match [0; 0; 1] [0; 1] = Raise ValueError.
Proof.
  by apply (proj1 (metrics_on_length_mismatch demo_vocab [0; 0; 1] [0; 1])).
Defined.

(** ** Perfect predictions *)

Lemma filter_all {A} (P : A → Prop) `{!∀ x, Decision (P x)} (l : list A) :
  Forall P l → filter P l = l.
Proof.
  induction 1 as [|x l Hx _ IH]; [done|].
  by rewrite filter_cons_True, IH.
Qed.

Lemma common_self (e : list string) : Spec.common e e = len e.
Proof.
  unfold Spec.common, len. by rewrite filter_all by by apply Forall_forall.
Qed.

(** ** Exact match: which label is scored, and the range of the scores *)

Lemma unique_labels_min (y_true y_pred : list Z) :
  y_true ≠ [] →
  ∃ c cs, Sklearn.unique_labels y_true y_pred = c :: cs
    ∧ c ∈ y_true ++ y_pred
    ∧ ∀ x, x ∈ y_true ++ y_pred → c <= x.
Proof.
  intros Hne. destruct (unique_labels_cons y_true y_pred Hne) as (c & cs & Heq).
  exists c, cs. split; [done|].
  unfold Sklearn.unique_labels in Heq.
  pose proof (merge_sort_Permutation Z.le (remove_dups (y_true ++ y_pred))) as HP.
  pose proof (Sorted_merge_sort Z.le (remove_dups (y_true ++ y_pred))) as HS.
  rewrite Heq in HP, HS.
  assert (Hin : ∀ x, x ∈ y_true ++ y_pred ↔ x ∈ c :: cs).
  { intros x. by rewrite HP, elem_of_remove_dups. }
  split; [apply Hin; by left|].
  intros x Hx. apply Hin in Hx.
  apply Sorted_StronglySorted in HS; [|intros ???; lia].
  apply StronglySorted_inv in HS as [_ Hall].
  apply elem_of_cons in Hx as [->|Hx]; [lia|].
  by eapply Forall_forall in Hall.
Qed.

Lemma count_bounds (P : Z → Z → bool) (y_true y_pred : list Z) :
  0 <= Sklearn.count P y_true y_pred <= len y_true.
Proof.
  unfold Sklearn.count, len. split; [lia|]. apply inj_le.
  etrans; [apply length_filter|]. rewrite length_zip. lia.
Qed.

Lemma count_mono (P Q : Z → Z → bool) (y_true y_pred : list Z) :
  (∀ t p, P t p = true → Q t p = true) →
  Sklearn.count P y_true y_pred <= Sklearn.count Q y_true y_pred.
Proof.
  intros HPQ. unfold Sklearn.count.
  induction (zip y_true y_pred) as [|[t p] l IH]; [done|].
  rewrite !filter_cons. cbn [fst snd].
  destruct (decide (P t p = true)) as [HP|HP].
  - rewrite decide_True by by apply HPQ. rewrite !len_cons. lia.
  - destruct (decide (Q t p = true)); rewrite ?len_cons; lia.
Qed.

Lemma ratio_or_zero_unit (n d : Z) :
  0 <= n <= d → unit_score (Sklearn.ratio_or_zero n d).
Proof.
  intros [Hn Hd]. unfold Sklearn.ratio_or_zero, unit_score.
  destruct (decide (d = 0)) as [->|Hne].
  - rewrite bool_decide_eq_true_2 by done. exists 0%Q. split; [done|lra].
  - rewrite bool_decide_eq_false_2 by done. eexists. split; [done|].
    eapply div_unit; [|by apply inject_Z_nonzero|apply Qred_correct].
    unfold float_of_Z. rewrite <- !Zle_Qle. change 0%Q with (inject_Z 0).
    rewrite <- Zle_Qle. lia.
Qed.

(** The scores of [exact_match], spelled out. *)
Lemma exact_match_value (expected actual : list Z) :
  length expected = length actual → expected ≠ [] →
  ∃ c q,
    c ∈ expected ++ actual
    ∧ (∀ x, x ∈ expected ++ actual → c <= x)
    ∧ (q == inject_Z (Spec.agree expected actual) / inject_Z (len expected))%Q
    ∧ exact_match expected actual
      = Ok (Num q,
            Sklearn.ratio_or_zero (Sklearn.tp c expected actual)
              (Sklearn.pred_sum c expected actual),
            Sklearn.ratio_or_zero (Sklearn.tp c expected actual)
              (Sklearn.true_sum c expected actual),
            Sklearn.ratio_or_zero (2 * Sklearn.tp c expected actual)
              (Sklearn.true_sum c expected actual
               + Sklearn.pred_sum c expected actual)).
Proof.
  intros Hlen Hne.
  destruct (unique_labels_min expected actual Hne) as (c & cs & Hu & Hin & Hmin).
  exists c. unfold exact_match, Sklearn.precision_score, Sklearn.recall_score,
    Sklearn.f1_score, Sklearn.accuracy_score, Sklearn.per_class,
    Sklearn.check_consistent_length.
  rewrite bool_decide_eq_true_2 by done. cbn [mbind result_bind].
  rewrite Hu. cbn [fmap list_fmap first mbind result_bind].
  rewrite np_average_cons.
  2:{ destruct expected, actual; done. }
  eexists. split; [done|]. split; [done|]. split; [|done].
  rewrite Qred_correct, indicator_sum. unfold float_of_Z, len at 2.
  rewrite length_fmap, length_zip, <- Hlen, Nat.min_id. reflexivity.
Qed.

(** X4. Exact match on equal-length, non-empty sequences never raises and
    never yields not-a-number: precision, recall and F1 are those of one
    label, the smallest that occurs in either sequence (label 0 only if it
    occurs), a zero denominator counting as score 0; and all four scores lie
    in [0,1].  A model that predicts one constant label is covered. *)
Theorem exact_match_scores (expected actual : list Z) :
  length expected = length actual → expected ≠ [] →
  ∃ c accuracy,
    c ∈ expected ++ actual
    ∧ (∀ x, x ∈ expected ++ actual → c <= x)
    ∧ exact_match expected actual
      = Ok (accuracy,
            Sklearn.ratio_or_zero (Sklearn.tp c expected actual)
              (Sklearn.pred_sum c expected actual),
            Sklearn.ratio_or_zero (Sklearn.tp c expected actual)
              (Sklearn.true_sum c expected actual),
            Sklearn.ratio_or_zero (2 * Sklearn.tp c expected actual)
              (Sklearn.true_sum c expected actual
               + Sklearn.pred_sum c expected actual))
    ∧ unit_score accuracy
    ∧ unit_score (Sklearn.ratio_or_zero (Sklearn.tp c expected actual)
                    (Sklearn.pred_sum c expected actual))
    ∧ unit_score (Sklearn.ratio_or_zero (Sklearn.tp c expected actual)
                    (Sklearn.true_sum c expected actual))
    ∧ unit_score (Sklearn.ratio_or_zero (2 * Sklearn.tp c expected actual)
                    (Sklearn.true_sum c expected actual
                     + Sklearn.pred_sum c expected actual)).
Proof.
  intros Hlen Hne.
  destruct (exact_match_value expected actual Hlen Hne)
    as (c & q & Hin & Hmin & Hq & Heq).
  exists c, (Num q). split; [done|]. split; [done|]. split; [done|].
  assert (Htp_p : Sklearn.tp c expected actual <= Sklearn.pred_sum c expected actual).
  { apply count_mono. intros t p H. by apply andb_true_iff in H as [_ ?]. }
  assert (Htp_t : Sklearn.tp c expected actual <= Sklearn.true_sum c expected actual).
  { apply count_mono. intros t p H. by apply andb_true_iff in H as [? _]. }
  pose proof (count_bounds (λ t p, bool_decide (t = c) && bool_decide (p = c))
                expected actual) as [Htp0 _].
  fold (Sklearn.tp c expected actual) in Htp0.
  split; [|split; [|split]].
  - exists q. split; [done|].
    eapply div_unit; [| |exact Hq].
    + pose proof (agree_bounds _ _ Hlen) as [H0 H1].
      rewrite Zle_Qle in H0, H1. by change (inject_Z 0) with 0%Q in H0.
    + apply inject_Z_nonzero. destruct expected; [done|].
      rewrite len_cons. pose proof (len_nonneg expected). lia.
  - apply ratio_or_zero_unit. lia.
  - apply ratio_or_zero_unit. lia.
  - apply ratio_or_zero_unit. lia.
Qed.

Lemma exact_match_scores_witness :
  ∃ c accuracy precision recall f1,
    exact_match [4; 4; 9] [9; 9; 9] = Ok (accuracy, precision, recall, f1)
    ∧ c = 4 ∧ unit_score accuracy ∧ unit_score f1.
Proof.
  destruct (exact_match_scores [4; 4; 9] [9; 9; 9])
    as (c & acc & Hin & Hmin & Heq & Ha & _ & _ & Hf); [done..|].
  exists c, acc. do 3 eexists. split; [exact Heq|]. split; [|done].
  apply Z.le_antisymm.
  - apply Hmin. apply elem_of_app. left. apply elem_of_cons. by left.
  - apply elem_of_app in Hin as [Hin|Hin];
      repeat (apply elem_of_cons in Hin as [->|Hin]; [lia|]);
      by apply elem_of_nil in Hin.
Defined.

(** ** Averaged subtoken matching on well-formed batches *)

Lemma Qsum_bounds (lo hi : Q) (l : list Q) :
  Forall (λ q, lo <= q <= hi)%Q l →
  (lo * inject_Z (len l) <= Qsum l <= hi * inject_Z (len l))%Q.
Proof.
  induction 1 as [|q l [Hlo Hhi] _ IH].
  - change (Qsum []) with 0%Q. change (inject_Z (len (@nil Q))) with 0%Q. lra.
  - rewrite len_cons, inject_Z_plus. change (inject_Z 1) with 1%Q.
    unfold Qsum in *. cbn [foldr]. nra.
Qed.

Lemma np_average_between (lo hi : Q) (l : list Q) :
  l ≠ [] → Forall (λ q, lo <= q <= hi)%Q l →
  ∃ q, np_average l = Num q ∧ (lo <= q <= hi)%Q.
Proof.
  intros Hne Hall. rewrite np_average_cons by done. eexists. split; [done|].
  rewrite Qred_correct. unfold float_of_Z.
  destruct (Qsum_bounds lo hi l Hall) as [H1 H2].
  assert (0 < inject_Z (len l))%Q.
  { change 0%Q with (inject_Z 0). rewrite <- Zlt_Qlt.
    destruct l; [done|]. rewrite len_cons. pose proof (len_nonneg l). lia. }
  split.
  - by apply Qle_shift_div_l.
  - by apply Qle_shift_div_r.
Qed.

(** The scores of one example with non-empty lists: all defined and not
    negative; at most 1 when the expected list repeats no subtoken. *)
Lemma example_scores_bounds (e a : list string) :
  e ≠ [] → a ≠ [] →
  ∃ acc prec rec f1,
    AveragedSubtokenMatch.example_scores e a = Ok (acc, prec, rec, f1)
    ∧ (NoDup e →
       (0 <= acc <= 1)%Q ∧ (0 <= prec <= 1)%Q ∧ (0 <= rec <= 1)%Q
       ∧ (0 <= f1 <= 1)%Q)
    ∧ (e = a → (acc == 1)%Q ∧ (prec == 1)%Q ∧ (rec == 1)%Q ∧ (f1 == 1)%Q).
Proof.
  intros He Ha. unfold AveragedSubtokenMatch.example_scores.
  rewrite inner_int_spec, Z.add_0_l.
  pose proof (common_bounds e a) as [Hc0 Hc1].
  assert (Hle : 0 < len e).
  { destruct e; [done|]. rewrite len_cons. pose proof (len_nonneg e). lia. }
  assert (Hla : 0 < len a).
  { destruct a; [done|]. rewrite len_cons. pose proof (len_nonneg a). lia. }
  destruct (py_div_ok (float_of_Z (Spec.common e a))
              (float_of_Z (len e + len a - Spec.common e a))) as (acc & -> & Hacc).
  { apply inject_Z_nonzero. lia. }
  destruct (py_div_ok (float_of_Z (Spec.common e a)) (float_of_Z (len e)))
    as (rec & -> & Hrec).
  { apply inject_Z_nonzero. lia. }
  destruct (py_div_ok (float_of_Z (Spec.common e a)) (float_of_Z (len a)))
    as (prec & -> & Hprec).
  { apply inject_Z_nonzero. lia. }
  cbn [mbind result_bind].
  destruct (f1_of_ok prec rec) as (f1 & Hf1 & Hpos & Hzero). rewrite Hf1.
  exists acc, prec, rec, f1. split; [done|]. unfold float_of_Z in *. split.
  - intros Hnd. pose proof (common_le_predicted e a Hnd) as Hc2.
    assert (Hu : ∀ m d q : Z, 0 <= m <= d → d ≠ 0 → ∀ x,
              (x == inject_Z m / inject_Z d)%Q → (0 <= x <= 1)%Q).
    { intros m d _ [Hm Hd] Hd0 x Hx.
      eapply div_unit; [|by apply inject_Z_nonzero|exact Hx].
      rewrite <- !Zle_Qle. change 0%Q with (inject_Z 0). rewrite <- Zle_Qle. lia. }
    assert (Hp : (0 <= prec <= 1)%Q) by (eapply (Hu _ _ 0); [|
      |exact Hprec]; lia).
    assert (Hr : (0 <= rec <= 1)%Q) by (eapply (Hu _ _ 0); [| |exact Hrec]; lia).
    split; [eapply (Hu _ _ 0); [| |exact Hacc]; lia|].
    split; [done|]. split; [done|]. by apply (f1_of_unit prec rec).
  - intros <-. rewrite common_self in *.
    assert (Hx : ¬ (inject_Z (len e) == 0)%Q) by (apply inject_Z_nonzero; lia).
    assert (Hp : (prec == 1)%Q) by (rewrite Hprec; by field).
    assert (Hr : (rec == 1)%Q) by (rewrite Hrec; by field).
    split.
    { rewrite Hacc. unfold Z.sub. rewrite !inject_Z_plus, inject_Z_opp.
      field. intros H. apply Hx. lra. }
    split; [done|]. split; [done|].
    rewrite Hpos; rewrite Hp, Hr; reflexivity.
Qed.

(** The averaged loop on a batch without unknown label and without empty
    list: one score per example in each column, in the range [R]. *)
Lemma averaged_loop_scores (v : LabelVocab) (R : Q → Prop)
    (pairs : list (Z * Z)) :
  Forall (λ ea, ∃ es as_ acc prec rec f1,
            itosubtokens v !! ea.1 = Some es
            ∧ itosubtokens v !! ea.2 = Some as_
            ∧ AveragedSubtokenMatch.example_scores es as_
              = Ok (acc, prec, rec, f1)
            ∧ R acc ∧ R prec ∧ R rec ∧ R f1) pairs →
  ∀ c, ∃ la lp lr lf,
    AveragedSubtokenMatch.loop v pairs c
    = Ok {| AveragedSubtokenMatch.subtokens_accuracy :=
              AveragedSubtokenMatch.subtokens_accuracy c ++ la;
            AveragedSubtokenMatch.subtokens_precision :=
              AveragedSubtokenMatch.subtokens_precision c ++ lp;
            AveragedSubtokenMatch.subtokens_recall :=
              AveragedSubtokenMatch.subtokens_recall c ++ lr;
            AveragedSubtokenMatch.subtokens_f1 :=
              AveragedSubtokenMatch.subtokens_f1 c ++ lf |}
    ∧ length la = length pairs ∧ length lp = length pairs
    ∧ length lr = length pairs ∧ length lf = length pairs
    ∧ Forall R la ∧ Forall R lp ∧ Forall R lr ∧ Forall R lf.
Proof.
  induction 1 as [|[e a] pairs
    (es & as_ & acc & prec & rec & f1 & Hes & Has & Hsc & Ha & Hp & Hr & Hf) _ IH];
    intros c.
  { exists [], [], [], []. cbn [AveragedSubtokenMatch.loop].
    rewrite !app_nil_r. by destruct c. }
  cbn [fst snd] in Hes, Has.
  cbn [AveragedSubtokenMatch.loop]. unfold AveragedSubtokenMatch.body, getitem.
  rewrite Hes, Has. cbn [mbind result_bind]. rewrite Hsc.
  cbn [mbind result_bind].
  edestruct IH as (la & lp & lr & lf & -> & Hla & Hlp & Hlr & Hlf & Ra & Rp & Rr & Rf).
  exists (acc :: la), (prec :: lp), (rec :: lr), (f1 :: lf).
  cbn [AveragedSubtokenMatch.subtokens_accuracy
       AveragedSubtokenMatch.subtokens_precision
       AveragedSubtokenMatch.subtokens_recall
       AveragedSubtokenMatch.subtokens_f1 length].
  rewrite <- !app_assoc. cbn [app].
  repeat split; try done; try congruence; by constructor.
Qed.

(** X5. Averaged subtoken matching on a non-empty batch whose labels are
    known and whose subtoken lists are all non-empty returns four numbers,
    never not-a-number; when no expected label repeats a subtoken they lie
    in [0,1]. *)
Theorem averaged_subtoken_match_defined (v : LabelVocab)
    (expected actual : list Z) :
  zip expected actual ≠ [] →
  Spec.known v (zip expected actual) →
  ¬ Spec.has_empty_example v (zip expected actual) →
  ∃ accuracy precision recall f1,
    averaged_subtoken_match expected actual v
    = Ok (Num accuracy, Num precision, Num recall, Num f1)
    ∧ (Spec.expected_nodup v (zip expected actual) →
       (0 <= accuracy <= 1)%Q ∧ (0 <= precision <= 1)%Q
       ∧ (0 <= recall <= 1)%Q ∧ (0 <= f1 <= 1)%Q).
Proof.
  intros Hne Hk Hfull.
  set (R := λ q : Q, Spec.expected_nodup v (zip expected actual) →
                     (0 <= q <= 1)%Q).
  assert (Hall : Forall (λ ea, ∃ es as_ acc prec rec f1,
              itosubtokens v !! ea.1 = Some es
              ∧ itosubtokens v !! ea.2 = Some as_
              ∧ AveragedSubtokenMatch.example_scores es as_
                = Ok (acc, prec, rec, f1)
              ∧ R acc ∧ R prec ∧ R rec ∧ R f1) (zip expected actual)).
  { unfold R. clear R Hne. revert Hk Hfull.
    unfold Spec.has_empty_example, Spec.expected_nodup, Spec.known.
    induction (zip expected actual) as [|[e a] pairs IH]; intros Hk Hfull;
      [constructor|].
    apply Forall_cons in Hk as [[[es Hes] [as_ Has]] Hk]. cbn [fst snd] in *.
    rewrite Exists_cons in Hfull. cbn [fst snd] in Hfull.
    rewrite (subtokens_of_some _ _ _ Hes), (subtokens_of_some _ _ _ Has) in Hfull.
    constructor.
    - destruct (example_scores_bounds es as_)
        as (acc & prec & rec & f1 & Hsc & Hb & _); [tauto..|].
      exists es, as_, acc, prec, rec, f1. cbn [fst snd].
      do 3 (split; [done|]).
      assert (Hd : Forall (λ ea, NoDup (Spec.subtokens_of v ea.1))
                     ((e, a) :: pairs) → NoDup es).
      { intros Hd. apply Forall_cons in Hd as [Hd _]. cbn [fst] in Hd.
        by rewrite (subtokens_of_some _ _ _ Hes) in Hd. }
      split; [|split; [|split]]; intros Hd';
        destruct (Hb (Hd Hd')) as (? & ? & ? & ?); done.
    - eapply Forall_impl; [apply IH; [done|tauto]|].
      intros [e' a'] (es' & as' & acc & prec & rec & f1 & ? & ? & ? & Ha & Hp & Hr & Hf).
      exists es', as', acc, prec, rec, f1. do 3 (split; [done|]).
      split; [|split; [|split]]; intros Hd;
        apply Forall_cons in Hd as [_ Hd]; auto. }
  destruct (averaged_loop_scores v R _ Hall AveragedSubtokenMatch.init)
    as (la & lp & lr & lf & Hloop & Hla & Hlp & Hlr & Hlf & Ra & Rp & Rr & Rf).
  unfold averaged_subtoken_match. rewrite Hloop. cbn [mbind result_bind
    AveragedSubtokenMatch.init AveragedSubtokenMatch.subtokens_accuracy
    AveragedSubtokenMatch.subtokens_precision
    AveragedSubtokenMatch.subtokens_recall
    AveragedSubtokenMatch.subtokens_f1 app].
  assert (Hnil : ∀ l : list Q, length l = length (zip expected actual) → l ≠ []).
  { intros l Hl ->. destruct (zip expected actual); done. }
  rewrite !np_average_cons by auto.
  do 4 eexists. split; [done|]. intros Hd.
  assert (Hb : ∀ l, length l = length (zip expected actual) → Forall R l →
            (0 <= Qred (Qsum l / float_of_Z (len l)) <= 1)%Q).
  { intros l Hl HR.
    destruct (np_average_between 0 1 l) as (q & Hq & Hq01); [auto| |].
    - eapply Forall_impl; [exact HR|]. intros x Hx. by apply Hx.
    - rewrite np_average_cons in Hq by auto. by injection Hq as ->. }
  split; [|split; [|split]]; apply Hb; done.
Qed.

Lemma averaged_subtoken_match_defined_witness :
  ∃ accuracy precision recall f1,
    averaged_subtoken_match [0; 1] [1; 1] demo_vocab
    = Ok (Num accuracy, Num precision, Num recall, Num f1)
    ∧ (0 <= f1 <= 1)%Q.
Proof.
  destruct (averaged_subtoken_match_defined demo_vocab [0; 1] [1; 1])
    as (acc & prec & rec & f1 & Heq & Hb).
  - done.
  - repeat constructor; by eexists.
  - intros H. repeat (apply Exists_cons in H as [[H|H]|H]; [by vm_compute in H..|]).
    by apply Exists_nil in H.
  - exists acc, prec, rec, f1. split; [done|]. apply Hb.
    repeat constructor; vm_compute; intros H;
      repeat (apply elem_of_cons in H as [H|H]; [done|]);
      by apply elem_of_nil in H.
Defined.

(** ** Perfect predictions *)

Lemma zip_diag_forall {A} (P : A * A → Prop) (l : list A) :
  (∀ x, P (x, x)) → Forall P (zip l l).
Proof. intros HP. induction l as [|x l IH]; by constructor. Qed.

Lemma totals_diag (v : LabelVocab) (l : list Z) :
  Spec.matches v l l = Spec.expected_total v l l
  ∧ Spec.predicted_total v l l = Spec.expected_total v l l.
Proof.
  unfold Spec.matches, Spec.expected_total, Spec.predicted_total.
  induction l as [|x l [IH1 IH2]]; [done|].
  cbn [zip_with]. rewrite !fmap_cons, !Zsum_cons. cbn [fst snd].
  rewrite common_self, IH1, IH2. done.
Qed.

Lemma count_diag (P : Z → Z → bool) (l : list Z) :
  Sklearn.count P l l = len (filter (λ x, P x x = true) l).
Proof.
  unfold Sklearn.count, len. f_equal.
  induction l as [|x l IH]; [done|].
  cbn [zip_with]. rewrite !filter_cons. cbn [fst snd].
  destruct (decide (P x x = true)); cbn [length]; by rewrite IH.
Qed.

Lemma ratio_or_zero_one (n : Z) : 0 < n → is_one (Sklearn.ratio_or_zero n n).
Proof.
  intros Hn. unfold Sklearn.ratio_or_zero, is_one.
  rewrite bool_decide_eq_false_2 by lia. eexists. split; [done|].
  rewrite Qred_correct. unfold float_of_Z. field. apply inject_Z_nonzero. lia.
Qed.

Lemma is_one_between (q : Q) : (1 <= q <= 1)%Q → (q == 1)%Q.
Proof. intros [? ?]. by apply Qle_antisym. Qed.

(** X6. Perfect predictions score 1 on all four metrics under each of the
    three policies: always under exact match, and under the two subtoken
    policies when the labels are known and no subtoken list is empty. *)
Theorem perfect_prediction_scores_one (v : LabelVocab) (l : list Z) :
  l ≠ [] →
  (∃ accuracy precision recall f1,
     exact_match l l = Ok (accuracy, precision, recall, f1)
     ∧ is_one accuracy ∧ is_one precision ∧ is_one recall ∧ is_one f1)
  ∧ (Spec.known v (zip l l) → ¬ Spec.has_empty_example v (zip l l) →
     (∃ accuracy precision recall f1,
        subtoken_match l l v
        = Ok (Num accuracy, Num precision, Num recall, Num f1)
        ∧ (accuracy == 1)%Q ∧ (precision == 1)%Q ∧ (recall == 1)%Q
        ∧ (f1 == 1)%Q)
     ∧ (∃ accuracy precision recall f1,
          averaged_subtoken_match l l v
          = Ok (Num accuracy, Num precision, Num recall, Num f1)
          ∧ (accuracy == 1)%Q ∧ (precision == 1)%Q ∧ (recall == 1)%Q
          ∧ (f1 == 1)%Q)).
Proof.
  intros Hne. split.
  - (* exact match *)
    destruct (exact_match_value l l eq_refl Hne) as (c & q & Hin & _ & Hq & Heq).
    assert (Hc : c ∈ l) by (apply elem_of_app in Hin; tauto).
    rewrite Heq. unfold Sklearn.tp, Sklearn.true_sum, Sklearn.pred_sum.
    rewrite !count_diag.
    assert (Hand : filter (λ x, bool_decide (x = c) && bool_decide (x = c) = true) l
                   = filter (λ x, bool_decide (x = c) = true) l).
    { apply list_filter_iff. intros x. by rewrite andb_diag. }
    rewrite Hand.
    set (T := len (filter (λ x, bool_decide (x = c) = true) l)).
    assert (HT : 0 < T).
    { unfold T, len.
      assert (Hcf : c ∈ filter (λ x, bool_decide (x = c) = true) l).
      { apply list_elem_of_filter. split; [by apply bool_decide_eq_true_2|done]. }
      destruct (filter (λ x, bool_decide (x = c) = true) l) as [|y ys];
        [by apply elem_of_nil in Hcf|cbn [length]; lia]. }
    do 4 eexists. split; [done|].
    split; [|split; [|split]]; try by apply ratio_or_zero_one.
    + exists q. split; [done|]. rewrite Hq.
      assert (Hag : Spec.agree l l = len l).
      { unfold Spec.agree, len. rewrite filter_all; [|by apply zip_diag_forall].
        by rewrite length_zip, Nat.min_id. }
      rewrite Hag. field. apply inject_Z_nonzero. destruct l; [done|].
      rewrite len_cons. pose proof (len_nonneg l). lia.
    + replace (2 * T) with (T + T) by lia. apply ratio_or_zero_one. lia.
  - intros Hk Hfull.
    assert (Hfirst : ∃ x l', l = x :: l') by (destruct l; [done|eauto]).
    destruct Hfirst as (x & l' & ->).
    destruct (totals_diag v (x :: l')) as [HM HP].
    assert (HE : 0 < Spec.expected_total v (x :: l') (x :: l')).
    { unfold Spec.expected_total. cbn [zip_with]. rewrite fmap_cons, Zsum_cons.
      cbn [fst]. destruct (totals_bounds v (zip l' l')) as [[H0 H1] _].
      assert (Hx : Spec.subtokens_of v x ≠ []).
      { intros Hx. apply Hfull. apply Exists_cons_hd. by left. }
      destruct (Spec.subtokens_of v x) as [|s ss]; [done|].
      rewrite len_cons. pose proof (len_nonneg ss). lia. }
    split.
    + unfold subtoken_match.
      destruct (loop_spec v (zip (x :: l') (x :: l')) SubtokenMatch.init Hk)
        as (c & -> & Hm & He & Hp).
      cbn [mbind result_bind]. cbn [SubtokenMatch.init
        SubtokenMatch.subtokens_match SubtokenMatch.subtokens_expected_count
        SubtokenMatch.subtokens_actual_count] in Hm, He, Hp.
      rewrite Qplus_0_l in Hm, He, Hp.
      fold (Spec.matches v (x :: l') (x :: l')) in Hm.
      fold (Spec.expected_total v (x :: l') (x :: l')) in He.
      fold (Spec.predicted_total v (x :: l') (x :: l')) in Hp.
      rewrite HM in Hm. rewrite HP in Hp.
      destruct (finish_spec c _ _ _ Hm He Hp)
        as (acc & prec & rec & f1 & -> & Hacc & Hprec & Hrec & Hf1 & _);
        [lia..|].
      assert (Hx : ¬ (inject_Z (Spec.expected_total v (x :: l') (x :: l')) == 0)%Q)
        by (apply inject_Z_nonzero; lia).
      assert (Hp1 : (prec == 1)%Q) by (rewrite Hprec; by field).
      assert (Hr1 : (rec == 1)%Q) by (rewrite Hrec; by field).
      exists acc, prec, rec, f1. split; [done|]. split.
      { rewrite Hacc. field. intros H. apply Hx. lra. }
      split; [done|]. split; [done|].
      rewrite Hf1; rewrite Hp1, Hr1; reflexivity.
    + assert (Hall : Forall (λ ea, ∃ es as_ acc prec rec f1,
                itosubtokens v !! ea.1 = Some es
                ∧ itosubtokens v !! ea.2 = Some as_
                ∧ AveragedSubtokenMatch.example_scores es as_
                  = Ok (acc, prec, rec, f1)
                ∧ (1 <= acc <= 1)%Q ∧ (1 <= prec <= 1)%Q
                ∧ (1 <= rec <= 1)%Q ∧ (1 <= f1 <= 1)%Q)
              (zip (x :: l') (x :: l'))).
      { apply Forall_forall. intros [e a] Hea.
        pose proof (proj1 (Forall_forall _ _)
                      (zip_diag_forall (λ ea, ea.1 = ea.2) (x :: l')
                         (λ _, eq_refl)) _ Hea) as Heq.
        cbn [fst snd] in Heq. subst a.
        pose proof (proj1 (Forall_forall _ _) Hk _ Hea) as [[es Hes] _].
        cbn [fst] in Hes.
        assert (Hnn : es ≠ []).
        { intros ->. apply Hfull. apply Exists_exists. exists (e, e).
          split; [done|]. left. cbn [fst]. by apply subtokens_of_some. }
        destruct (example_scores_bounds es es Hnn Hnn)
          as (acc & prec & rec & f1 & Hsc & _ & Hone).
        destruct (Hone eq_refl) as (Ha & Hp & Hr & Hf).
        exists es, es, acc, prec, rec, f1. cbn [fst snd].
        do 3 (split; [done|]). rewrite Ha, Hp, Hr, Hf. lra. }
      destruct (averaged_loop_scores v (λ q, (1 <= q <= 1)%Q) _ Hall
                  AveragedSubtokenMatch.init)
        as (la & lp & lr & lf & Hloop & Hla & Hlp & Hlr & Hlf & Ra & Rp & Rr & Rf).
      unfold averaged_subtoken_match. rewrite Hloop. cbn [mbind result_bind
        AveragedSubtokenMatch.init AveragedSubtokenMatch.subtokens_accuracy
        AveragedSubtokenMatch.subtokens_precision
        AveragedSubtokenMatch.subtokens_recall
        AveragedSubtokenMatch.subtokens_f1 app].
      assert (Hnil : ∀ l0 : list Q,
                length l0 = length (zip (x :: l') (x :: l')) → l0 ≠ []).
      { intros l0 Hl ->. done. }
      destruct (np_average_between 1 1 la) as (qa & -> & Hqa); [auto|done|].
      destruct (np_average_between 1 1 lp) as (qp & -> & Hqp); [auto|done|].
      destruct (np_average_between 1 1 lr) as (qr & -> & Hqr); [auto|done|].
      destruct (np_average_between 1 1 lf) as (qf & -> & Hqf); [auto|done|].
      exists qa, qp, qr, qf. split; [done|].
      split; [|split; [|split]]; by apply is_one_between.
Qed.

Lemma perfect_prediction_scores_one_witness :
  ∃ accuracy precision recall f1,
    exact_match [1; 0; 1] [1; 0; 1] = Ok (accuracy, precision, recall, f1)
    ∧ is_one accuracy ∧ is_one f1.
Proof.
  destruct (proj1 (perfect_prediction_scores_one demo_vocab [1; 0; 1]
                     ltac:(done)))
    as (acc & p & r & f & Heq & Ha & _ & _ & Hf).
  by exists acc, p, r, f.
Defined.

(** ** How the loop can be left *)

Lemma early_stop_rule_counter (train_loss dev_accuracy : pyfloat)
    (st : TrainState) (epoch : nat) :
  counter_inv epoch st →
  let st2 := early_stop_rule train_loss dev_accuracy st in
  0 <= bad_count st2 <= 11
  ∧ bad_count st2 < Z.of_nat (S epoch)
  ∧ (bad_count st2 <= 10 → counter_inv (S epoch) st2).
Proof.
  intros [Hb Hl]. unfold early_stop_rule, progress.
  destruct (last_loss st) as [ll|] eqn:Ell; cbn [is_None orb from_option].
  - destruct Hl as [|Hl]; [done|].
    destruct (_ || _); cbn [bad_count]; unfold counter_inv; cbn [bad_count];
      (split; [lia|]; split; [lia|]; intros ?; split; [lia|right; lia]).
  - cbn [bad_count]. unfold counter_inv. cbn [bad_count].
    split; [lia|]. split; [lia|]. intros _. split; [lia|right; lia].
Qed.

Lemma epoch_loop_exit_shape (args : Args) (reader : Reader) (encode_size : Z)
    (trial : option Trial) (f1 : pyfloat) (env : nat → EpochObs)
    (remaining : nat) :
  ∀ (epoch : nat) (st : TrainState) (w : World),
    counter_inv epoch st →
    let run := epoch_loop true args reader encode_size trial f1 env
                 remaining epoch st w in
    match exit run with
    | Exhausted =>
        epochs_run run = (epoch + remaining)%nat
        ∧ 0 <= bad_count (final_state run) <= 10
    | EarlyStop =>
        bad_count (final_state run) = 11 ∧ (12 <= epochs_run run)%nat
    | Raised _ => 0 <= bad_count (final_state run) <= 10
    end.
Proof.
  induction remaining as [|remaining IH]; intros epoch st w Hinv.
  { cbn. split; [lia|]. apply Hinv. }
  cbn [epoch_loop].
  pose proof (epoch_body_locked args reader encode_size trial f1 epoch
                (env epoch) st w) as H.
  destruct (epoch_body _ _ _ _ _ _ _ _ _ _) as [[sig st'] w'].
  inversion H as [e' Hf|w1 Hr|tl' dl' da dp dr df w1 Ht' Hd' Hr st2 Hsig]; subst.
  - cbn. apply Hinv.
  - cbn. apply Hinv.
  - assert (Hinv' : counter_inv epoch (after_checkpoint f1 st)).
    { destruct (after_checkpoint_trackers f1 st) as (Hl & _ & Hb).
      unfold counter_inv. by rewrite Hl, Hb. }
    destruct (early_stop_rule_counter tl' da _ epoch Hinv') as (Hb & Hlt & Hnext).
    fold st2 in Hb, Hlt, Hnext.
    destruct (10 <? bad_count st2) eqn:E.
    + apply Z.ltb_lt in E. cbn [exit final_state epochs_run]. lia.
    + apply Z.ltb_ge in E.
      specialize (IH (S epoch) st2 (best_logged args f1 epoch st w1) (Hnext E)).
      cbv zeta in IH. destruct (exit _); [|done..].
      destruct IH as [IH ?]. split; [|done]. rewrite IH. lia.
Qed.

(** X7. However [_train] is left, at most [max_epoch] epochs were started and
    the early-stop counter is between 0 and 11.  If the range ran out, all
    [max_epoch] epochs were started and the counter is at most 10; the
    [break] is taken with the counter at exactly 11 and never before twelve
    epochs were started, so a run with [max_epoch <= 11] cannot stop early;
    after an exception the counter is at most 10. *)
Theorem train_exit_shape (args : Args) (reader : Reader) (encode_size : Z)
    (trial : option Trial) (env : nat → EpochObs) (w : World) :
  let run := (_train args reader encode_size trial env w).1 in
  (epochs_run run <= max_epoch args)%nat
  ∧ match exit run with
    | Exhausted =>
        epochs_run run = max_epoch args
        ∧ 0 <= bad_count (final_state run) <= 10
    | EarlyStop =>
        bad_count (final_state run) = 11 ∧ (12 <= epochs_run run)%nat
    | Raised _ => 0 <= bad_count (final_state run) <= 10
    end.
Proof.
  intros run.
  run_facts (train_with_run true args reader encode_size trial env w).
  unfold run, _train, DISALLOW_WRITE. rewrite Hexit, Hepochs, Hstate.
  split.
  - pose proof (epochs_run_bounds true args reader encode_size trial (Num 0)
                  env (max_epoch args) 0%nat initial_state
                  (writer_call args WriterCreated w)) as [H _].
    cbv zeta in H. lia.
  - apply (epoch_loop_exit_shape args reader encode_size trial (Num 0) env
             (max_epoch args) 0%nat initial_state
             (writer_call args WriterCreated w)).
    split; [done|by left].
Qed.

(** ** Epochs that never beat the first one *)

Section Stall.

Variables (args : Args) (reader : Reader) (encode_size : Z) (f1 : pyfloat).
Variables (env : nat → EpochObs) (loss acc : nat → pyfloat).

Hypothesis Hobs : observed args reader env loss acc 11.
Hypothesis Hstall : ∀ j, (1 <= j <= 11)%nat →
  py_lt (loss j) (loss 0%nat) = false ∧ py_lt (acc 0%nat) (acc j) = false.

Lemma stall_streak (d : nat) :
  ∀ (j remaining : nat) (st : TrainState) (w : World),
    (j + d = 11)%nat → (1 <= j)%nat → (d < remaining)%nat →
    last_loss st = Some (loss 0%nat) →
    last_accuracy st = Some (acc 0%nat) →
    bad_count st = Z.of_nat j - 1 →
    let run := epoch_loop true args reader encode_size None f1 env
                 remaining j st w in
    exit run = EarlyStop ∧ epochs_run run = 12%nat
    ∧ bad_count (final_state run) = 11
    ∧ last_loss (final_state run) = Some (loss 0%nat)
    ∧ last_accuracy (final_state run) = Some (acc 0%nat).
Proof.
  induction d as [|d IH]; intros j remaining st w Hjd Hj Hrem Hll Hla Hbc;
    (destruct remaining as [|remaining]; [lia|]);
    cbn [epoch_loop];
    rewrite (epoch_body_observed args reader encode_size f1 env loss acc 11)
      by (done || lia);
    cbv zeta;
    destruct (after_checkpoint_trackers f1 st) as (Hl1 & Ha1 & Hb1);
    destruct (Hstall j ltac:(lia)) as [Hwl Hwa];
    (rewrite early_stop_rule_bad;
     [|unfold made_progress; rewrite Hl1, Ha1, Hll, Hla;
       intros [H|[(ll & [= <-] & H)|[H|(la & [= <-] & H)]]]; congruence]);
    cbn [bad_count]; rewrite Hb1, Hbc.
  - assert (j = 11)%nat as -> by lia. cbn. by rewrite Hl1, Ha1.
  - destruct (Z.ltb_spec 10 (Z.of_nat j - 1 + 1)) as [Hlt|Hge]; [lia|].
    apply IH; cbn [last_loss last_accuracy bad_count];
      [lia|lia|lia|congruence|congruence|lia].
Qed.

End Stall.

(** X8. A run without trial of at least twelve epochs whose passes end
    normally, under exact match or corpus-level subtoken matching (where the
    dev accuracy is one quotient of two counts, so that comparing two
    accuracies is comparing the two fractions): if no epoch from 1 to 11 has
    a dev accuracy above that of epoch 0, and the training loss of epoch 0
    is not-a-number or no epoch from 1 to 11 has a training loss below it,
    the loop breaks in epoch 11 with the trackers still those of epoch 0.
    A first epoch whose loss is [nan] therefore ends the run at epoch 11
    unless the dev accuracy rises, however much the loss falls later:
    nothing compares below [nan]. *)
Theorem train_stalls_on_first_epoch (args : Args) (reader : Reader)
    (encode_size : Z) (env : nat → EpochObs) (loss acc : nat → pyfloat)
    (w : World) :
  (12 <= max_epoch args)%nat →
  eval_method args ≠ ave_subtoken →
  observed args reader env loss acc 11 →
  (∀ j, (1 <= j <= 11)%nat → py_lt (acc 0%nat) (acc j) = false) →
  loss 0%nat = NaN
  ∨ (∀ j, (1 <= j <= 11)%nat → py_lt (loss j) (loss 0%nat) = false) →
  let run := (_train args reader encode_size None env w).1 in
  exit run = EarlyStop ∧ epochs_run run = 12%nat
  ∧ bad_count (final_state run) = 11
  ∧ last_loss (final_state run) = Some (loss 0%nat)
  ∧ last_accuracy (final_state run) = Some (acc 0%nat).
Proof.
  intros Hmax _ Hobs Hacc Hloss run.
  assert (Hstall : ∀ j, (1 <= j <= 11)%nat →
            py_lt (loss j) (loss 0%nat) = false
            ∧ py_lt (acc 0%nat) (acc j) = false).
  { intros j Hj. split; [|by apply Hacc].
    destruct Hloss as [->|H]; [by destruct (loss j)|by apply H]. }
  run_facts (train_with_run true args reader encode_size None env w).
  unfold run, _train, DISALLOW_WRITE. rewrite Hexit, Hepochs, Hstate.
  destruct (max_epoch args) as [|remaining]; [lia|]. cbn [epoch_loop].
  rewrite (epoch_body_observed args reader encode_size (Num 0) env loss acc 11)
    by (done || lia).
  cbv zeta. rewrite early_stop_rule_reset by by left.
  cbn [bad_count]. change (10 <? 0) with false. cbv iota.
  apply (stall_streak args reader encode_size (Num 0) env loss acc Hobs
           Hstall 10); (done || lia).
Qed.

(** A run whose first epoch has a [nan] training loss, and whose later
    epochs all have loss 1 and the dev accuracy of the first. *)
Lemma train_stalls_on_first_epoch_witness :
  let env := replay [nan_epoch [0; 1; 1]] (demo_epoch 1 [0; 1; 1]) in
  let run := (_train (demo_args 20) demo_reader 100 None env empty_world).1 in
  exit run = EarlyStop ∧ epochs_run run = 12%nat
  ∧ last_loss (final_state run) = Some NaN.
Proof.
  intros env run.
  destruct (train_stalls_on_first_epoch (demo_args 20) demo_reader 100 env
              (λ k, match k with O => NaN | S _ => Num 1 end)
              (λ _, Num (5 # 7)) empty_world)
    as (H1 & H2 & _ & H3 & _).
  - simpl. lia.
  - done.
  - intros k Hk.
    do 12 (destruct k as [|k];
           [split; [reflexivity|split; vm_compute; by eauto]|]).
    lia.
  - intros j _. reflexivity.
  - by left.
  - split; [exact H1|]. split; [exact H2|exact H3].
Defined.

(** ** When the write flag matters *)

Lemma checkpoint_rule_flag (dw : bool) (args : Args) (reader : Reader)
    (encode_size : Z) (trial : option Trial) (f1 : pyfloat) (epoch : nat)
    (obs : EpochObs) (st : TrainState) (w : World) :
  is_None trial = false ∨ improved f1 st = false →
  checkpoint_rule dw args reader encode_size trial f1 epoch obs st w
  = checkpoint_rule true args reader encode_size trial f1 epoch obs st w.
Proof.
  unfold checkpoint_rule. intros [-> | ->]; [|done].
  by rewrite !andb_false_l.
Qed.

Lemma epoch_body_flag (dw : bool) (args : Args) (reader : Reader)
    (encode_size : Z) (trial : option Trial) (f1 : pyfloat) (epoch : nat)
    (obs : EpochObs) (st : TrainState) (w : World) :
  is_None trial = false ∨ improved f1 st = false →
  epoch_body dw args reader encode_size trial f1 epoch obs st w
  = epoch_body true args reader encode_size trial f1 epoch obs st w.
Proof.
  intros H. unfold epoch_body.
  destruct (train_pass obs); [|done].
  destruct (test _ _ (dev_pass obs)) as [[? [[[? ?] ?] ?]]|]; [|done].
  destruct (test _ _ (test_pass obs)) as [[? [[[? ?] ?] ?]]|]; [|done].
  destruct (report_step trial f1 epoch _) as [[] w1]; [done|].
  by rewrite (checkpoint_rule_flag dw).
Qed.

Lemma epoch_loop_flag (dw : bool) (args : Args) (reader : Reader)
    (encode_size : Z) (trial : option Trial) (env : nat → EpochObs)
    (remaining : nat) :
  ∀ (epoch : nat) (st : TrainState) (w : World),
    is_None trial = false ∨ best_f1 st = Some (Num 0) →
    epoch_loop dw args reader encode_size trial (Num 0) env remaining epoch st w
    = epoch_loop true args reader encode_size trial (Num 0) env remaining
        epoch st w.
Proof.
  induction remaining as [|remaining IH]; intros epoch st w Hc; [done|].
  cbn [epoch_loop]. rewrite (epoch_body_flag dw).
  2:{ destruct Hc as [?|Hb]; [by left|right].
      unfold improved. by rewrite Hb, py_lt_irrefl. }
  destruct (epoch_body true _ _ _ _ _ _ _ _ _) as [[sig st'] w'] eqn:Heq;
    destruct sig; [|done..].
  apply IH. destruct Hc as [?|Hb]; [by left|right].
  eapply epoch_body_stale in Heq as (_ & _ & Hbest); [|by right].
  by apply Hbest.
Qed.

(** ** What the summary writer receives *)

Lemma adds_scalars_refl (args : Args) (w : World) : adds_scalars args w w.
Proof. exists []. by rewrite app_nil_r. Qed.

Lemma adds_scalars_trans (args : Args) (w1 w2 w3 : World) :
  adds_scalars args w1 w2 → adds_scalars args w2 w3 → adds_scalars args w1 w3.
Proof.
  intros (c1 & H1 & Hs1 & Hn1) (c2 & H2 & Hs2 & Hn2). exists (c1 ++ c2).
  split; [by rewrite H2, H1, app_assoc|]. split; [by apply Forall_app|].
  intros Hoff. by rewrite Hn1, Hn2.
Qed.

Lemma adds_scalars_eq (args : Args) (w w' : World) :
  summary w' = summary w → adds_scalars args w w'.
Proof. intros H. exists []. by rewrite app_nil_r. Qed.

Lemma writer_call_scalar (args : Args) (tag : string) (value : pyfloat)
    (step : nat) (w : World) :
  adds_scalars args w (writer_call args (Scalar tag value step) w).
Proof.
  unfold writer_call. destruct (tensorboard args) eqn:E.
  - exists [Scalar tag value step]. split; [done|].
    split; [|by rewrite E]. by constructor; [exact I|constructor].
  - apply adds_scalars_refl.
Qed.

Lemma log_metrics_scalars (args : Args) (epoch : nat)
    (tl sl da dp dr df : pyfloat) (w : World) :
  adds_scalars args w (log_metrics args epoch tl sl da dp dr df w).
Proof.
  unfold log_metrics. destruct (tensorboard args) eqn:E.
  - eexists. split; [reflexivity|]. split; [|by rewrite E].
    repeat (constructor; [exact I|]). constructor.
  - apply adds_scalars_refl.
Qed.

Lemma epoch_logged_scalars (args : Args) (reader : Reader) (epoch : nat)
    (obs : EpochObs) (w : World) :
  adds_scalars args w (epoch_logged args reader epoch obs w).
Proof.
  unfold epoch_logged. destruct (train_pass obs); [|apply adds_scalars_refl].
  destruct (test _ _ (dev_pass obs)) as [[? [[[? ?] ?] ?]]|];
    [|apply adds_scalars_refl].
  destruct (test _ _ (test_pass obs)) as [[? ?]|]; [|apply adds_scalars_refl].
  apply log_metrics_scalars.
Qed.

Lemma best_logged_scalars (args : Args) (f1 : pyfloat) (epoch : nat)
    (st : TrainState) (w : World) :
  adds_scalars args w (best_logged args f1 epoch st w).
Proof.
  unfold best_logged. destruct (improved f1 st); [|apply adds_scalars_refl].
  apply writer_call_scalar.
Qed.

Lemma epoch_body_scalars (args : Args) (reader : Reader) (encode_size : Z)
    (trial : option Trial) (f1 : pyfloat) (epoch : nat) (obs : EpochObs)
    (st : TrainState) (w : World) :
  adds_scalars args w
    (epoch_body true args reader encode_size trial f1 epoch obs st w).2.
Proof.
  pose proof (epoch_body_locked args reader encode_size trial f1 epoch obs st w)
    as H.
  destruct (epoch_body _ _ _ _ _ _ _ _ _ _) as [[sig st'] w'].
  assert (Hstep : ∀ b w1,
            report_step trial f1 epoch (epoch_logged args reader epoch obs w)
            = (b, w1) → adds_scalars args w w1).
  { intros b w1 Hr.
    apply (adds_scalars_trans _ _ (epoch_logged args reader epoch obs w));
      [apply epoch_logged_scalars|].
    apply adds_scalars_eq.
    pose proof (report_step_frame trial f1 epoch
                  (epoch_logged args reader epoch obs w)) as [_ Hs].
    by rewrite Hr in Hs. }
  cbn [snd]. inversion H as [e _|w1 Hr|tl dl da dp dr df w1 _ _ Hr]; subst.
  - apply adds_scalars_refl.
  - by eapply Hstep.
  - eapply adds_scalars_trans; [by eapply Hstep|apply best_logged_scalars].
Qed.

Lemma epoch_loop_scalars (args : Args) (reader : Reader) (encode_size : Z)
    (trial : option Trial) (f1 : pyfloat) (env : nat → EpochObs)
    (remaining : nat) :
  ∀ (epoch : nat) (st : TrainState) (w : World),
    adds_scalars args w
      (final_world (epoch_loop true args reader encode_size trial f1 env
                      remaining epoch st w)).
Proof.
  induction remaining as [|remaining IH]; intros epoch st w.
  { apply adds_scalars_refl. }
  cbn [epoch_loop].
  pose proof (epoch_body_scalars args reader encode_size trial f1 epoch
                (env epoch) st w) as Hb.
  destruct (epoch_body _ _ _ _ _ _ _ _ _ _) as [[[| |e] st'] w'];
    cbn [snd] in Hb; cbn [final_world]; [|done..].
  eapply adds_scalars_trans; [exact Hb|apply IH].
Qed.

(** The calls on the summary writer in a call of [_train]: none when it is
    switched off; otherwise its creation, [add_scalar] calls, and its
    closing, however the loop was left. *)
Lemma train_summary (args : Args) (reader : Reader) (encode_size : Z)
    (trial : option Trial) (env : nat → EpochObs) (w : World) :
  let run := (train_with true args reader encode_size trial env w).1 in
  (tensorboard args = false → summary (final_world run) = summary w)
  ∧ (tensorboard args = true →
     ∃ scalars,
       summary (final_world run)
       = summary w ++ [WriterCreated] ++ scalars ++ [WriterClosed]
       ∧ Forall is_scalar scalars).
Proof.
  intros run. unfold run, train_with. cbn [fst finally_close final_world].
  destruct (epoch_loop_scalars args reader encode_size trial (Num 0) env
              (max_epoch args) 0%nat initial_state
              (writer_call args WriterCreated w)) as (calls & Hs & Hall & Hoff).
  unfold writer_call in *. destruct (tensorboard args).
  - split; [done|]. intros _. exists calls. split; [|done].
    cbn [summary set_summary] in *. rewrite Hs. by rewrite <- !app_assoc.
  - split; [|done]. intros _. rewrite Hs, Hoff by done. by rewrite app_nil_r.
Qed.



(** ** Only the first epoch can persist *)

(** After a first epoch that went through, [best_f1] is [0.0]. *)
Lemma first_epoch_best (dw : bool) (args : Args) (reader : Reader)
    (encode_size : Z) (trial : option Trial) (obs : EpochObs) (w : World)
    (sig : Signal) (st' : TrainState) (w' : World) :
  epoch_body dw args reader encode_size trial (Num 0) 0 obs initial_state w
  = (sig, st', w') →
  (∀ e, sig ≠ Abort e) → best_f1 st' = Some (Num 0).
Proof.
  unfold epoch_body.
  destruct (train_pass obs); [|intros [= <- _ _] H; by destruct (H e)].
  destruct (test _ _ (dev_pass obs)) as [[? [[[? ?] ?] ?]]|];
    [|intros [= <- _ _] H; by destruct (H e)].
  destruct (test _ _ (test_pass obs)) as [[? [[[? ?] ?] ?]]|];
    [|intros [= <- _ _] H; by destruct (H e)].
  destruct (report_step trial (Num 0) 0 _) as [[] w1];
    [intros [= <- _ _] H; by destruct (H TrialPruned)|].
  unfold checkpoint_rule. change (improved (Num 0) initial_state) with true.
  cbv iota zeta.
  destruct (is_None trial && negb dw).
  - destruct (persist _ _ _ _ _) as [[[]|e] w2].
    + destruct (10 <? _); intros [= _ <- _] _; by rewrite early_stop_rule_best.
    + intros [= <- _ _] H. by destruct (H e).
  - destruct (10 <? _); intros [= _ <- _] _; by rewrite early_stop_rule_best.
Qed.

Lemma epoch_body_one_epoch (dw : bool) (args : Args) (reader : Reader)
    (encode_size : Z) (trial : option Trial) (f1 : pyfloat) (epoch : nat)
    (obs : EpochObs) (st : TrainState) (w : World) :
  epoch_body dw (one_epoch args) reader encode_size trial f1 epoch obs st w
  = epoch_body dw args reader encode_size trial f1 epoch obs st w.
Proof. reflexivity. Qed.

(** X10. With writing allowed and no trial, only the first epoch can write:
    since the stale [f1] lets [best_f1] improve once only, a run of any
    number of epochs leaves every file and handle as the same run cut after
    its first epoch does, whatever the later epochs score; and when the
    first epoch fails, in its passes or while persisting, the run ends
    there with that exception. *)
Theorem only_first_epoch_is_persisted (args : Args) (reader : Reader)
    (encode_size : Z) (env : nat → EpochObs) (w : World) :
  (1 <= max_epoch args)%nat →
  let first := (train_with false (one_epoch args) reader encode_size None env
                  w).1 in
  let run := (train_with false args reader encode_size None env w).1 in
  files (final_world run) = files (final_world first)
  ∧ handles (final_world run) = handles (final_world first)
  ∧ (∀ e, exit first = Raised e →
       exit run = Raised e ∧ epochs_run run = 1%nat).
Proof.
  intros Hmax first run.
  pose proof (train_with_run false args reader encode_size None env w) as Hn.
  pose proof (train_with_run false (one_epoch args) reader encode_size None env
                w) as H1.
  cbv zeta in Hn, H1. fold run in Hn. fold first in H1.
  destruct Hn as (-> & _ & -> & -> & -> & _).
  destruct H1 as (-> & _ & _ & -> & -> & _).
  change (writer_call (one_epoch args) WriterCreated w)
    with (writer_call args WriterCreated w).
  set (w0 := writer_call args WriterCreated w).
  change (max_epoch (one_epoch args)) with 1%nat.
  destruct (max_epoch args) as [|remaining]; [lia|]. cbn [epoch_loop].
  rewrite epoch_body_one_epoch.
  destruct (epoch_body false args reader encode_size None (Num 0) 0
              (env 0%nat) initial_state w0) as [[sig st'] w'] eqn:Heq.
  destruct sig as [| |e]; cbn [exit final_world epochs_run]; [|done|].
  - rewrite epoch_loop_flag.
    2:{ right. eapply first_epoch_best; [exact Heq|done]. }
    destruct (epoch_loop_frame args reader encode_size None (Num 0) env
                remaining 1%nat st' w') as (Hf & Hh & _).
    done.
  - split; [done|]. split; [done|]. by intros e' [= <-].
Qed.

Lemma only_first_epoch_is_persisted_witness :
  let env := replay [demo_epoch 3 [0; 1; 1]] (demo_epoch 2 [0; 0; 1]) in
  let first := (train_with false (one_epoch (demo_args 4)) demo_reader 100 None
                  env empty_world).1 in
  let run := (train_with false (demo_args 4) demo_reader 100 None env
                empty_world).1 in
  files (final_world run) = files (final_world first).
Proof.
  intros env first run.
  apply (only_first_epoch_is_persisted (demo_args 4) demo_reader 100 env
           empty_world).
  simpl. lia.
Defined.

(** ** What the export writes *)

Lemma find_handle_set_buffer_eq (p : string) (buf : list string)
    (hs : list Handle) :
  is_Some (find_handle p hs) →
  find_handle p (set_buffer p buf hs) = Some {| h_path := p; h_buffer := buf |}.
Proof.
  induction hs as [|h hs IH]; cbn [find_handle set_buffer].
  { by intros [? ?]. }
  destruct (decide (h_path h = p)) as [Hp|Hp].
  - rewrite !bool_decide_eq_true_2 by done. intros _. cbn [find_handle h_path].
    by rewrite bool_decide_eq_true_2.
  - rewrite !bool_decide_eq_false_2 by done. intros H. cbn [find_handle].
    rewrite bool_decide_eq_false_2 by done. by apply IH.
Qed.

Lemma find_handle_set_buffer_ne (p q : string) (buf : list string)
    (hs : list Handle) :
  q ≠ p → find_handle q (set_buffer p buf hs) = find_handle q hs.
Proof.
  intros Hq. induction hs as [|h hs IH]; [done|]. cbn [find_handle set_buffer].
  destruct (decide (h_path h = p)) as [Hp|Hp].
  - rewrite (bool_decide_eq_true_2 (h_path h = p)) by done.
    cbn [find_handle h_path].
    rewrite !bool_decide_eq_false_2 by congruence. done.
  - rewrite (bool_decide_eq_false_2 (h_path h = p)) by done.
    cbn [find_handle]. by rewrite IH.
Qed.

Lemma find_handle_remove_ne (p q : string) (hs : list Handle) :
  q ≠ p → find_handle q (remove_handle p hs) = find_handle q hs.
Proof.
  intros Hq. induction hs as [|h hs IH]; [done|].
  cbn [find_handle remove_handle].
  destruct (decide (h_path h = p)) as [Hp|Hp].
  - rewrite (bool_decide_eq_true_2 (h_path h = p)) by done.
    by rewrite bool_decide_eq_false_2 by congruence.
  - rewrite (bool_decide_eq_false_2 (h_path h = p)) by done.
    cbn [find_handle]. by rewrite IH.
Qed.

Lemma same_env_refl (w : World) : same_env w w.
Proof. done. Qed.

Lemma same_env_trans (w1 w2 w3 : World) :
  same_env w1 w2 → same_env w2 w3 → same_env w1 w3.
Proof. intros (? & ? & ?) (? & ? & ?). repeat split; congruence. Qed.

Lemma can_hold_env (w w' : World) (p : string) :
  same_env w w' → can_hold w p → can_hold w' p.
Proof. intros (Hio & _) H c. rewrite Hio. apply H. Qed.

Lemma written_eq (w w' : World) (q : string) :
  content w' q = content w q →
  find_handle q (handles w') = find_handle q (handles w) →
  written w' q = written w q.
Proof. unfold written, pending. by intros -> ->. Qed.

Lemma content_insert (p q : string) (c : list string) (w : World) :
  content (set_files (<[p := c]> (files w)) w) q
  = if decide (q = p) then c else content w q.
Proof.
  unfold content, set_files. cbn [files].
  destruct (decide (q = p)) as [->|Hne].
  - by rewrite lookup_insert_eq.
  - by rewrite lookup_insert_ne.
Qed.

Lemma flush_ok (p : string) (buf : list string) (w : World) :
  can_hold w p →
  ∃ w', flush p buf w = (Ok (), w') ∧ same_env w w' ∧ handles w' = handles w
        ∧ content w' p = content w p ++ buf
        ∧ ∀ q, q ≠ p → content w' q = content w q.
Proof.
  intros Hhold. unfold flush. destruct (decide (buf = [])) as [->|Hbuf].
  - exists w. rewrite bool_decide_eq_true_2 by done.
    by rewrite app_nil_r.
  - rewrite bool_decide_eq_false_2 by done. rewrite Hhold.
    eexists. split; [done|]. split; [done|]. split; [done|].
    split; [by rewrite content_insert, decide_True|].
    intros q Hq. by rewrite content_insert, decide_False.
Qed.

Lemma py_write_ok (p s : string) (w : World) :
  is_Some (find_handle p (handles w)) → can_hold w p →
  ∃ w', py_write p s w = (Ok (), w') ∧ same_env w w'
        ∧ written w' p = written w p ++ [s]
        ∧ is_Some (find_handle p (handles w'))
        ∧ ∀ q, q ≠ p →
            content w' q = content w q
            ∧ find_handle q (handles w') = find_handle q (handles w).
Proof.
  intros Hopen Hhold. unfold py_write.
  destruct Hopen as [h Hh]. rewrite Hh.
  assert (Hp : pending w p = h_buffer h) by (unfold pending; by rewrite Hh).
  destruct (flushes_early _ _ _).
  - destruct (flush_ok p (h_buffer h ++ [s]) w Hhold)
      as (w1 & -> & Henv & Hhs & Hc & Hother).
    eexists. split; [done|]. split; [exact Henv|].
    unfold written, pending. cbn [handles set_handles].
    change (content (set_handles ?hs w1)) with (content w1).
    rewrite Hhs. rewrite !find_handle_set_buffer_eq by by eexists.
    split; [|split; [by eexists|]].
    + cbn. rewrite Hc, app_nil_r. fold (pending w p). by rewrite Hp, app_assoc.
    + intros q Hq. split; [by apply Hother|].
      by apply find_handle_set_buffer_ne.
  - eexists. split; [done|]. split; [done|].
    unfold written, pending. cbn [handles set_handles].
    change (content (set_handles ?hs w)) with (content w).
    rewrite !find_handle_set_buffer_eq by by eexists.
    split; [|split; [by eexists|]].
    + cbn. fold (pending w p). by rewrite Hp, app_assoc.
    + intros q Hq. split; [done|]. by apply find_handle_set_buffer_ne.
Qed.

Lemma py_close_ok (p : string) (w : World) :
  is_Some (find_handle p (handles w)) → can_hold w p →
  ∃ w', py_close p w = (Ok (), w') ∧ same_env w w'
        ∧ handles w' = remove_handle p (handles w)
        ∧ content w' p = written w p
        ∧ ∀ q, q ≠ p → content w' q = content w q.
Proof.
  intros [h Hh] Hhold. unfold py_close. rewrite Hh.
  destruct (flush_ok p (h_buffer h)
              (set_handles (remove_handle p (handles w)) w) Hhold)
    as (w' & -> & Henv & Hhs & Hc & Hother).
  exists w'. split; [done|]. split; [exact Henv|]. split; [exact Hhs|].
  split; [|exact Hother].
  rewrite Hc. unfold written, pending. by rewrite Hh.
Qed.

Lemma py_open_ok (p : string) (mode : OpenMode) (w : World) :
  cannot_open (io w) p = false →
  ∃ w', py_open p mode w = (Ok (), w') ∧ same_env w w'
        ∧ handles w' = {| h_path := p; h_buffer := [] |} :: handles w
        ∧ content w' p = kept mode w p
        ∧ ∀ q, q ≠ p → content w' q = content w q.
Proof.
  intros Hopen. unfold py_open. rewrite Hopen. eexists. split; [done|].
  split; [done|]. split; [done|].
  change (content (set_handles ?hs ?w')) with (content w').
  split; [by rewrite content_insert, decide_True; destruct mode|].
  intros q Hq. by rewrite content_insert, decide_False.
Qed.

Lemma getitem_name (v : LabelVocab) (l : Z) :
  is_Some (itos v !! l) → getitem (itos v) l = Ok (label_name v l).
Proof. intros [n Hn]. unfold getitem, label_name. by rewrite Hn. Qed.

Lemma export_ready_step (vf : string) (fr : option string) (p : string)
    (w w' : World) :
  export_ready vf fr w → same_env w w' →
  is_Some (find_handle p (handles w')) →
  (∀ q, q ≠ p → find_handle q (handles w') = find_handle q (handles w)) →
  export_ready vf fr w'.
Proof.
  intros (Hv & Hhv & Hr) Henv Hp Hother.
  assert (Hfind : ∀ q, is_Some (find_handle q (handles w)) →
                       is_Some (find_handle q (handles w'))).
  { intros q Hq. destruct (decide (q = p)) as [->|Hne]; [done|].
    by rewrite Hother. }
  split; [by apply Hfind|]. split; [by eapply can_hold_env|].
  intros q Hq. destruct (Hr q Hq) as [? ?].
  split; [by apply Hfind|by eapply can_hold_env].
Qed.

(** The rows of a batch, when every label is known and nothing fails: the
    vector file and the result file each grow by one line per row, in what
    they hold or in what their handle still buffers. *)
Lemma write_rows_ok (v : LabelVocab) (vf : string) (fr : option string)
    (rows : list Row) :
  fr ≠ Some vf → rows_known v fr rows →
  ∀ w, export_ready vf fr w →
    ∃ w', write_rows v vf fr rows w = (Ok (), w') ∧ same_env w w'
      ∧ export_ready vf fr w'
      ∧ written w' vf = written w vf ++ (vector_line v <$> rows)
      ∧ (∀ p, fr = Some p →
           written w' p = written w p ++ (result_line v <$> rows))
      ∧ ∀ q, q ≠ vf → fr ≠ Some q →
          content w' q = content w q
          ∧ find_handle q (handles w') = find_handle q (handles w).
Proof.
  intros Hne. induction 1 as [|r rows [Hl Hp] _ IH]; intros w Hready.
  { exists w. cbn [fmap list_fmap]. rewrite app_nil_r.
    split; [done|]. split; [done|]. split; [done|]. split; [done|].
    split; [|done]. intros p _. by rewrite app_nil_r. }
  cbn [write_rows]. rewrite (getitem_name v _ Hl).
  destruct Hready as (Hv & Hhv & Hr).
  destruct (py_write_ok vf (vector_line v r) w Hv Hhv)
    as (w1 & Hw1 & Henv1 & Hwr1 & Hv1 & Hother1).
  fold (vector_line v r). rewrite Hw1.
  assert (Hready1 : export_ready vf fr w1).
  { apply (export_ready_step vf fr vf w w1); [done|done|done|].
    intros q Hq. by apply Hother1. }
  destruct fr as [p|].
  - assert (Hpv : p ≠ vf) by congruence.
    assert (Hvp : vf ≠ p) by congruence.
    rewrite (getitem_name v _ (Hp ltac:(by eexists))).
    destruct Hready1 as (_ & _ & Hr1). destruct (Hr1 p eq_refl) as [Hp1 Hhp1].
    destruct (py_write_ok p (result_line v r) w1 Hp1 Hhp1)
      as (w2 & Hw2 & Henv2 & Hwr2 & Hp2 & Hother2).
    fold (label_name v (row_label r)) (label_name v (row_pred r)).
    change (pretty (row_id r) +:+ tab
            +:+ str_bool (bool_decide (label_name v (row_label r)
                                       = label_name v (row_pred r))) +:+ tab
            +:+ label_name v (row_label r) +:+ tab
            +:+ label_name v (row_pred r) +:+ tab +:+ row_prob r +:+ nl)%string
      with (result_line v r).
    rewrite Hw2.
    assert (Hready2 : export_ready vf (Some p) w2).
    { apply (export_ready_step vf (Some p) p w1 w2); [|done|done|].
      - split; [done|]. split; [by eapply can_hold_env|done].
      - intros q Hq. by apply Hother2. }
    destruct (IH w2 Hready2) as (w' & Hw' & Henv' & Hready' & Hv' & Hp' & Hother').
    exists w'. split; [exact Hw'|].
    split; [by eapply same_env_trans; [eapply same_env_trans|]|].
    split; [done|]. split; [|split].
    + destruct (Hother2 vf Hvp) as [Hc2 Hf2].
      rewrite Hv', (written_eq w1 w2 vf Hc2 Hf2), Hwr1.
      cbn [fmap list_fmap]. by rewrite <- app_assoc.
    + intros p' [= <-]. destruct (Hother1 p Hpv) as [Hc1 Hf1].
      rewrite (Hp' p eq_refl), Hwr2, (written_eq w w1 p Hc1 Hf1).
      cbn [fmap list_fmap]. by rewrite <- app_assoc.
    + intros q Hq1 Hq2. assert (q ≠ p) by congruence.
      destruct (Hother' q Hq1 Hq2) as [-> ->].
      destruct (Hother2 q ltac:(done)) as [-> ->].
      by apply Hother1.
  - destruct (IH w1 Hready1) as (w' & Hw' & Henv' & Hready' & Hv' & _ & Hother').
    exists w'. split; [exact Hw'|]. split; [by eapply same_env_trans|].
    split; [done|]. split; [|split; [done|]].
    + rewrite Hv', Hwr1. cbn [fmap list_fmap]. by rewrite <- app_assoc.
    + intros q Hq1 Hq2. destruct (Hother' q Hq1 Hq2) as [-> ->].
      by apply Hother1.
Qed.

Lemma write_batches_ok (v : LabelVocab) (vf : string) (fr : option string)
    (batches : list (list Row)) (tail : list (result (list Row))) :
  fr ≠ Some vf → rows_known v fr (concat batches) → stops tail →
  ∀ w, export_ready vf fr w →
    ∃ w', write_batches v vf fr ((Ok <$> batches) ++ tail) w
          = (loader_outcome tail, w')
      ∧ same_env w w' ∧ export_ready vf fr w'
      ∧ written w' vf = written w vf ++ (vector_line v <$> concat batches)
      ∧ (∀ p, fr = Some p →
           written w' p = written w p ++ (result_line v <$> concat batches))
      ∧ ∀ q, q ≠ vf → fr ≠ Some q →
          content w' q = content w q
          ∧ find_handle q (handles w') = find_handle q (handles w).
Proof.
  intros Hne Hk Hstop. induction batches as [|rows batches IH]; intros w Hready.
  { exists w. cbn [fmap list_fmap app concat]. rewrite app_nil_r.
    split; [by destruct tail as [|[rows|e] tail]|].
    split; [done|]. split; [done|]. split; [done|].
    split; [|done]. intros p _. by rewrite app_nil_r. }
  cbn [concat] in Hk. apply Forall_app in Hk as [Hrows Hrest].
  cbn [fmap list_fmap app write_batches concat].
  destruct (write_rows_ok v vf fr rows Hne Hrows w Hready)
    as (w1 & -> & Henv1 & Hready1 & Hv1 & Hp1 & Hother1).
  destruct (IH Hrest w1 Hready1)
    as (w' & Hw' & Henv' & Hready' & Hv' & Hp' & Hother').
  exists w'. split; [exact Hw'|]. split; [by eapply same_env_trans|].
  split; [done|]. split; [|split].
  - by rewrite Hv', Hv1, fmap_app, app_assoc.
  - intros p Hp. by rewrite (Hp' p Hp), (Hp1 p Hp), fmap_app, app_assoc.
  - intros q Hq1 Hq2. destruct (Hother' q Hq1 Hq2) as [-> ->].
    by apply Hother1.
Qed.

Lemma pending_closed (w w' : World) (p q : string) :
  handles w' = remove_handle p (handles w) → q ≠ p →
  find_handle q (handles w') = find_handle q (handles w).
Proof. intros -> Hq. by apply find_handle_remove_ne. Qed.

(** An export on which nothing fails but, possibly, a batch. *)
Lemma write_code_vectors_ok (v : LabelVocab) (batches : list (list Row))
    (tail : list (result (list Row))) (vf : string) (mode : OpenMode)
    (fr : option string) (w : World) :
  fr ≠ Some vf → rows_known v fr (concat batches) → stops tail →
  cannot_open (io w) vf = false → can_hold w vf →
  (∀ p, fr = Some p → cannot_open (io w) p = false ∧ can_hold w p) →
  ∃ w', write_code_vectors v ((Ok <$> batches) ++ tail) vf mode fr w
        = (loader_outcome tail, w')
    ∧ same_env w w'
    ∧ content w' vf = kept mode w vf ++ (vector_line v <$> concat batches)
    ∧ (∀ p, fr = Some p →
         content w' p
         ++ match loader_outcome tail with
            | Ok _ => []
            | Raise _ => pending w' p
            end
         = result_line v <$> concat batches)
    ∧ open_handles w'
      = match loader_outcome tail, fr with
        | Raise _, Some p => p :: open_handles w
        | _, _ => open_handles w
        end
    ∧ ∀ q, q ≠ vf → fr ≠ Some q → content w' q = content w q.
Proof.
  intros Hne Hk Hstop Hov Hhv Hfr. unfold write_code_vectors, with_open.
  destruct fr as [p|].
  - assert (Hpv : p ≠ vf) by congruence.
    assert (Hvp : vf ≠ p) by congruence.
    destruct (Hfr p eq_refl) as [Hop Hhp].
    destruct (py_open_ok p mode_w w Hop) as (w0 & -> & Henv0 & Hh0 & Hc0 & Ho0).
    assert (Hov0 : cannot_open (io w0) vf = false).
    { destruct Henv0 as (-> & _). done. }
    destruct (py_open_ok vf mode w0 Hov0)
      as (w00 & -> & Henv00 & Hh00 & Hc00 & Ho00).
    assert (Henv' : same_env w w00) by by eapply same_env_trans.
    assert (Hready : export_ready vf (Some p) w00).
    { split; [|split; [by eapply can_hold_env|]].
      - rewrite Hh00. cbn [find_handle h_path].
        rewrite bool_decide_eq_true_2 by done. by eexists.
      - intros p' [= <-]. split; [|by eapply can_hold_env].
        rewrite Hh00, Hh0. cbn [find_handle h_path].
        rewrite bool_decide_eq_false_2 by done.
        rewrite bool_decide_eq_true_2 by done. by eexists. }
    assert (Hwv : written w00 vf = kept mode w vf).
    { unfold written, pending. rewrite Hc00, Hh00. cbn [find_handle h_path].
      rewrite bool_decide_eq_true_2 by done. cbn. rewrite app_nil_r.
      unfold kept. destruct mode; [done|]. by apply Ho0. }
    assert (Hwp : written w00 p = []).
    { unfold written, pending. rewrite (Ho00 p Hpv), Hc0, Hh00, Hh0.
      cbn [find_handle h_path]. rewrite bool_decide_eq_false_2 by done.
      by rewrite bool_decide_eq_true_2 by done. }
    pose proof (write_batches_handles v vf (Some p)
                  ((Ok <$> batches) ++ tail) w00) as Hh1.
    destruct (write_batches_ok v vf (Some p) batches tail Hne Hk Hstop w00
                Hready) as (w1 & Hw1 & Henv1 & Hready1 & Hv1 & Hp1 & Hother1).
    rewrite Hw1 in Hh1 |- *. cbn [snd] in Hh1.
    unfold open_handles in Hh1 at 2. rewrite Hh00, Hh0 in Hh1.
    cbn [fmap list_fmap h_path] in Hh1. fold (open_handles w) in Hh1.
    destruct Hready1 as (Hfv1 & Hhv1 & Hr1). destruct (Hr1 p eq_refl) as [Hfp1 Hhp1].
    pose proof (py_close_handles vf w1 _ Hh1) as Hh2.
    destruct (py_close_ok vf w1 Hfv1 Hhv1) as (w2 & Hw2 & Henv2 & Hhs2 & Hc2 & Ho2).
    rewrite Hw2 in Hh2 |- *. cbn [snd] in Hh2.
    assert (Hfp2 : find_handle p (handles w2) = find_handle p (handles w1)).
    { by apply (pending_closed w1 w2 vf p). }
    assert (Hwp2 : written w2 p = result_line v <$> concat batches).
    { rewrite (written_eq w1 w2 p (Ho2 p Hpv) Hfp2), (Hp1 p eq_refl), Hwp.
      done. }
    assert (Hcv2 : content w2 vf
                   = kept mode w vf ++ (vector_line v <$> concat batches)).
    { by rewrite Hc2, Hv1, Hwv. }
    assert (Hoth2 : ∀ q, q ≠ vf → Some p ≠ Some q → content w2 q = content w q).
    { intros q Hq1 Hq2. assert (q ≠ p) by congruence.
      rewrite (Ho2 q Hq1). destruct (Hother1 q Hq1 Hq2) as [-> _].
      rewrite (Ho00 q Hq1). by apply Ho0. }
    destruct tail as [|[rows|e] tail]; [|done|]; cbn [loader_outcome].
    + assert (Hfp2' : is_Some (find_handle p (handles w2))) by by rewrite Hfp2.
      assert (Hhp2 : can_hold w2 p).
      { eapply can_hold_env; [exact Henv2|done]. }
      pose proof (py_close_handles p w2 _ Hh2) as Hh3.
      destruct (py_close_ok p w2 Hfp2' Hhp2)
        as (w3 & Hw3 & Henv3 & Hhs3 & Hc3 & Ho3).
      rewrite Hw3 in Hh3 |- *. cbn [snd] in Hh3.
      exists w3. split; [done|].
      split; [by repeat (eapply same_env_trans; [|eassumption])|].
      split; [by rewrite (Ho3 vf Hvp)|].
      split; [intros p' [= <-]; by rewrite app_nil_r, Hc3|].
      split; [done|].
      intros q Hq1 Hq2. assert (q ≠ p) by congruence.
      rewrite (Ho3 q ltac:(done)). by apply Hoth2.
    + exists w2. split; [done|].
      split; [by repeat (eapply same_env_trans; [|eassumption])|].
      split; [done|]. split; [by intros p' [= <-]|]. split; [done|].
      exact Hoth2.
  - destruct (py_open_ok vf mode w Hov)
      as (w00 & -> & Henv00 & Hh00 & Hc00 & Ho00).
    assert (Hready : export_ready vf None w00).
    { split; [|split; [by eapply can_hold_env|done]].
      rewrite Hh00. cbn [find_handle h_path].
      rewrite bool_decide_eq_true_2 by done. by eexists. }
    assert (Hwv : written w00 vf = kept mode w vf).
    { unfold written, pending. rewrite Hc00, Hh00. cbn [find_handle h_path].
      rewrite bool_decide_eq_true_2 by done. cbn. by rewrite app_nil_r. }
    pose proof (write_batches_handles v vf None
                  ((Ok <$> batches) ++ tail) w00) as Hh1.
    destruct (write_batches_ok v vf None batches tail Hne Hk Hstop w00
                Hready) as (w1 & Hw1 & Henv1 & Hready1 & Hv1 & _ & Hother1).
    rewrite Hw1 in Hh1 |- *. cbn [snd] in Hh1.
    unfold open_handles in Hh1 at 2. rewrite Hh00 in Hh1.
    cbn [fmap list_fmap h_path] in Hh1. fold (open_handles w) in Hh1.
    destruct Hready1 as (Hfv1 & Hhv1 & _).
    pose proof (py_close_handles vf w1 _ Hh1) as Hh2.
    destruct (py_close_ok vf w1 Hfv1 Hhv1) as (w2 & Hw2 & Henv2 & Hhs2 & Hc2 & Ho2).
    rewrite Hw2 in Hh2 |- *. cbn [snd] in Hh2.
    exists w2.
    split; [by destruct tail as [|[rows|e] tail]|].
    split; [by repeat (eapply same_env_trans; [|eassumption])|].
    split; [by rewrite Hc2, Hv1, Hwv|]. split; [done|].
    split; [by destruct (loader_outcome tail)|].
    intros q Hq1 Hq2. rewrite (Ho2 q Hq1).
    destruct (Hother1 q Hq1 Hq2) as [-> _]. by apply Ho00.
Qed.

(** X11. An export whose labels are in [itos], whose files can be opened and
    written, and whose loader yields batches up to its end or to a first
    batch that fails: the call returns, or raises that batch's exception.
    Either way the vector file is closed and holds what ["w"] or ["a"] left
    there followed by one line per exported example, in loader order, and no
    third path has changed.  When the call returns, the result file is
    closed and holds one line per exported example.  When it raises, the
    handle of the result file stays open and those lines are in the file or
    still in the buffer of that handle: how many reached the file is up to
    the runtime. *)
Theorem write_code_vectors_content (v : LabelVocab)
    (batches : list (list Row)) (tail : list (result (list Row)))
    (vf : string) (mode : OpenMode) (fr : option string) (w : World) :
  fr ≠ Some vf → rows_known v fr (concat batches) → stops tail →
  cannot_open (io w) vf = false → can_hold w vf →
  (∀ p, fr = Some p → cannot_open (io w) p = false ∧ can_hold w p) →
  let r := write_code_vectors v ((Ok <$> batches) ++ tail) vf mode fr w in
  r.1 = loader_outcome tail
  ∧ content r.2 vf = kept mode w vf ++ (vector_line v <$> concat batches)
  ∧ (∀ p, fr = Some p →
       match r.1 with
       | Ok _ =>
           content r.2 p = result_line v <$> concat batches
           ∧ open_handles r.2 = open_handles w
       | Raise _ =>
           content r.2 p ++ pending r.2 p = result_line v <$> concat batches
           ∧ open_handles r.2 = p :: open_handles w
       end)
  ∧ (fr = None → open_handles r.2 = open_handles w)
  ∧ (∀ q, q ≠ vf → fr ≠ Some q → content r.2 q = content w q).
Proof.
  intros Hne Hk Hstop Hov Hhv Hfr r.
  destruct (write_code_vectors_ok v batches tail vf mode fr w Hne Hk Hstop Hov
              Hhv Hfr) as (w' & Hr & _ & Hv & Hp & Hh & Hother).
  unfold r. rewrite Hr. cbn [fst snd].
  split; [done|]. split; [exact Hv|]. split; [|split; [|exact Hother]].
  - intros p ->. specialize (Hp p eq_refl).
    destruct (loader_outcome tail) as [[]|e].
    + rewrite app_nil_r in Hp. by split.
    + by split.
  - intros ->. by destruct (loader_outcome tail).
Qed.

(** An export with a result file whose second batch fails, on a file system
    that flushes at [close] only: the vector line of the first batch is in
    the vector file, its result line is in the buffer of the handle that was
    left open, and the result file itself is empty. *)
Lemma write_code_vectors_content_witness :
  let r := write_code_vectors demo_vocab
             [Ok [demo_row 3 0 1]; Raise RuntimeError; Ok [demo_row 4 1 1]]
             "vectors.txt" mode_a (Some "result.tsv"%string) empty_world in
  r.1 = Raise RuntimeError
  ∧ content r.2 "vectors.txt" = [vector_line demo_vocab (demo_row 3 0 1)]
  ∧ content r.2 "result.tsv" ++ pending r.2 "result.tsv"
    = [result_line demo_vocab (demo_row 3 0 1)]
  ∧ content r.2 "result.tsv" = [].
Proof.
  intros r.
  destruct (write_code_vectors_content demo_vocab [[demo_row 3 0 1]]
              [Raise RuntimeError; Ok [demo_row 4 1 1]] "vectors.txt" mode_a
              (Some "result.tsv"%string) empty_world)
    as (Hout & Hv & Hp & _).
  - done.
  - constructor; [|constructor]. split; by eexists.
  - done.
  - done.
  - done.
  - intros p _. by split.
  - fold r in Hout, Hv, Hp. split; [exact Hout|]. split; [exact Hv|].
    specialize (Hp "result.tsv"%string eq_refl). rewrite Hout in Hp.
    split; [exact (proj1 Hp)|]. by vm_compute.
Defined.

(** X15. An export whose files cannot be opened.  If the result file cannot
    be opened the call raises [OSError] and nothing has happened.  If the
    vector file cannot be opened the call raises [OSError] as well, but the
    result file, opened before it, has already been truncated, and its
    handle is left open. *)
Theorem write_code_vectors_cannot_open (v : LabelVocab)
    (loader : list (result (list Row))) (vf : string) (mode : OpenMode)
    (fr : option string) (w : World) :
  let r := write_code_vectors v loader vf mode fr w in
  (∀ p, fr = Some p → cannot_open (io w) p = true → r = (Raise OSError, w))
  ∧ (cannot_open (io w) vf = true →
     r.1 = Raise OSError
     ∧ (fr = None → r.2 = w)
     ∧ (∀ p, fr = Some p → cannot_open (io w) p = false →
          open_handles r.2 = p :: open_handles w
          ∧ content r.2 p = []
          ∧ ∀ q, q ≠ p → content r.2 q = content w q)).
Proof.
  intros r. unfold r, write_code_vectors, with_open. split.
  - intros p -> Hp. unfold py_open. by rewrite Hp.
  - intros Hv. destruct fr as [p|].
    + destruct (cannot_open (io w) p) eqn:Hp.
      * unfold py_open. rewrite Hp. cbn [fst snd].
        split; [done|]. split; [done|]. intros p' [= <-] Hf. congruence.
      * destruct (py_open_ok p mode_w w Hp)
          as (w0 & Hw0 & (Hio & _) & Hh0 & Hc0 & Ho0).
        assert (Hvo : py_open vf mode w0 = (Raise OSError, w0)).
        { unfold py_open. by rewrite Hio, Hv. }
        rewrite Hw0, Hvo. cbn [fst snd].
        split; [done|]. split; [done|]. intros p' [= <-] _.
        split; [|by split].
        unfold open_handles. by rewrite Hh0.
    + unfold py_open. rewrite Hv. cbn [fst snd]. by split.
Qed.

Lemma write_code_vectors_cannot_open_witness :
  let w := {| files := {[ "result.tsv"%string := ["stale"%string] ]};
              handles := []; reports := []; summary := [];
              io := {| cannot_open := λ p, bool_decide (p = "out/vectors.txt"%string);
                       cannot_hold := λ _ _, false;
                       flushes_early := λ _ _, false;
                       save_error := λ _, None |} |} in
  let r := write_code_vectors demo_vocab [Ok [demo_row 3 0 1]]
             "out/vectors.txt" mode_a (Some "result.tsv"%string) w in
  r.1 = Raise OSError
  ∧ open_handles r.2 = ["result.tsv"%string]
  ∧ content w "result.tsv" = ["stale"%string]
  ∧ content r.2 "result.tsv" = [].
Proof.
  intros w r.
  destruct (write_code_vectors_cannot_open demo_vocab [Ok [demo_row 3 0 1]]
              "out/vectors.txt" mode_a (Some "result.tsv"%string) w)
    as [_ H].
  destruct H as (Hr & _ & Hp); [done|].
  destruct (Hp "result.tsv"%string eq_refl eq_refl) as (Hh & Hc & _).
  split; [exact Hr|]. split; [exact Hh|]. split; [done|exact Hc].
Defined.

(** ** The persistence step *)





(** ** The hyperparameter search *)

Lemma objective_value (args : Args) (reader : Reader) (tr : TrialRun)
    (w : World) (value : pyfloat) :
  (objective args reader tr w).2 = Ok value → value = Num 1.
Proof.
  unfold objective, _train, DISALLOW_WRITE, train_with. cbn [snd].
  destruct (exit _); by intros [= <-].
Qed.

(** A trial changes no file and no handle, and calls no summary writer
    unless there is one. *)
Lemma objective_frame (args : Args) (reader : Reader) (tr : TrialRun)
    (w : World) :
  files (final_world (objective args reader tr w).1) = files w
  ∧ handles (final_world (objective args reader tr w).1) = handles w
  ∧ (tensorboard args = false →
     summary (final_world (objective args reader tr w).1) = summary w).
Proof.
  unfold objective, _train, DISALLOW_WRITE.
  run_facts (train_with_run true args reader (run_encode_size tr)
               (Some (run_trial tr)) (run_env tr) w).
  destruct (epoch_loop_frame args reader (run_encode_size tr)
              (Some (run_trial tr)) (Num 0) (run_env tr) (max_epoch args)
              0%nat initial_state (writer_call args WriterCreated w))
    as (Hf & Hh & _).
  destruct (writer_call_frame args WriterCreated w) as (Hf0 & Hh0 & _).
  split; [congruence|]. split; [congruence|].
  apply train_summary.
Qed.

(** When the passes end normally the loop can only be aborted by pruning,
    and is not aborted at all under a pruner that never says yes. *)
Lemma epoch_loop_only_pruned (args : Args) (reader : Reader) (encode_size : Z)
    (t : Trial) (f1 : pyfloat) (env : nat → EpochObs) (remaining : nat) :
  ∀ (epoch : nat) (st : TrainState) (w : World),
    (∀ k, (epoch <= k < epoch + remaining)%nat → passes_ok args reader (env k)) →
    ∀ e, exit (epoch_loop true args reader encode_size (Some t) f1 env
                 remaining epoch st w) = Raised e →
         e = TrialPruned ∧ ¬ (∀ rs step, should_prune t rs step = false).
Proof.
  induction remaining as [|remaining IH]; intros epoch st w Hok e; [done|].
  cbn [epoch_loop].
  pose proof (epoch_body_locked args reader encode_size (Some t) f1 epoch
                (env epoch) st w) as H.
  destruct (Hok epoch ltac:(lia)) as ((tl & Ht) & (rd & Hd) & (rt & Hte)).
  destruct (epoch_body _ _ _ _ _ _ _ _ _ _) as [[sig st'] w'].
  inversion H as [e' Hf|w1 Hr|tl' dl da dp dr df w1 _ _ Hr st2]; subst.
  - destruct Hf as [Hf|[Hf|Hf]]; congruence.
  - cbn [exit]. intros [= <-]. split; [done|]. intros Hnever.
    apply report_step_world in Hr as (_ & _ & [(? & _)|(t' & [= <-] & _ & Hp)]);
      [done|]. by rewrite Hnever in Hp.
  - destruct (10 <? _); [done|]. apply IH. intros k Hk. apply Hok. lia.
Qed.

Lemma always_pruned_ret (args : Args) (reader : Reader) (encode_size : Z)
    (t : Trial) (env : nat → EpochObs) (w : World) :
  (∀ k, (k < max_epoch args)%nat → passes_ok args reader (env k)) →
  (1 <= max_epoch args)%nat →
  (∀ rs step, should_prune t rs step = true) →
  (_train args reader encode_size (Some t) env w).2 = Raise TrialPruned.
Proof.
  intros Hok Hmax Halways. apply train_with_ret.
  run_facts (train_with_run true args reader encode_size (Some t) env w).
  unfold _train, DISALLOW_WRITE. rewrite Hexit.
  set (w0 := writer_call args WriterCreated w).
  destruct (epoch_loop_trial args reader encode_size t (Num 0) env
              (max_epoch args) 0%nat initial_state w0)
    as (n & Hn & _ & _ & Hall & _).
  { intros k Hk. apply Hok. lia. }
  pose proof (epochs_run_bounds true args reader encode_size (Some t) (Num 0)
                env (max_epoch args) 0%nat initial_state w0) as [_ Hb].
  cbv zeta in Hb. specialize (Hb ltac:(lia)).
  destruct (Hall 0%nat ltac:(lia) (Halways _ _)) as [_ Hex]. exact Hex.
Qed.

Lemma objective_outcome (args : Args) (reader : Reader) (tr : TrialRun)
    (w : World) :
  trial_passes_ok args reader tr →
  ((objective args reader tr w).2 = Ok (Num 1)
   ∨ (objective args reader tr w).2 = Raise TrialPruned)
  ∧ (never_pruned tr → (objective args reader tr w).2 = Ok (Num 1))
  ∧ ((1 <= max_epoch args)%nat →
     (∀ rs step, should_prune (run_trial tr) rs step = true) →
     (objective args reader tr w).2 = Raise TrialPruned).
Proof.
  intros Hok.
  assert (Hret : (objective args reader tr w).2 = Ok (Num 1)
                 ∨ (objective args reader tr w).2 = Raise TrialPruned
                   ∧ ¬ never_pruned tr).
  { unfold objective, _train, DISALLOW_WRITE.
    run_facts (train_with_run true args reader (run_encode_size tr)
                 (Some (run_trial tr)) (run_env tr) w).
    rewrite Hret.
    pose proof (epoch_loop_only_pruned args reader (run_encode_size tr)
                  (run_trial tr) (Num 0) (run_env tr) (max_epoch args) 0%nat
                  initial_state (writer_call args WriterCreated w)) as Hex.
    destruct (exit _) as [| |e]; [by left..|].
    destruct (Hex ltac:(intros k Hk; apply Hok; lia) e eq_refl) as [-> ?].
    by right. }
  split; [tauto|]. split; [tauto|].
  intros Hmax Halways.
  by apply always_pruned_ret.
Qed.

Lemma optimize_frame (catches : exn → bool) (args : Args) (reader : Reader)
    (trials : list TrialRun) :
  ∀ w, files (optimize catches args reader trials w).2 = files w
       ∧ handles (optimize catches args reader trials w).2 = handles w
       ∧ (tensorboard args = false →
          summary (optimize catches args reader trials w).2 = summary w).
Proof.
  induction trials as [|tr trials IH]; intros w; [done|].
  cbn [optimize]. destruct (objective_frame args reader tr w) as (Hf & Hh & Hs).
  specialize (IH (final_world (objective args reader tr w).1)).
  assert (Hstep : ∀ x : result (list TrialState) * World,
            x.2 = (optimize catches args reader trials
                     (final_world (objective args reader tr w).1)).2
            ∨ x.2 = final_world (objective args reader tr w).1 →
            files x.2 = files w ∧ handles x.2 = handles w
            ∧ (tensorboard args = false → summary x.2 = summary w)).
  { intros x [-> | ->].
    - destruct IH as (IHf & IHh & IHs).
      split; [congruence|]. split; [congruence|].
      intros Hoff. rewrite IHs, Hs; done.
    - done. }
  apply Hstep.
  destruct (optimize catches args reader trials _) as [[states|e'] w''];
    destruct ((objective args reader tr w).2) as [value|[]];
    try destruct (catches _); cbn [snd]; (by left) || (by right).
Qed.

Lemma optimize_values (catches : exn → bool) (args : Args) (reader : Reader)
    (trials : list TrialRun) :
  ∀ w states,
    (optimize catches args reader trials w).1 = Ok states →
    Forall (λ s, ∀ value, s = Complete value → value = Num 1) states.
Proof.
  induction trials as [|tr trials IH]; intros w states.
  { cbn. intros [= <-]. constructor. }
  cbn [optimize].
  pose proof (objective_value args reader tr w) as Hv.
  specialize (IH (final_world (objective args reader tr w).1)).
  destruct (optimize catches args reader trials _) as [[rest|e'] w''];
    cbn [fst] in IH;
    destruct ((objective args reader tr w).2) as [value|[]];
    try destruct (catches _); cbn [fst]; try done;
    intros [= <-]; (constructor; [|by apply IH]); intros v; try done.
  intros [= <-]. by apply Hv.
Qed.

Lemma best_value_one (states : list TrialState) :
  Forall (λ s, ∀ value, s = Complete value → value = Num 1) states →
  (∀ b, best_value states = Some b → b = Num 1)
  ∧ (Exists (λ s, ∃ value, s = Complete value) states →
     best_value states = Some (Num 1)).
Proof.
  induction 1 as [|s states Hs _ [IH1 IH2]].
  { split; [done|]. intros H. by apply Exists_nil in H. }
  destruct s as [value| |e]; cbn [best_value].
  - rewrite (Hs value eq_refl).
    destruct (best_value states) as [b|].
    + rewrite (IH1 b eq_refl). cbn. split; [by intros b' [= <-]|done].
    + split; [by intros b' [= <-]|done].
  - split; [done|]. intros Hex.
    apply Exists_cons in Hex as [(? & ?)|Hex]; [done|by apply IH2].
  - split; [done|]. intros Hex.
    apply Exists_cons in Hex as [(? & ?)|Hex]; [done|by apply IH2].
Qed.

(** With passes that end normally the study records every trial, as
    completed with value 1 or as pruned. *)
Lemma optimize_ok (catches : exn → bool) (args : Args) (reader : Reader)
    (trials : list TrialRun) :
  Forall (trial_passes_ok args reader) trials →
  ∀ w, ∃ states,
    (optimize catches args reader trials w).1 = Ok states
    ∧ Forall2 (λ tr s,
         (s = Complete (Num 1) ∨ s = Pruned)
         ∧ (never_pruned tr → s = Complete (Num 1))
         ∧ ((1 <= max_epoch args)%nat →
            (∀ rs step, should_prune (run_trial tr) rs step = true) →
            s = Pruned)) trials states.
Proof.
  induction 1 as [|tr trials Hok _ IH]; intros w.
  { exists []. split; [done|constructor]. }
  cbn [optimize].
  destruct (objective_outcome args reader tr w Hok) as (Hcase & Hnever & Halways).
  destruct (IH (final_world (objective args reader tr w).1))
    as (states & Hst & Hall).
  destruct (optimize catches args reader trials _) as [res w''];
    cbn [fst] in Hst. subst res.
  destruct Hcase as [Hret|Hret]; rewrite Hret in *; cbn [fst].
  - exists (Complete (Num 1) :: states). split; [done|].
    constructor; [|done]. split; [by left|]. split; [done|].
    intros Hm Ha. by specialize (Halways Hm Ha).
  - exists (Pruned :: states). split; [done|].
    constructor; [|done]. split; [by right|]. split; [|done].
    intros Hn. by specialize (Hnever Hn).
Qed.

(** X13. The hyperparameter search cannot tell configurations apart.
    Whatever the trials draw, whatever the pruner answers and whichever
    exceptions the study catches: a best value, when there is one, is
    exactly 1.0; the search changes no file and opens or closes no handle;
    and unless [args.env] is ["tensorboard"] no summary writer is called, so
    that the reports to the trials are its only trace.  When the passes of
    all trials end normally, the search reports 1.0 as soon as one trial is
    never pruned, and ends with [ValueError] when every trial is pruned
    (here: by a pruner that always says yes), no trial having completed. *)
Theorem search_best_value_is_one (catches : exn → bool) (args : Args)
    (reader : Reader) (trials : list TrialRun) (w : World) :
  let r := find_optimal_hyperparams catches args reader trials w in
  files r.2 = files w
  ∧ handles r.2 = handles w
  ∧ (tensorboard args = false → summary r.2 = summary w)
  ∧ (∀ value, r.1 = Ok value → value = Num 1)
  ∧ (Forall (trial_passes_ok args reader) trials →
     (Exists never_pruned trials → r.1 = Ok (Num 1))
     ∧ ((1 <= max_epoch args)%nat →
        Forall (λ tr, ∀ rs step, should_prune (run_trial tr) rs step = true)
          trials →
        r.1 = Raise ValueError)).
Proof.
  intros r. unfold r, find_optimal_hyperparams.
  pose proof (optimize_frame catches args reader trials w) as (Hf & Hh & Hs).
  pose proof (optimize_values catches args reader trials w) as Hv.
  pose proof (λ H, optimize_ok catches args reader trials H w) as Hok.
  destruct (optimize catches args reader trials w) as [[states|e] w'];
    cbn [fst snd] in *.
  - destruct (best_value_one states (Hv states eq_refl)) as [Hb1 Hb2].
    assert (Hpos : Forall (trial_passes_ok args reader) trials →
              (Exists never_pruned trials → best_value states = Some (Num 1))
              ∧ ((1 <= max_epoch args)%nat →
                 Forall (λ tr, ∀ rs step,
                           should_prune (run_trial tr) rs step = true) trials →
                 best_value states = None)).
    { intros Hall. destruct (Hok Hall) as (states' & [= <-] & H2). clear Hok.
      split.
      - intros Hex. apply Hb2. clear -H2 Hex.
        induction H2 as [|tr s trials states (_ & Hn & _) _ IH].
        + by apply Exists_nil in Hex.
        + apply Exists_cons in Hex as [Hex|Hex].
          * apply Exists_cons_hd. exists (Num 1). by apply Hn.
          * by apply Exists_cons_tl, IH.
      - intros Hmax Hall'. clear -H2 Hall' Hmax.
        induction H2 as [|tr s trials states (_ & _ & Ha) _ IH]; [done|].
        apply Forall_cons in Hall' as [Hhd Htl].
        rewrite (Ha Hmax Hhd). cbn [best_value]. by apply IH. }
    destruct (best_value states) as [b|] eqn:Eb; cbn [fst snd].
    + split; [done|]. split; [done|]. split; [done|]. split.
      * intros value [= <-]. by apply Hb1.
      * intros Hall. destruct (Hpos Hall) as [H1 H2]. split.
        -- intros Hex. by injection (H1 Hex) as ->.
        -- intros Hmax Ha. by specialize (H2 Hmax Ha).
    + split; [done|]. split; [done|]. split; [done|]. split; [done|].
      intros Hall. destruct (Hpos Hall) as [H1 H2]. split; [|done].
      intros Hex. by specialize (H1 Hex).
  - split; [done|]. split; [done|]. split; [done|]. split; [done|].
    intros Hall. by destruct (Hok Hall) as (? & ? & _).
Qed.

Lemma search_best_value_is_one_witness :
  let good := {| run_trial := never_prune; run_encode_size := 128;
                 run_env := replay [] (demo_epoch 1 [0; 0; 1]) |} in
  let poor := {| run_trial := never_prune; run_encode_size := 256;
                 run_env := replay [] (demo_epoch 9 [1; 1; 0]) |} in
  (find_optimal_hyperparams (λ _, false) (demo_args 3) demo_reader
     [poor; good] empty_world).1 = Ok (Num 1).
Proof.
  intros good poor.
  apply (search_best_value_is_one (λ _, false) (demo_args 3) demo_reader
           [poor; good] empty_world).
  - constructor; [|constructor; [|constructor]]; intros k _;
      (split; [by eexists|split; by eexists]).
  - apply Exists_cons_hd. by intros ??.
Defined.

(** ** Printing a sample *)

Lemma print_rows_wrong (T P L : gmap Z string) (pre rest : list SampleRow) :
  Forall (λ r, s_pred r ≠ s_label r) pre →
  print_rows T P L (pre ++ rest) = print_rows T P L rest.
Proof.
  induction 1 as [|r pre Hr _ IH]; [done|].
  cbn [app print_rows]. by rewrite bool_decide_eq_false_2.
Qed.

Lemma print_sample_wrong (T P L : gmap Z string) (before : list (list SampleRow))
    (rest : list (result (list SampleRow))) :
  Forall (λ r, s_pred r ≠ s_label r) (concat before) →
  print_sample T P L ((Ok <$> before) ++ rest) = print_sample T P L rest.
Proof.
  induction before as [|rows before IH]; [done|].
  cbn [concat]. intros [Hrows Hrest]%Forall_app.
  cbn [fmap list_fmap app print_sample].
  pose proof (print_rows_wrong T P L rows [] Hrows) as Hnone.
  rewrite app_nil_r in Hnone. rewrite Hnone. by apply IH.
Qed.

Lemma context_lines_shown (starts paths ends attns : list string) :
  context_lines starts paths ends attns = shown_contexts starts paths ends attns.
Proof.
  unfold shown_contexts. revert paths ends attns.
  induction starts as [|s starts IH]; intros [|p paths] [|e ends] [|a attns];
    try by cbn.
  cbn [context_lines zip_with]. rewrite filter_cons. cbn [fst].
  rewrite IH. destruct (decide (s ≠ PAD)).
  - by rewrite bool_decide_eq_true_2.
  - by rewrite bool_decide_eq_false_2.
Qed.

Lemma print_row_inv (T P L : gmap Z string) (r : SampleRow) (lines : list string) :
  print_row T P L r = Ok lines →
  ∃ starts paths ends name pred_name,
    lookup_all T (s_starts r) = Ok starts
    ∧ lookup_all P (s_paths r) = Ok paths
    ∧ lookup_all T (s_ends r) = Ok ends
    ∧ L !! s_label r = Some name
    ∧ L !! s_pred r = Some pred_name
    ∧ lines = shown_contexts starts paths ends (s_attn r)
              ++ [expected_line name; actual_line pred_name].
Proof.
  unfold print_row, getitem.
  destruct (lookup_all T (s_starts r)) as [starts|]; [|done].
  destruct (lookup_all P (s_paths r)) as [paths|]; [|done].
  destruct (lookup_all T (s_ends r)) as [ends|]; [|done].
  destruct (L !! s_label r) as [name|]; [|done].
  destruct (L !! s_pred r) as [pred_name|]; [|done].
  cbn [mbind result_bind]. intros [= <-]. rewrite context_lines_shown.
  by exists starts, paths, ends, name, pred_name.
Qed.

(** X14. [print_sample] looks for the first example, in loader order, whose
    prediction equals its label.  Over batches that hold no such example:
    if the loader ends there nothing is logged; if the next batch fails to
    load its exception is raised; and if the next batch holds such an
    example, what is logged is that example alone, whatever follows it
    (later examples and batches are never looked at): one line per path
    context whose start is not the padding token, then the expected and the
    actual label, which are the same name. *)
Theorem print_sample_first_correct (T P L : gmap Z string)
    (before : list (list SampleRow)) :
  Forall (λ r, s_pred r ≠ s_label r) (concat before) →
  print_sample T P L (Ok <$> before) = Ok []
  ∧ (∀ e rest, print_sample T P L ((Ok <$> before) ++ Raise e :: rest) = Raise e)
  ∧ (∀ pre r post rest,
       Forall (λ x, s_pred x ≠ s_label x) pre → s_pred r = s_label r →
       print_sample T P L ((Ok <$> before) ++ Ok (pre ++ r :: post) :: rest)
       = print_row T P L r
       ∧ ∀ lines, print_row T P L r = Ok lines →
           ∃ starts paths ends name,
             lookup_all T (s_starts r) = Ok starts
             ∧ lookup_all P (s_paths r) = Ok paths
             ∧ lookup_all T (s_ends r) = Ok ends
             ∧ L !! s_label r = Some name
             ∧ lines = shown_contexts starts paths ends (s_attn r)
                       ++ [expected_line name; actual_line name]).
Proof.
  intros Hwrong. split; [|split].
  - rewrite <- (app_nil_r (Ok <$> before)). by rewrite print_sample_wrong.
  - intros e rest. by rewrite print_sample_wrong.
  - intros pre r post rest Hpre Hr. split.
    + rewrite print_sample_wrong by done. cbn [print_sample].
      rewrite print_rows_wrong by done. cbn [print_rows].
      by rewrite bool_decide_eq_true_2.
    + intros lines Hlines.
      apply print_row_inv in Hlines
        as (starts & paths & ends & name & pred_name & H1 & H2 & H3 & Hn & Hp & ->).
      rewrite Hr, Hn in Hp. injection Hp as <-.
      by exists starts, paths, ends, name.
Qed.

Lemma print_sample_first_correct_witness :
  let T : gmap Z string := {[ 0 := PAD; 1 := "x"%string; 2 := "y"%string ]} in
  let P : gmap Z string := {[ 0 := PAD; 5 := "up"%string ]} in
  let wrong := {| s_starts := [1]; s_paths := [5]; s_ends := [2];
                  s_label := 0; s_pred := 1; s_attn := ["0.9"%string] |} in
  let right := {| s_starts := [1; 0]; s_paths := [5; 0]; s_ends := [2; 0];
                  s_label := 1; s_pred := 1;
                  s_attn := ["0.7"; "0.3"]%string |} in
  print_sample T P (itos demo_vocab)
    [Ok [wrong; wrong]; Ok [wrong; right; right]; Raise RuntimeError]
  = Ok [context_line "x" "up" "y" "0.7"; expected_line "setX";
        actual_line "setX"].
Proof.
  intros T P wrong right.
  destruct (print_sample_first_correct T P (itos demo_vocab) [[wrong; wrong]])
    as (_ & _ & H).
  - by repeat constructor.
  - destruct (H [wrong] right [right] [Raise RuntimeError]) as [Heq _].
    + by repeat constructor.
    + done.
    + exact Heq.
Defined.
